(** * heliusbot-volume: dedup, freshness cache and retry orchestration

    A shallow embedding of the two Cloudflare workers of the repository:

    - the Solana action bot ([Module Webhook]): [fetchWithRetry],
      [sendTelegramMessage] and the [POST /webhook] handler, and the
      [POST /create-webhook] handler with its marking loop;
    - the Telegram signal bot ([Module Bot], [src/index.ts]): [checkNewTokens],
      [sendAlert], [sendMessage], [handleInfoCommand], [handleTickerCommand],
      and [escapeHtml], [handleGlobalCommand] with [fetchCMCGlobal] and
      [fetchCMCExchangeData], [startMessage] and the router [handleUpdate].

    Asynchronous functions become computations in a small monad [M] that
    threads the world (key-value store, clock, network), collects the
    observable events in order and carries JavaScript exceptions. *)

From Stdlib Require Import ZArith List Ascii String Floats.
From stdpp Require Import base strings gmap list pretty.

Open Scope string_scope.
Open Scope Z_scope.
Open Scope list_scope.

(** ** JavaScript exceptions *)

Inductive exn : Type :=
| JsError (message : string)        (* [new Error(message)] *)
| NetworkError (reason : string)    (* [fetch] rejected *)
| SyntaxError (reason : string)     (* [response.json()] rejected *)
| ReferenceError (name : string).   (* unbound identifier *)

Inductive result (A : Type) : Type :=
| Ok (a : A)
| Err (e : exn).
Arguments Ok {A} a.
Arguments Err {A} e.

(** ** Observable events *)

(** A value as given to [JSON.stringify]. *)
#[local] Unset Elimination Schemes.
Inductive jv : Type :=
| JStr (s : string)
| JNum (z : Z)
| JArr (items : list jv)
| JObj (fields : list (string * jv)).
#[local] Set Elimination Schemes.

Inductive event : Type :=
| EvFetch (url : string) (body : list (string * jv))
| EvDelay (ms : Z)
| EvKvGet (key : string)
| EvKvPut (key value : string) (ttl : option Z)
| EvNotify (text : string)
| EvLog (text : string) (cause : option exn).

(** ** The monad of asynchronous computations over a world [W] *)

Definition M (W A : Type) : Type := W -> list event * W * result A.

Definition ret {W A} (a : A) : M W A := fun w => ([], w, Ok a).

Definition bind {W A B} (m : M W A) (k : A -> M W B) : M W B :=
  fun w =>
    match m w with
    | (t1, w1, Ok a) => let '(t2, w2, r) := k a w1 in (t1 ++ t2, w2, r)
    | (t1, w1, Err e) => (t1, w1, Err e)
    end.

Definition throw {W A} (e : exn) : M W A := fun w => ([], w, Err e).

(** [try { m } catch (error) { h error }] *)
Definition try_catch {W A} (m : M W A) (h : exn -> M W A) : M W A :=
  fun w =>
    match m w with
    | (t1, w1, Ok a) => (t1, w1, Ok a)
    | (t1, w1, Err e) => let '(t2, w2, r) := h e w1 in (t1 ++ t2, w2, r)
    end.

Definition emit {W} (e : event) : M W unit := fun w => ([e], w, Ok tt).
Definition gets {W A} (f : W -> A) : M W A := fun w => ([], w, Ok (f w)).
Definition modify {W} (f : W -> W) : M W unit := fun w => ([], f w, Ok tt).

Declare Scope js_scope.
Delimit Scope js_scope with js.
Notation "'let*' x := m 'in' k" := (bind m (fun x => k))
  (at level 10, x name, m at level 100, k at level 200) : js_scope.
Notation "m ;;; k" := (bind m (fun _ => k))
  (at level 100, right associativity) : js_scope.
Open Scope js_scope.

(** [for (const x of xs) body] *)
Fixpoint for_of {W A} (xs : list A) (body : A -> M W unit) : M W unit :=
  match xs with
  | [] => ret tt
  | x :: xs' => body x ;;; for_of xs' body
  end.

Definition events {W A} (o : list event * W * result A) : list event := o.1.1.
Definition world {W A} (o : list event * W * result A) : W := o.1.2.
Definition outcome {W A} (o : list event * W * result A) : result A := o.2.

(** ** The durable key-value store (Workers KV) *)

Module KV.

(** A stored value with its absolute expiry in ms, if any. *)
Record entry : Type := { value : string; expiration : option Z }.

Definition live (now : Z) (e : entry) : bool :=
  match expiration e with
  | None => true
  | Some t => now <? t
  end.

(** [kv.get(key)]: the value, or [null] when absent or expired. *)
Definition get (now : Z) (s : gmap string entry) (k : string) : option string :=
  match s !! k with
  | Some e => if live now e then Some (value e) else None
  | None => None
  end.

(** [kv.put(key, value, { expirationTtl })], the ttl in seconds. *)
Definition put (now : Z) (s : gmap string entry) (k v : string) (ttl : option Z)
  : gmap string entry :=
  <[k := {| value := v; expiration := (fun t => now + t * 1000) <$> ttl |}]> s.

(** Truthiness of what [get] returned: [null] and the empty string are falsy. *)
Definition truthy (r : option string) : bool :=
  match r with
  | Some v => negb (String.eqb v "")
  | None => false
  end.

End KV.

(** ** The world outside a worker *)

(** What one [fetch] call meets: the transport fails, or a response arrives
    with its body text, which parses as JSON ([Some]) or not ([None]). *)
Record response (J : Type) : Type :=
  { ok : bool; status : Z; body_text : string; json : option J }.
Arguments ok {J} r.
Arguments status {J} r.
Arguments body_text {J} r.
Arguments json {J} r.

Inductive reply (J : Type) : Type :=
| Rejected (reason : string)
| Responded (r : response J).
Arguments Rejected {J} reason.
Arguments Responded {J} r.

(** The module-level variables of the worker ([heap]), the KV namespace, the
    clock in ms, and the outside, which answers the n-th call of history:
    a [fetch] with [net n], a notification with [notify n] (the exception
    it raises, if any), after [latency n] ms. *)
Record World (H J : Type) : Type :=
  { heap : H;
    kv : gmap string KV.entry;
    now : Z;
    calls : nat;
    net : nat -> reply J;
    notify : nat -> option exn;
    latency : nat -> N }.
Arguments heap {H J} w.
Arguments kv {H J} w.
Arguments now {H J} w.
Arguments calls {H J} w.
Arguments net {H J} w.
Arguments notify {H J} w.
Arguments latency {H J} w.

Section Runtime.

Context {H J : Type}.
Implicit Type w : World H J.

Definition set_heap (h : H) w : World H J :=
  {| heap := h; kv := kv w; now := now w; calls := calls w;
     net := net w; notify := notify w; latency := latency w |}.

Definition set_kv (s : gmap string KV.entry) w : World H J :=
  {| heap := heap w; kv := s; now := now w; calls := calls w;
     net := net w; notify := notify w; latency := latency w |}.

Definition elapse (ms : Z) w : World H J :=
  {| heap := heap w; kv := kv w; now := now w + ms; calls := calls w;
     net := net w; notify := notify w; latency := latency w |}.

Definition called w : World H J :=
  {| heap := heap w; kv := kv w; now := now w + Z.of_N (latency w (calls w));
     calls := S (calls w); net := net w; notify := notify w; latency := latency w |}.

(** [await delay(ms)] *)
Definition delay (ms : Z) : M (World H J) unit :=
  emit (EvDelay ms) ;;; modify (elapse ms).

(** [Date.now()] *)
Definition Date_now : M (World H J) Z := gets now.

Definition console_error (text : string) (cause : exn) : M (World H J) unit :=
  emit (EvLog text (Some cause)).

(** [await fetch(url, { body })] *)
Definition fetch (url : string) (body : list (string * jv))
  : M (World H J) (response J) :=
  emit (EvFetch url body) ;;;
  let* r := gets (fun w => net w (calls w)) in
  modify called ;;;
  match r with
  | Rejected reason => throw (NetworkError reason)
  | Responded resp => ret resp
  end.

(** [await response.json()] *)
Definition response_json (r : response J) : M (World H J) J :=
  match json r with
  | Some j => ret j
  | None => throw (SyntaxError "Unexpected token in JSON")
  end.

(** [await kv.get(key)] *)
Definition kv_get (key : string) : M (World H J) (option string) :=
  emit (EvKvGet key) ;;;
  gets (fun w => KV.get (now w) (kv w) key).

(** [await kv.put(key, value, { expirationTtl: ttl })] *)
Definition kv_put (key value : string) (ttl : option Z) : M (World H J) unit :=
  emit (EvKvPut key value ttl) ;;;
  modify (fun w => set_kv (KV.put (now w) (kv w) key value ttl) w).

End Runtime.

(** * The Solana action bot *)

Module Webhook.

Definition CACHE_KEY : string := "raydium_cache".
Definition CACHE_TTL : Z := 300.
Definition PROCESSED_TRANSACTIONS : string := "processed_txns".
Definition MAX_RETRIES : nat := 3.
Definition RETRY_DELAY : Z := 1000.
Definition REQUEST_DELAY : Z := 500.

(** The bindings of the worker ([c.env]). *)
Record Env : Type :=
  { AUTH_TOKEN : option string;
    TELEGRAM_BOT_TOKEN : string;
    TELEGRAM_CHAT_ID : string }.

Section Program.

(** The type of parsed JSON payloads. The worker has no module-level
    variable. *)
Context {J : Type}.
#[local] Abbreviation World := (World unit J).

(** The loop of [fetchWithRetry] from iteration [i], with [left] iterations
    to go ([left = retries - i]). The [return] inside [try] leaves the
    function; the [catch] clause falls through to the next iteration. *)
Fixpoint fetchWithRetry_loop (url : string) (options : list (string * jv))
    (i left : nat) : M World J :=
  match left with
  | O =>
      throw (JsError ("Failed to fetch " +:+ url +:+ " after "
                      +:+ pretty MAX_RETRIES +:+ " retries"))
  | S left' =>
      let* r :=
        try_catch
          (let* response := fetch url options in
           if negb (ok response)
           then throw (JsError ("HTTP " +:+ pretty (status response)))
           else let* j := response_json response in ret (Some j))
          (fun error =>
             console_error ("Fetch error (attempt " +:+ pretty (S i) +:+ "):") error ;;;
             delay RETRY_DELAY ;;;
             ret None) in
      match r with
      | Some j => ret j
      | None => fetchWithRetry_loop url options (S i) left'
      end
  end.

(** [fetchWithRetry(url, options, retries = MAX_RETRIES)] *)
Definition fetchWithRetry (url : string) (options : list (string * jv))
    (retries : nat) : M World J :=
  fetchWithRetry_loop url options 0 retries.

(** *** Inbound deliveries *)

(** [events.swap] of an enhanced transaction. A property the handler
    reads and the delivery lacks is [None] ([undefined]). *)
Record SwapEvent : Type :=
  { inAmount : option float;
    tokenAddress : option string }.

Record Transaction : Type :=
  { type : option string;
    platform : option string;
    events_swap : option SwapEvent;    (* [transaction.events?.swap] *)
    signature : option string }.

(** What [c.req.json()] parsed to. *)
Inductive payload : Type :=
| NotArray
| Batch (data : list Transaction).

Record Request : Type :=
  { authorization : option string;     (* [c.req.header('Authorization')] *)
    body : option payload }.           (* [None]: the body is no JSON *)

Record HttpResponse : Type := { text : string; code : Z }.

(** [c.text(s, status)] *)
Definition c_text (s : string) (status : Z) : HttpResponse :=
  {| text := s; code := status |}.

(** [`${x}`] of a string property that may be [undefined]. *)
Definition template (x : option string) : string := default "undefined" x.

(** [x <= 0]: false when [x] is [undefined] (it converts to NaN). *)
Definition le_zero (x : option float) : bool :=
  match x with
  | Some v => PrimFloat.leb v 0%float
  | None => false
  end.

Definition telegram_url (env : Env) : string :=
  "https://api.telegram.org/bot" +:+ TELEGRAM_BOT_TOKEN env +:+ "/sendMessage".

Definition telegram_body (env : Env) (message : string) : list (string * jv) :=
  [("chat_id", JStr (TELEGRAM_CHAT_ID env)); ("text", JStr message);
   ("parse_mode", JStr "Markdown")].

(** The failure of the send is logged and swallowed; the function then
    returns [undefined] ([None]). *)
Definition sendTelegramMessage (message : string) (env : Env) : M World (option J) :=
  delay REQUEST_DELAY ;;;
  try_catch
    (let* response := fetch (telegram_url env) (telegram_body env message) in
     let* j := response_json response in
     ret (Some j))
    (fun error =>
       console_error "Error sending Telegram message:" error ;;;
       ret None).

Definition LF : string := String "010"%char EmptyString.

Definition alert_message (tokenAddress : string) : string :=
  "🚀 *TOKEN ALERT! 🚀*" +:+ LF +:+ LF
  +:+ "🆔 *Token Address*: `" +:+ tokenAddress +:+ "`" +:+ LF
  +:+ "🔍 [DexScreener](https://dexscreener.com/solana/" +:+ tokenAddress +:+ ")".

Definition processed_key (transaction : Transaction) : string :=
  PROCESSED_TRANSACTIONS +:+ "_" +:+ template (signature transaction).

(** The body of the [for (const transaction of data)] loop; [ret tt] where
    the source says [continue]. *)
Definition process_transaction (env : Env) (transaction : Transaction) : M World unit :=
  if bool_decide (type transaction ≠ Some "SWAP")
     || bool_decide (platform transaction ≠ Some "Raydium")
  then ret tt
  else
    match events_swap transaction with
    | None => ret tt
    | Some swapEvent =>
        if le_zero (inAmount swapEvent) then ret tt
        else
          let tokenAddress := default "Unknown Address" (tokenAddress swapEvent) in
          let* seen := kv_get (processed_key transaction) in
          if KV.truthy seen then ret tt
          else
            let message := alert_message tokenAddress in
            sendTelegramMessage message env ;;;
            kv_put (processed_key transaction) "processed" (Some 3600)
    end.

(** [app.post('/webhook', ...)] *)
Definition webhook (env : Env) (req : Request) : M World HttpResponse :=
  if bool_decide (authorization req ≠ AUTH_TOKEN env)
  then ret (c_text "Unauthorized" 401)
  else
    match body req with
    | None => ret (c_text "Error processing webhook" 400)
    | Some NotArray | Some (Batch []) => ret (c_text "No transactions to process" 200)
    | Some (Batch data) =>
        for_of data (process_transaction env) ;;;
        ret (c_text "Webhook processed" 200)
    end.

End Program.

(** *** Registration of the new pairs ([POST /create-webhook]) *)

(** A pair of the Raydium listing, with the properties the handler reads;
    the launch time is in whole seconds. *)
Record Pair : Type :=
  { launchTime : option Z;
    lpMint : option string;
    market : option string;
    baseMint : option string }.

(** [c.env] with the key of the Helius API. *)
Record Bindings : Type :=
  { bound : Env;
    HELIUS_API_KEY : string }.

Section Registration.

Context {J : Type}.
#[local] Abbreviation World := (World unit J).

(** What the runtime decides about JSON: [Object.values] of the listing
    (a [TypeError] when it is [null]), [JSON.stringify] of the pairs,
    [JSON.parse] of a stored text, and the truthiness of a parsed value. *)
Record JSON : Type :=
  { Object_values : J -> result (list Pair);
    JSON_stringify : list Pair -> string;
    JSON_parse : string -> result J;
    is_truthy : J -> bool }.

Variable json_ops : JSON.

(** What [c.json(...)] answers. *)
Inductive answer : Type :=
| Cached (cachedData : J)                              (* [{ success: true, cachedData }] *)
| Failed (message : string)                            (* [{ success: false, message }] *)
| Created (webhook : J) (monitoredTokens : list Pair). (* [{ success: true, webhook, monitoredTokens }] *)

Definition of_result {A} (r : result A) : M World A :=
  match r with
  | Ok a => ret a
  | Err e => throw e
  end.

(** [await kv.get(key, { type: "json" })] *)
Definition kv_get_json (key : string) : M World (option J) :=
  let* stored := kv_get key in
  match stored with
  | Some text => let* j := of_result (JSON_parse json_ops text) in ret (Some j)
  | None => ret None
  end.

(** [token.launchTime && now - token.launchTime < 86400] *)
Definition launched_recently (now : Z) (token : Pair) : bool :=
  match launchTime token with
  | Some t => negb (t =? 0) && (now - t <? 86400)
  | None => false
  end.

(** [a || b] on strings that may be [undefined] *)
Definition or_else (a b : option string) : option string :=
  if KV.truthy a then a else b.

(** [token.lpMint || token.market || token.baseMint] *)
Definition tokenAddress_of (token : Pair) : option string :=
  or_else (or_else (lpMint token) (market token)) (baseMint token).

(** The loop over the new pairs, with the array [newTokenAddresses] as it
    is so far. *)
Fixpoint track (newTokens : list Pair) (newTokenAddresses : list string)
  : M World (list string) :=
  match newTokens with
  | [] => ret newTokenAddresses
  | token :: rest =>
      let tokenAddress := tokenAddress_of token in
      if negb (KV.truthy tokenAddress) then track rest newTokenAddresses
      else
        let address := default "" tokenAddress in
        let* tracked := kv_get address in
        if KV.truthy tracked then track rest newTokenAddresses
        else
          kv_put address "tracked" (Some 86400) ;;;
          track rest (newTokenAddresses ++ [address])
  end.

Definition raydium_url : string := "https://api.raydium.io/v2/main/pairs".

Definition helius_url (env : Bindings) : string :=
  "https://api.helius.xyz/v0/webhooks?api-key=" +:+ HELIUS_API_KEY env.

(** The object given to [JSON.stringify] for Helius; a property that is
    [undefined] is left out. *)
Definition helius_body (env : Bindings) (webhookURL : string)
    (newTokenAddresses : list string) : list (string * jv) :=
  [("webhookURL", JStr webhookURL); ("transactionTypes", JArr [JStr "SWAP"]);
   ("accountAddresses", JArr (map JStr newTokenAddresses));
   ("webhookType", JStr "enhanced")]
  ++ match AUTH_TOKEN (bound env) with
     | Some secret => [("authHeader", JStr secret)]
     | None => []
     end.

(** The handler past the cache: the listing, the marking, the webhook. *)
Definition register (env : Bindings) (webhookURL : string) : M World answer :=
  let* raydiumData :=
    try_catch
      (let* d := fetchWithRetry raydium_url [] MAX_RETRIES in ret (Some d))
      (fun error => ret None) in
  match raydiumData with
  | None => ret (Failed "Failed to fetch Raydium API")
  | Some raydiumData =>
      let* t := Date_now in
      let now := t / 1000 in
      let* pairs := of_result (Object_values json_ops raydiumData) in
      let newTokens := List.filter (launched_recently now) pairs in
      let* newTokenAddresses := track newTokens [] in
      if (length newTokenAddresses =? 0)%nat then ret (Failed "No new tokens found")
      else
        try_catch
          (delay REQUEST_DELAY ;;;
           let* heliusData :=
             fetchWithRetry (helius_url env) (helius_body env webhookURL newTokenAddresses)
               MAX_RETRIES in
           kv_put CACHE_KEY (JSON_stringify json_ops newTokens) (Some CACHE_TTL) ;;;
           ret (Created heliusData newTokens))
          (fun error => ret (Failed "Failed to create webhook"))
  end.

(** [app.post('/create-webhook', ...)]; [origin] is [new URL(c.req.url).origin]. *)
Definition create_webhook (env : Bindings) (origin : string) : M World answer :=
  let webhookURL := origin +:+ "/webhook" in
  let* cachedData := kv_get_json CACHE_KEY in
  match cachedData with
  | Some j => if is_truthy json_ops j then ret (Cached j) else register env webhookURL
  | None => register env webhookURL
  end.

End Registration.

Arguments JSON : clear implicits.
Arguments answer : clear implicits.

End Webhook.

(** * The Telegram signal bot ([src/index.ts]) *)

Module Bot.

Record Env : Type :=
  { TELEGRAM_BOT_TOKEN : string;
    CMC_API_KEY : string }.

Record CacheData (A : Type) : Type := { data : A; lastUpdated : Z }.
Arguments data {A} c.
Arguments lastUpdated {A} c.

Record PriceInfo : Type := { price_per_token : float; total_price : float }.
Record TokenInfo : Type := { supply : float }.

Record HeliusToken : Type :=
  { id : string;
    name : string;
    symbol : string;
    price_info : option PriceInfo;
    token_info : option TokenInfo;
    volume_24h : option float;
    liquidity : option float;
    created_at : string }.

(** The object [checkNewTokens] hands to [sendAlert]; [name], [symbol] and
    [liquidity] are prefixed, being fields of [HeliusToken] too. *)
Record SolanaToken : Type :=
  { address : string;
    token_name : string;
    token_symbol : string;
    priceUsd : float;
    marketCap : float;
    volume24h : float;
    token_liquidity : float;
    timestamp : float }.

Section Program.

(** [J]: parsed JSON; [Quote]: what the CoinMarketCap endpoints return
    ([any]); [Ticker]: an element of the CoinPaprika listing; [Global]:
    the payload of the global slot of the cache. *)
Context {J Quote Ticker Global : Type}.

(** What the JavaScript runtime decides: number and date formatting,
    string conversions, the paths read in untyped payloads (an [Err] is
    the [TypeError] of reading a property of [undefined]), and the two
    formatters of untyped data. *)
Record JS : Type :=
  { toFixed : nat -> float -> string;
    toLocaleString : float -> string;
    toLocaleDateString : float -> string;      (* [new Date(ms).toLocaleDateString()] *)
    Date_getTime : string -> float;            (* [new Date(s).getTime()] *)
    Number_toString : float -> string;         (* [`${n}`] *)
    toUpperCase : string -> string;
    isNaN_Number : string -> bool;             (* [isNaN(Number(s))] *)
    parseInt : string -> float;
    result_items : J -> result (list HeliusToken);   (* [result.items] of [{ result }] *)
    data_symbol_0 : string -> J -> result Quote;     (* [data.data[symbol][0]] *)
    data_0 : J -> result Quote;                      (* [data.data[0]] *)
    as_array : J -> option (list Ticker);            (* [Array.isArray(data)] *)
    formatCMCInfo : Quote -> result string;
    formatCoinPaprikaData : string -> list Ticker -> string }.

(** [let cache = { ticker: {}, coinPaprika: { data: null, lastUpdated: 0 } }] *)
Record Cache : Type :=
  { global : option (CacheData Global);
    ticker : gmap string (CacheData Quote);
    coinPaprika : CacheData (option (list Ticker)) }.

Definition cache_init : Cache :=
  {| global := None; ticker := ∅; coinPaprika := {| data := None; lastUpdated := 0 |} |}.

#[local] Abbreviation World := (World Cache J).

Variable js : JS.

Definition lift {A} (r : result A) : M World A :=
  match r with
  | Ok a => ret a
  | Err e => throw e
  end.

(** *** Sending *)

Definition telegram_url (env : Env) : string :=
  "https://api.telegram.org/bot" +:+ TELEGRAM_BOT_TOKEN env +:+ "/sendMessage".

(** [sendMessage]: both a rejected [fetch] and a refusal of the Telegram
    API are logged; nothing is thrown. *)
Definition sendMessage (chatId : Z) (text : string) (env : Env) : M World unit :=
  try_catch
    (let* response :=
       fetch (telegram_url env)
         [("chat_id", JNum chatId); ("text", JStr text); ("parse_mode", JStr "HTML")] in
     if negb (ok response)
     then emit (EvLog ("Telegram API error: " +:+ body_text response) None)
     else ret tt)
    (fun error => console_error "Failed to send message:" error).

(** Modelled from the spec: [sendTelegramMessage(env, message)] is called
    by [sendAlert], and [src/index.ts] neither defines nor imports a
    function of that name. It stands for the notify capability,
    [send(chatId, text, formatMode) -> success|failure]: the call is
    recorded, and whether it returns or throws is the world's answer. *)
Definition sendTelegramMessage (env : Env) (message : string) : M World unit :=
  emit (EvNotify message) ;;;
  let* r := gets (fun w => notify w (calls w)) in
  modify called ;;;
  match r with
  | Some e => throw e
  | None => ret tt
  end.

Definition LF : string := String "010"%char EmptyString.
Definition DQ : string := String "034"%char EmptyString.

(** The [message] of [sendAlert], given as [trim()] leaves the template. *)
Definition alert_text (token : SolanaToken) : string :=
    "🚨 <b>New Solana Token Alert</b> 🚨" +:+ LF +:+ LF
    +:+ "📈 " +:+ token_name token +:+ " (" +:+ token_symbol token +:+ ")" +:+ LF
    +:+ "💰 Price: $" +:+ toFixed js 6 (priceUsd token) +:+ LF
    +:+ "📊 Market Cap: $" +:+ toLocaleString js (marketCap token) +:+ LF
    +:+ "💧 Liquidity: $" +:+ toLocaleString js (token_liquidity token) +:+ LF
    +:+ "📈 24h Volume: $" +:+ toLocaleString js (volume24h token) +:+ LF
    +:+ "🆕 Created: " +:+ toLocaleDateString js (timestamp token * 1000)%float +:+ LF +:+ LF
    +:+ "🔗 <a href=" +:+ DQ +:+ "https://jup.ag/swap/SOL-" +:+ token_symbol token
    +:+ "_" +:+ address token +:+ DQ +:+ ">Trade on Jupiter</a>" +:+ LF
    +:+ "🔗 <a href=" +:+ DQ +:+ "https://solscan.io/token/" +:+ address token
    +:+ DQ +:+ ">View on Solscan</a>".

Definition sendAlert (env : Env) (token : SolanaToken) : M World unit :=
  let message := alert_text token in
  sendTelegramMessage env message.

(** *** The token poll *)

(** Truthiness of a number that may be [undefined]. *)
Definition truthy (x : option float) : bool :=
  match x with
  | Some v => negb (PrimFloat.is_zero v || PrimFloat.is_nan v)
  | None => false
  end.

(** [x || 0] *)
Definition or_zero (x : option float) : float :=
  match x with
  | Some v => if truthy x then v else 0%float
  | None => 0%float
  end.

(** [token.token_info?.supply && token.price_info?.price_per_token
     ? token.token_info.supply * token.price_info.price_per_token : 0] *)
Definition marketCap_of (token : HeliusToken) : float :=
  match token_info token, price_info token with
  | Some ti, Some pi =>
      if truthy (Some (supply ti)) && truthy (Some (price_per_token pi))
      then (supply ti * price_per_token pi)%float
      else 0%float
  | _, _ => 0%float
  end.

(** The body of the [for (const token of tokens)] loop. *)
Definition check_token (env : Env) (token : HeliusToken) : M World unit :=
  let marketCap := marketCap_of token in
  if PrimFloat.leb 100000%float marketCap then
    let* isTracked := kv_get (id token) in
    if negb (KV.truthy isTracked) then
      sendAlert env
        {| address := id token;
           token_name := name token;
           token_symbol := symbol token;
           priceUsd := or_zero (price_per_token <$> price_info token);
           marketCap := marketCap;
           volume24h := or_zero (volume_24h token);
           token_liquidity := or_zero (liquidity token);
           timestamp := Date_getTime js (created_at token) |} ;;;
      kv_put (id token) "tracked" None
    else ret tt
  else ret tt.

Definition searchAssets : list (string * jv) :=
  [("jsonrpc", JStr "2.0"); ("id", JStr "solana-tracker"); ("method", JStr "searchAssets");
   ("params",
    JObj [("conditionType", JStr "all"); ("conditions", JArr []);
          ("sortBy", JObj [("sortBy", JStr "volume_24h"); ("sortDirection", JStr "desc")]);
          ("limit", JNum 100); ("page", JNum 1)])].

Definition checkNewTokens (env : Env) : M World unit :=
  try_catch
    (let* response := fetch "https://mainnet.helius-rpc.com" searchAssets in
     (if negb (ok response)
      then throw (JsError ("Helius API Error: " +:+ pretty (status response)
                           +:+ " - " +:+ body_text response))
      else ret tt) ;;;
     let* j := response_json response in
     let* tokens := lift (result_items js j) in
     for_of tokens (check_token env))
    (fun error => console_error "Token check error:" error).

(** *** The commands that read through the cache *)

Definition set_ticker (symbol : string) (c : CacheData Quote) (h : Cache) : Cache :=
  {| global := global h; ticker := <[symbol := c]> (ticker h); coinPaprika := coinPaprika h |}.

Definition set_coinPaprika (c : CacheData (option (list Ticker))) (h : Cache) : Cache :=
  {| global := global h; ticker := ticker h; coinPaprika := c |}.

(** [s.split(c)] for a one-character separator. *)
Fixpoint split (c : ascii) (s : string) : list string :=
  match s with
  | EmptyString => [EmptyString]
  | String a s' =>
      if Ascii.eqb a c then EmptyString :: split c s'
      else
        match split c s' with
        | h :: t => String a h :: t
        | [] => [String a EmptyString]
        end
  end.

(** [text.split(' ')[1]], with [None] also for the empty string, which
    is as falsy as [undefined]. *)
Definition second_word (text : string) : option string :=
  match split " "%char text !! 1%nat with
  | Some EmptyString | None => None
  | Some input => Some input
  end.

Definition fetchCMCQuote (symbol apiKey : string) : M World Quote :=
  let* response :=
    fetch ("https://pro-api.coinmarketcap.com/v2/cryptocurrency/quotes/latest?symbol="
           +:+ symbol) [] in
  (if negb (ok response) then throw (JsError "CMC API request failed") else ret tt) ;;;
  let* data := response_json response in
  lift (data_symbol_0 js symbol data).

Definition fetchCMCRanking (rank : float) (apiKey : string) : M World Quote :=
  let* response :=
    fetch ("https://pro-api.coinmarketcap.com/v1/cryptocurrency/listings/latest?start="
           +:+ Number_toString js rank +:+ "&limit=1") [] in
  (if negb (ok response) then throw (JsError "CMC API request failed") else ret tt) ;;;
  let* data := response_json response in
  lift (data_0 js data).

(** [cache.ticker[symbol] && Date.now() - cache.ticker[symbol].lastUpdated < 300000] *)
Definition ticker_fresh (symbol : string) : M World (option (CacheData Quote)) :=
  let* c := gets (fun w => ticker (heap w) !! symbol) in
  match c with
  | Some entry =>
      let* t := Date_now in
      ret (if t - lastUpdated entry <? 300000 then Some entry else None)
  | None => ret None
  end.

Definition handleInfoCommand (text : string) (chatId : Z) (env : Env) : M World unit :=
  match second_word text with
  | None => sendMessage chatId "Please provide a symbol or rank" env
  | Some input =>
      if isNaN_Number js input then
        let symbol := toUpperCase js input in
        let* hit := ticker_fresh symbol in
        match hit with
        | Some entry =>
            let* message := lift (formatCMCInfo js (data entry)) in
            sendMessage chatId message env
        | None =>
            let* data := fetchCMCQuote symbol (CMC_API_KEY env) in
            let* t := Date_now in
            modify (fun w =>
              set_heap (set_ticker symbol {| data := data; lastUpdated := t |} (heap w)) w) ;;;
            let* message := lift (formatCMCInfo js data) in
            sendMessage chatId message env
        end
      else
        let rank := parseInt js input in
        if PrimFloat.ltb rank 1%float
        then sendMessage chatId "Rank must be greater than 0" env
        else
          let* data := fetchCMCRanking rank (CMC_API_KEY env) in
          let* message := lift (formatCMCInfo js data) in
          sendMessage chatId message env
  end.

Definition fetchCoinPaprikaPrices : M World (list Ticker) :=
  try_catch
    (let* response := fetch "https://api.coinpaprika.com/v1/tickers" [] in
     (if negb (ok response)
      then throw (JsError ("CoinPaprika API failed: " +:+ pretty (status response)
                           +:+ " " +:+ body_text response))
      else ret tt) ;;;
     let* data := response_json response in
     match as_array js data with
     | Some tickers => ret tickers
     | None => throw (JsError "Invalid CoinPaprika response format")
     end)
    (fun error =>
       console_error "fetchCoinPaprikaPrices error:" error ;;;
       throw (JsError "Failed to fetch cryptocurrency prices")).

(** [cache.coinPaprika.data && Date.now() - cache.coinPaprika.lastUpdated < 300000];
    the data is [null] or an array, and an array is truthy. *)
Definition coinPaprika_fresh : M World (option (list Ticker)) :=
  let* c := gets (fun w => coinPaprika (heap w)) in
  match data c with
  | Some tickers =>
      let* t := Date_now in
      ret (if t - lastUpdated c <? 300000 then Some tickers else None)
  | None => ret None
  end.

Definition handleTickerCommand (text : string) (chatId : Z) (env : Env) : M World unit :=
  try_catch
    (match second_word text with
     | None => sendMessage chatId "Please provide a search term (e.g., /ticker BTC)" env
     | Some input =>
         let searchTerm := toUpperCase js input in
         let* hit := coinPaprika_fresh in
         match hit with
         | Some tickers =>
             sendMessage chatId (formatCoinPaprikaData js searchTerm tickers) env
         | None =>
             sendMessage chatId "🔄 Fetching tickers data..." env ;;;
             let* tickers := fetchCoinPaprikaPrices in
             let* t := Date_now in
             modify (fun w =>
               set_heap
                 (set_coinPaprika {| data := Some tickers; lastUpdated := t |} (heap w)) w) ;;;
             sendMessage chatId (formatCoinPaprikaData js searchTerm tickers) env
         end
     end)
    (fun error =>
       console_error "handleTickerCommand error:" error ;;;
       sendMessage chatId
         "⚠️ Failed to fetch cryptocurrency data. Please try again later." env).

End Program.

Arguments JS : clear implicits.
Arguments Cache : clear implicits.

(** *** Escaping *)

(** [s.replace(/c/g, replacement)] for a pattern of one character. The
    characters replaced are ASCII, so that the bytes of a string stand for
    its code units. *)
Fixpoint replace_all (c : ascii) (replacement : string) (s : string) : string :=
  match s with
  | EmptyString => EmptyString
  | String a s' =>
      (if Ascii.eqb a c then replacement else String a EmptyString)
      +:+ replace_all c replacement s'
  end.

Definition escapeHtml (unsafe : string) : string :=
  replace_all "'" "&#039;"
    (replace_all "034" "&quot;"
       (replace_all ">" "&gt;"
          (replace_all "<" "&lt;"
             (replace_all "&" "&amp;" unsafe)))).

(** *** The global command and the router *)

(** A message of a Telegram update, as far as the router reads it:
    [message.text] and [message.chat.id]. *)
Record Message : Type :=
  { message_text : option string;
    message_chat : option Z }.

(** [update], with [update.message]. *)
Record Update : Type := { update_message : option Message }.

(** [error.message] *)
Definition message_of (error : exn) : string :=
  match error with
  | JsError message => message
  | NetworkError reason => reason
  | SyntaxError reason => reason
  | ReferenceError name => name +:+ " is not defined"
  end.

(** [startMessage()], as [trim()] leaves the template. *)
Definition startMessage : string :=
  "<b>Crypto Signal Bot</b>" +:+ LF +:+ LF
  +:+ "/info &lt;symbol|rank&gt; - Get coin information" +:+ LF
  +:+ "/global - Overall market overview" +:+ LF
  +:+ "/global &lt;exchange&gt; - Specific exchange data" +:+ LF
  +:+ "/ticker &lt;ticker&gt; - Find crypto prices (CoinPaprika)" +:+ LF +:+ LF
  +:+ "🚨 Automatically tracks new Solana tokens with:" +:+ LF
  +:+ "💰 Market Cap > $100k" +:+ LF
  +:+ "📈 High volume & liquidity" +:+ LF
  +:+ "🚀 Price spikes" +:+ LF +:+ LF
  +:+ "Alerts sent to this channel".

Section Router.

(** [Found]: the first exchange of a search, [searchData.data[0]];
    [ExchangeData]: what [fetchCMCExchangeData] returns. *)
Context {J Quote Ticker Global Found ExchangeData : Type}.

(** What the runtime decides for the global command: conversions, the
    paths read in the untyped payloads (an [Err] is the [TypeError] of
    reading a property of [undefined] or [null]), and the templates. *)
Record Paths : Type :=
  { toLowerCase : string -> string;
    urlencode : string -> string;            (* a value as [URLSearchParams] serialises it *)
    error_message : J -> result string;      (* [`${error.status.error_message}`] *)
    found : J -> result (option Found);      (* [searchData.data?.[0]?.id], truthy *)
    found_id : Found -> string;              (* [`${searchData.data[0].id}`] *)
    normalized : Found -> J -> result ExchangeData;   (* the object of step 6 *)
    formatExchangeData : ExchangeData -> result string;
    global_data : J -> option Global;        (* [data?.data?.quote?.USD], truthy; [data.data] *)
    global_template : Global -> result string }. (* the template of [formatCMCGlobal] *)

#[local] Abbreviation World := (World (@Cache Quote Ticker Global) J).

Variable js : @JS J Quote Ticker.
Variable paths : Paths.

Definition set_global (c : CacheData Global) (h : @Cache Quote Ticker Global)
  : @Cache Quote Ticker Global :=
  {| global := Some c; ticker := ticker h; coinPaprika := coinPaprika h |}.

(** [formatCMCGlobal]: an exception of the template is logged and the
    fixed text returned. *)
Definition formatCMCGlobal (data : Global) : M World string :=
  match global_template paths data with
  | Ok text => ret text
  | Err error =>
      console_error "formatCMCGlobal error:" error ;;;
      ret "Error formatting global market data"
  end.

Definition fetchCMCGlobal (apiKey : string) : M World Global :=
  try_catch
    (let* response :=
       fetch "https://pro-api.coinmarketcap.com/v1/global-metrics/quotes/latest" [] in
     (if negb (ok response)
      then throw (JsError ("CMC Global API failed: " +:+ pretty (status response)))
      else ret tt) ;;;
     let* data := response_json response in
     match global_data paths data with
     | Some d => ret d
     | None => throw (JsError "Invalid CMC Global API response structure")
     end)
    (fun error =>
       console_error "fetchCMCGlobal error:" error ;;;
       throw (JsError "Failed to fetch global market data")).

Definition search_url (query : string) : string :=
  "https://pro-api.coinmarketcap.com/v1/exchange/map?listing_status=active&slug="
  +:+ urlencode paths (toLowerCase paths query).

Definition metrics_url (exchange : Found) : string :=
  "https://pro-api.coinmarketcap.com/v2/exchange/metrics?id=" +:+ found_id paths exchange.

Definition fetchCMCExchangeData (query apiKey : string) : M World ExchangeData :=
  try_catch
    ((if negb (String.prefix "b4" apiKey)
      then throw (JsError "Invalid CoinMarketCap API key format")
      else ret tt) ;;;
     let* searchResponse := fetch (search_url query) [] in
     (if negb (ok searchResponse)
      then
        let* error := response_json searchResponse in
        let* reason := lift (error_message paths error) in
        throw (JsError ("CMC API Error: " +:+ reason))
      else ret tt) ;;;
     let* searchData := response_json searchResponse in
     let* hit := lift (found paths searchData) in
     match hit with
     | None => throw (JsError "Exchange not found in response data")
     | Some exchange =>
         let* metricsResponse := fetch (metrics_url exchange) [] in
         (if negb (ok metricsResponse)
          then
            let* error := response_json metricsResponse in
            let* reason := lift (error_message paths error) in
            throw (JsError ("Metrics API Error: " +:+ reason))
          else ret tt) ;;;
         let* metricsData := response_json metricsResponse in
         lift (normalized paths exchange metricsData)
     end)
    (fun error =>
       console_error "Exchange data fetch error:" error ;;;
       throw (JsError ("Failed to fetch " +:+ query +:+ " data: " +:+ message_of error))).

(** [cache.global && Date.now() - cache.global.lastUpdated < 300000] *)
Definition global_fresh : M World (option (CacheData Global)) :=
  let* c := gets (fun w => global (heap w)) in
  match c with
  | Some entry =>
      let* t := Date_now in
      ret (if t - lastUpdated entry <? 300000 then Some entry else None)
  | None => ret None
  end.

Definition handleGlobalCommand (fullCommand : string) (chatId : Z) (env : Env)
  : M World unit :=
  try_catch
    (match second_word fullCommand with
     | Some exchange =>
         sendMessage chatId ("🔍 Searching for " +:+ exchange +:+ "...") env ;;;
         let* exchangeData := fetchCMCExchangeData exchange (CMC_API_KEY env) in
         let* text := lift (formatExchangeData paths exchangeData) in
         sendMessage chatId text env
     | None =>
         let* hit := global_fresh in
         match hit with
         | Some entry =>
             let* text := formatCMCGlobal (data entry) in
             sendMessage chatId text env
         | None =>
             let* data := fetchCMCGlobal (CMC_API_KEY env) in
             let* t := Date_now in
             modify (fun w =>
               set_heap (set_global {| data := data; lastUpdated := t |} (heap w)) w) ;;;
             let* text := formatCMCGlobal data in
             sendMessage chatId text env
         end
     end)
    (fun error =>
       console_error "handleGlobalCommand error:" error ;;;
       sendMessage chatId
         ("⚠️ Failed to fetch exchange data. Please check the exchange name and try again."
          +:+ LF +:+ "Example: /global binance") env).

(** [handleUpdate]; [update] is an object, and a text is a string. What is
    thrown for a message without [chat] is the [TypeError] of
    [msg.chat.id]. *)
Definition handleUpdate (update : Update) (env : Env) : M World unit :=
  match update_message update with
  | None => ret tt
  | Some msg =>
      match message_text msg with
      | None | Some EmptyString => ret tt
      | Some text =>
          let* chatId :=
            match message_chat msg with
            | Some id => ret id
            | None => throw (JsError "Cannot read properties of undefined (reading 'id')")
            end in
          emit (EvLog ("Processing command: " +:+ text +:+ " from " +:+ pretty chatId) None) ;;;
          if negb (String.prefix "/" text)
          then sendMessage chatId "Unrecognized command. Type /start for help." env
          else
            try_catch
              ((if String.prefix "/start" text
                then
                  emit (EvLog "Handling /start command" None) ;;;
                  sendMessage chatId startMessage env ;;;
                  emit (EvLog "Start message sent" None)
                else ret tt) ;;;
               if String.prefix "/info" text then handleInfoCommand js text chatId env
               else if String.prefix "/global" text then handleGlobalCommand text chatId env
               else if String.prefix "/ticker" text then handleTickerCommand js text chatId env
               else if String.prefix "/alert" text then checkNewTokens js env
               else ret tt)
              (fun error =>
                 console_error "Update handling error:" error ;;;
                 if negb (chatId =? 0)
                 then sendMessage chatId "⚠️ Bot encountered an error. Please try again." env
                 else ret tt)
      end
  end.

End Router.

Arguments Paths : clear implicits.

End Bot.

(** * Facts about JavaScript numbers *)

Section FloatFacts.

Lemma SFcompare_antisym x y :
  SFcompare y x = option_map CompOpp (SFcompare x y).
Proof.
  destruct x as [sx|sx| |sx mx ex], y as [sy|sy| |sy my ey]; cbn;
    try reflexivity; try (now destruct sx); try (now destruct sy);
    try (now destruct sx, sy).
  destruct sx, sy; cbn; try reflexivity.
  - rewrite (Z.compare_antisym ex ey).
    destruct (ex ?= ey)%Z; cbn; try reflexivity.
    now rewrite (Pos.compare_cont_antisym mx my Eq).
  - rewrite (Z.compare_antisym ex ey).
    destruct (ex ?= ey)%Z; cbn; try reflexivity.
    now rewrite (Pos.compare_cont_antisym mx my Eq).
Qed.

(** [x < y] excludes [x >= y]. *)
Lemma ltb_not_geb (x y : float) :
  PrimFloat.ltb x y = true -> PrimFloat.leb y x = false.
Proof.
  rewrite FloatAxioms.ltb_spec, FloatAxioms.leb_spec. unfold SFltb, SFleb.
  rewrite (SFcompare_antisym (Prim2SF x) (Prim2SF y)).
  now destruct (SFcompare (Prim2SF x) (Prim2SF y)) as [[]|].
Qed.

(** A number that is not above zero is at most zero. *)
Lemma not_positive_le_zero (x : float) :
  PrimFloat.is_nan x = false -> PrimFloat.ltb 0 x = false -> PrimFloat.leb x 0 = true.
Proof.
  unfold PrimFloat.is_nan. rewrite FloatAxioms.eqb_spec, FloatAxioms.ltb_spec, FloatAxioms.leb_spec.
  unfold SFeqb, SFltb, SFleb. intros Hn.
  rewrite (SFcompare_antisym (Prim2SF 0) (Prim2SF x)).
  change (Prim2SF 0) with (S754_zero false).
  destruct (Prim2SF x) as [sx|sx| |sx mx ex]; cbn in *;
    try discriminate; try reflexivity; now destruct sx.
Qed.

End FloatFacts.

(** * Facts about the runtime *)

Section RuntimeFacts.

Context {H J : Type}.
Implicit Type w : World H J.

Lemma fetch_rejected url body w reason :
  net w (calls w) = Rejected reason ->
  fetch url body w = ([EvFetch url body], called w, Err (NetworkError reason)).
Proof. intros Hn. unfold fetch, bind, emit, gets, modify. cbn. now rewrite Hn. Qed.

Lemma fetch_responded url body w resp :
  net w (calls w) = Responded resp ->
  fetch url body w = ([EvFetch url body], called w, Ok resp).
Proof. intros Hn. unfold fetch, bind, emit, gets, modify. cbn. now rewrite Hn. Qed.

Lemma delay_run ms w : delay ms w = ([EvDelay ms], elapse ms w, Ok tt).
Proof. reflexivity. Qed.

Lemma kv_get_run key w :
  kv_get key w = ([EvKvGet key], w, Ok (KV.get (now w) (kv w) key)).
Proof. reflexivity. Qed.

Lemma kv_put_run key value ttl w :
  kv_put key value ttl w =
  ([EvKvPut key value ttl], set_kv (KV.put (now w) (kv w) key value ttl) w, Ok tt).
Proof. reflexivity. Qed.

(** A loop over a concatenation runs the first part, then the second. *)
Lemma for_of_app {A} (xs ys : list A) (body : A -> M (World H J) unit) w :
  for_of (xs ++ ys) body w = (for_of xs body ;;; for_of ys body) w.
Proof.
  revert w. induction xs as [|x xs IH]; intros w; cbn [for_of app].
  - unfold bind, ret. now destruct (for_of ys body w) as [[t w'] r].
  - unfold bind. destruct (body x w) as [[t1 w1] [[]|e]]; [|reflexivity].
    rewrite IH. unfold bind.
    destruct (for_of xs body w1) as [[t2 w2] [[]|e2]]; [|reflexivity].
    destruct (for_of ys body w2) as [[t3 w3] r3]. now rewrite app_assoc.
Qed.

(** [later step w w']: [w'] comes after [w] by steps of the worker and by
    drift of what is outside it: time passes, the network changes, the
    store stays. *)
Inductive later (step : World H J -> World H J -> Prop) : World H J -> World H J -> Prop :=
| later_now w : later step w w
| later_step w w1 w2 : later step w w1 -> step w1 w2 -> later step w w2
| later_drift w w1 w2 : later step w w1 -> kv w2 = kv w1 -> now w1 <= now w2 -> later step w w2.

End RuntimeFacts.

Section StoreFacts.

Implicit Type s : gmap string KV.entry.

Lemma live_earlier now now' e : now <= now' -> KV.live now' e = true -> KV.live now e = true.
Proof.
  unfold KV.live. destruct (KV.expiration e) as [t|]; [|reflexivity].
  rewrite !Z.ltb_lt. lia.
Qed.

Lemma lookup_put now s k v ttl :
  KV.put now s k v ttl !! k
  = Some {| KV.value := v; KV.expiration := (fun t => now + t * 1000) <$> ttl |}.
Proof. unfold KV.put. apply lookup_insert_eq. Qed.

Lemma lookup_put_ne now s k k' v ttl : k <> k' -> KV.put now s k v ttl !! k' = s !! k'.
Proof. intros Hne. unfold KV.put. now apply lookup_insert_ne. Qed.

(** A live entry with a value that is not empty is what [get] finds, and
    it is truthy. *)
Lemma get_live now s k e :
  s !! k = Some e -> KV.live now e = true -> KV.value e <> "" ->
  KV.truthy (KV.get now s k) = true.
Proof.
  intros Hk Hl Hv. unfold KV.get. rewrite Hk, Hl. cbn.
  apply negb_true_iff. now apply String.eqb_neq.
Qed.

End StoreFacts.

(** The number of [fetch] calls in a trace. *)
Definition is_fetch (e : event) : bool :=
  match e with
  | EvFetch _ _ => true
  | _ => false
  end.

Definition fetches (t : list event) : nat := length (filter is_fetch t).

Lemma fetches_app (t1 t2 : list event) :
  fetches (t1 ++ t2) = (fetches t1 + fetches t2)%nat.
Proof. unfold fetches. now rewrite filter_app, length_app. Qed.

(** * Facts about the Solana action bot *)

Module WebhookFacts.

Import Webhook.

Section Retry.

Context {J : Type}.
Implicit Type w : World unit J.

(** Why an attempt fails, if it does: the transport, the status, or the
    body. *)
Definition failure (r : reply J) : option exn :=
  match r with
  | Rejected reason => Some (NetworkError reason)
  | Responded resp =>
      if negb (ok resp) then Some (JsError ("HTTP " +:+ pretty (status resp)))
      else
        match json resp with
        | Some _ => None
        | None => Some (SyntaxError "Unexpected token in JSON")
        end
  end.

(** A success status with a body that is no JSON. *)
Definition malformed (r : reply J) : bool :=
  match r with
  | Responded resp => ok resp && bool_decide (json resp = None)
  | Rejected _ => false
  end.

Definition attempt_events (url : string) (options : list (string * jv))
    (i : nat) (e : exn) : list event :=
  [EvFetch url options;
   EvLog ("Fetch error (attempt " +:+ pretty (S i) +:+ "):") (Some e);
   EvDelay RETRY_DELAY].

Definition exhausted (url : string) : exn :=
  JsError ("Failed to fetch " +:+ url +:+ " after 3 retries").

Lemma attempt_fails url options i k w e :
  failure (net w (calls w)) = Some e ->
  fetchWithRetry_loop url options i (S k) w =
  let o := fetchWithRetry_loop url options (S i) k (elapse RETRY_DELAY (called w)) in
  (attempt_events url options i e ++ events o, world o, outcome o).
Proof.
  intros Hf. cbn [fetchWithRetry_loop].
  unfold bind at 1, try_catch, bind at 1.
  destruct (net w (calls w)) as [reason|resp] eqn:Hn; cbn in Hf.
  - rewrite (fetch_rejected _ _ _ _ Hn). injection Hf as <-. cbn.
    now destruct (fetchWithRetry_loop _ _ _ _ _) as [[t w'] r].
  - rewrite (fetch_responded _ _ _ _ Hn).
    destruct (ok resp); cbn in Hf |- *.
    + unfold response_json. destruct (json resp); [discriminate|].
      injection Hf as <-. cbn.
      now destruct (fetchWithRetry_loop _ _ _ _ _) as [[t w'] r].
    + injection Hf as <-.
      now destruct (fetchWithRetry_loop _ _ _ _ _) as [[t w'] r].
Qed.

(** From [Hall], that each attempt left fails, the cause [e] of the first. *)
Ltac first_failure Hall w e Hf :=
  destruct (failure (net w (calls w))) as [e|] eqn:Hf;
  [|exfalso; apply (Hall 0%nat); [lia|now rewrite Nat.add_0_r]].

Lemma attempt_succeeds url options i k w resp j :
  net w (calls w) = Responded resp -> ok resp = true -> json resp = Some j ->
  fetchWithRetry_loop url options i (S k) w = ([EvFetch url options], called w, Ok j).
Proof.
  intros Hn Hok Hj. cbn [fetchWithRetry_loop].
  unfold bind at 1, try_catch, bind at 1.
  rewrite (fetch_responded _ _ _ _ Hn), Hok. cbn.
  unfold response_json. now rewrite Hj.
Qed.

(** When each of the [k] attempts left fails, the loop makes them all and
    throws the same error whatever the causes were. *)
Lemma loop_exhausts url options k : forall i w,
  (forall n, (n < k)%nat -> failure (net w (calls w + n)) <> None) ->
  let o := fetchWithRetry_loop url options i k w in
  outcome o = Err (exhausted url) /\
  fetches (events o) = k /\
  calls (world o) = (calls w + k)%nat.
Proof.
  induction k as [|k IH]; intros i w Hall.
  - cbn. now rewrite Nat.add_0_r.
  - first_failure Hall w e Hf.
    rewrite (attempt_fails _ _ _ _ _ _ Hf). cbn zeta.
    destruct (IH (S i) (elapse RETRY_DELAY (called w))) as (Ho & Hc & Hw).
    { intros n Hn. cbn [elapse called calls net].
      replace (S (calls w) + n)%nat with (calls w + S n)%nat by lia.
      apply Hall. lia. }
    cbn [outcome events world fst snd] in *. split; [exact Ho|]. split.
    + rewrite fetches_app, Hc. reflexivity.
    + rewrite Hw. cbn [elapse called calls]. lia.
Qed.

(** The last of the failed attempts is the last thing logged. *)
Lemma loop_exhausts_last url options k : forall i w,
  (forall n, (n <= k)%nat -> failure (net w (calls w + n)) <> None) ->
  exists t e,
    failure (net w (calls w + k)) = Some e /\
    events (fetchWithRetry_loop url options i (S k) w)
    = t ++ attempt_events url options (i + k) e.
Proof.
  induction k as [|k IH]; intros i w Hall.
  - first_failure Hall w e Hf.
    exists [], e. rewrite !Nat.add_0_r. split; [exact Hf|].
    rewrite (attempt_fails _ _ _ _ _ _ Hf). cbn. reflexivity.
  - first_failure Hall w e Hf.
    destruct (IH (S i) (elapse RETRY_DELAY (called w))) as (t & e' & He' & Ht).
    { intros n Hn. cbn [elapse called calls net].
      replace (S (calls w) + n)%nat with (calls w + S n)%nat by lia.
      apply Hall. lia. }
    cbn [elapse called calls net] in He'.
    replace (S (calls w) + k)%nat with (calls w + S k)%nat in He' by lia.
    exists (attempt_events url options i e ++ t), e'. split; [exact He'|].
    rewrite (attempt_fails _ _ _ _ _ _ Hf). cbn zeta. cbn [events fst].
    rewrite Ht, <- app_assoc. now replace (S i + k)%nat with (i + S k)%nat by lia.
Qed.

(** ** Retry exhaustion *)

(** C3. When each of the three attempts fails (the transport rejects, the
    status is no success, or the body is no JSON), [fetchWithRetry] with
    a budget of 3 makes exactly three [fetch] calls, one after the other,
    each followed by its log line and the retry delay, and then throws:
    it returns no value. *)
Theorem fetchWithRetry_exhaustion url options w :
  (forall n, (n < 3)%nat -> failure (net w (calls w + n)) <> None) ->
  let o := fetchWithRetry url options 3 w in
  outcome o = Err (JsError ("Failed to fetch " +:+ url +:+ " after 3 retries")) /\
  (forall j, outcome o <> Ok j) /\
  fetches (events o) = 3%nat /\
  exists e1 e2 e3,
    events o = attempt_events url options 0 e1 ++ attempt_events url options 1 e2
               ++ attempt_events url options 2 e3.
Proof.
  intros Hall o. subst o. unfold fetchWithRetry.
  destruct (loop_exhausts url options 3 0%nat w Hall) as (Ho & Hc & _).
  split; [exact Ho|]. split; [intros j; rewrite Ho; discriminate|]. split; [exact Hc|].
  assert (H0 := Hall 0%nat). assert (H1 := Hall 1%nat). assert (H2 := Hall 2%nat).
  rewrite Nat.add_0_r in H0.
  destruct (failure (net w (calls w))) as [e1|] eqn:Hf1; [|now exfalso; apply H0; [lia|]].
  destruct (failure (net w (calls w + 1))) as [e2|] eqn:Hf2; [|now exfalso; apply H1; [lia|]].
  destruct (failure (net w (calls w + 2))) as [e3|] eqn:Hf3; [|now exfalso; apply H2; [lia|]].
  exists e1, e2, e3.
  rewrite (attempt_fails _ _ _ _ _ _ Hf1). cbn zeta. cbn [events fst].
  rewrite (attempt_fails _ _ _ _ _ e2). 2:{ cbn [elapse called calls net].
    now replace (S (calls w)) with (calls w + 1)%nat by lia. }
  cbn zeta. cbn [events fst].
  rewrite (attempt_fails _ _ _ _ _ e3). 2:{ cbn [elapse called calls net].
    now replace (S (S (calls w))) with (calls w + 2)%nat by lia. }
  cbn. reflexivity.
Qed.

(** ** A body that is no JSON *)

(** C4, as the code has it. A response with a success status whose body
    is no JSON is handled like every other failed attempt: the
    [SyntaxError] is caught and logged, the retry delay passes, and the
    loop goes on with the next attempt, if the budget has one left. *)
Theorem malformed_response_retried url options i k w :
  malformed (net w (calls w)) = true ->
  fetchWithRetry_loop url options i (S k) w =
  let o := fetchWithRetry_loop url options (S i) k (elapse RETRY_DELAY (called w)) in
  (attempt_events url options i (SyntaxError "Unexpected token in JSON") ++ events o,
   world o, outcome o).
Proof.
  intros Hm. apply attempt_fails.
  destruct (net w (calls w)) as [reason|resp]; [discriminate|]. cbn in Hm |- *.
  apply andb_true_iff in Hm as [-> Hj]. apply bool_decide_eq_true in Hj.
  now rewrite Hj.
Qed.

(** ** What the final failure carries *)

(** C5, as the code has it. When every attempt fails, the error thrown is
    built from the requested URL and the constant [MAX_RETRIES] alone,
    whatever the budget and the causes were; the cause of the last failed
    attempt is in the last log line, not in the error. *)
Theorem exhaustion_carries_url_only url options k w :
  (forall n, (n <= k)%nat -> failure (net w (calls w + n)) <> None) ->
  let o := fetchWithRetry url options (S k) w in
  outcome o = Err (JsError ("Failed to fetch " +:+ url +:+ " after 3 retries")) /\
  exists t e,
    failure (net w (calls w + k)) = Some e /\
    events o = t ++ attempt_events url options k e.
Proof.
  intros Hall o. subst o. unfold fetchWithRetry. split.
  - apply (loop_exhausts url options (S k) 0%nat w). intros n Hn. apply Hall. lia.
  - apply (loop_exhausts_last url options k 0%nat w Hall).
Qed.

End Retry.

Section Handler.

Context {J : Type}.
Implicit Type w : World unit J.

(** Why a send fails, if it does: the transport or the body; the status
    is not looked at. *)
Definition send_failure (r : reply J) : option exn :=
  match r with
  | Rejected reason => Some (NetworkError reason)
  | Responded resp =>
      match json resp with
      | Some _ => None
      | None => Some (SyntaxError "Unexpected token in JSON")
      end
  end.

Definition send_log w : list event :=
  match send_failure (net w (calls w)) with
  | Some e => [EvLog "Error sending Telegram message:" (Some e)]
  | None => []
  end.

(** The alert of a transaction, as the request it is sent with. *)
Definition alert_of (env : Env) (transaction : Transaction) : event :=
  EvFetch (telegram_url env)
    (telegram_body env
       (alert_message
          (default "Unknown Address" (events_swap transaction ≫= tokenAddress)))).

(** A send never throws: it ends after the delay and one [fetch], with a
    log line when that failed. *)
Lemma sendTelegramMessage_run message env w :
  exists r,
    sendTelegramMessage message env w =
    ([EvDelay REQUEST_DELAY; EvFetch (telegram_url env) (telegram_body env message)]
       ++ send_log (elapse REQUEST_DELAY w),
     called (elapse REQUEST_DELAY w), Ok r).
Proof.
  unfold sendTelegramMessage, send_log, send_failure.
  unfold bind at 1. rewrite delay_run. unfold try_catch, bind at 1.
  set (w1 := elapse REQUEST_DELAY w).
  destruct (net w1 (calls w1)) as [reason|resp] eqn:Hn.
  - rewrite (fetch_rejected _ _ _ _ Hn). cbn. eauto.
  - rewrite (fetch_responded _ _ _ _ Hn). unfold response_json.
    destruct (json resp) as [j|]; cbn; eauto.
Qed.

(** The test of the first two [continue]s of the loop. *)
Definition passes_filter (transaction : Transaction) : bool :=
  bool_decide (type transaction = Some "SWAP")
  && bool_decide (platform transaction = Some "Raydium")
  && match events_swap transaction with
     | Some swapEvent => negb (le_zero (inAmount swapEvent))
     | None => false
     end.

Definition seen w (transaction : Transaction) : bool :=
  KV.truthy (KV.get (now w) (kv w) (processed_key transaction)).

Lemma process_filtered env transaction w :
  passes_filter transaction = false ->
  process_transaction env transaction w = ([], w, Ok tt).
Proof.
  unfold passes_filter, process_transaction. intros Hp.
  destruct (decide (type transaction = Some "SWAP")) as [Ht|Ht].
  2:{ rewrite (bool_decide_eq_true_2 _ Ht). reflexivity. }
  destruct (decide (platform transaction = Some "Raydium")) as [Hq|Hq].
  2:{ rewrite (bool_decide_eq_true_2 _ Hq), orb_true_r. reflexivity. }
  rewrite (bool_decide_eq_true_2 _ Ht), (bool_decide_eq_true_2 _ Hq) in Hp.
  rewrite (bool_decide_eq_false_2 (type transaction ≠ Some "SWAP")) by tauto.
  rewrite (bool_decide_eq_false_2 (platform transaction ≠ Some "Raydium")) by tauto.
  cbn in Hp |- *. destruct (events_swap transaction) as [swapEvent|]; [|reflexivity].
  apply negb_false_iff in Hp. now rewrite Hp.
Qed.

Lemma passes_filter_swap transaction :
  passes_filter transaction = true ->
  exists swapEvent,
    events_swap transaction = Some swapEvent /\ le_zero (inAmount swapEvent) = false /\
    bool_decide (type transaction ≠ Some "SWAP")
    || bool_decide (platform transaction ≠ Some "Raydium") = false.
Proof.
  unfold passes_filter. intros Hp.
  apply andb_true_iff in Hp as [Hp Hs]. apply andb_true_iff in Hp as [Ht Hq].
  apply bool_decide_eq_true in Ht, Hq.
  destruct (events_swap transaction) as [swapEvent|]; [|discriminate].
  exists swapEvent. apply negb_true_iff in Hs. repeat split; [exact Hs|].
  rewrite (bool_decide_eq_false_2 (type transaction ≠ Some "SWAP")) by tauto.
  now rewrite (bool_decide_eq_false_2 (platform transaction ≠ Some "Raydium")) by tauto.
Qed.

Lemma process_seen env transaction w :
  passes_filter transaction = true -> seen w transaction = true ->
  process_transaction env transaction w
  = ([EvKvGet (processed_key transaction)], w, Ok tt).
Proof.
  intros Hp Hs. destruct (passes_filter_swap _ Hp) as (swapEvent & Hsw & Hle & Hor).
  unfold process_transaction. rewrite Hor, Hsw, Hle.
  unfold bind. rewrite kv_get_run. unfold seen in Hs. now rewrite Hs.
Qed.

(** The world after the alert of a new transaction: the delay and the
    send have passed, and the marker is written with the clock of then. *)
Definition marked w (transaction : Transaction) : World unit J :=
  let w1 := called (elapse REQUEST_DELAY w) in
  set_kv (KV.put (now w1) (kv w1) (processed_key transaction) "processed" (Some 3600)) w1.

Lemma process_new env transaction w :
  passes_filter transaction = true -> seen w transaction = false ->
  process_transaction env transaction w
  = ([EvKvGet (processed_key transaction); EvDelay REQUEST_DELAY; alert_of env transaction]
       ++ send_log (elapse REQUEST_DELAY w)
       ++ [EvKvPut (processed_key transaction) "processed" (Some 3600)],
     marked w transaction, Ok tt).
Proof.
  intros Hp Hs. destruct (passes_filter_swap _ Hp) as (swapEvent & Hsw & Hle & Hor).
  unfold process_transaction. rewrite Hor, Hsw, Hle.
  unfold bind at 1. rewrite kv_get_run. unfold seen in Hs. rewrite Hs.
  unfold bind.
  destruct (sendTelegramMessage_run
              (alert_message (default "Unknown Address" (tokenAddress swapEvent))) env w)
    as [r ->].
  rewrite kv_put_run. unfold alert_of, marked. rewrite Hsw. cbn.
  reflexivity.
Qed.

(** The loop of the handler never throws. *)
Lemma process_transaction_ok env transaction w :
  outcome (process_transaction env transaction w) = Ok tt.
Proof.
  destruct (passes_filter transaction) eqn:Hp.
  - destruct (seen w transaction) eqn:Hs.
    + now rewrite process_seen.
    + now rewrite process_new.
  - now rewrite process_filtered.
Qed.

Lemma batch_ok env (data : list Transaction) : forall w,
  outcome (for_of data (process_transaction env) w) = Ok tt.
Proof.
  induction data as [|transaction data IH]; intros w; [reflexivity|].
  cbn [for_of]. unfold bind.
  pose proof (process_transaction_ok env transaction w) as Ho.
  destruct (process_transaction env transaction w) as [[t1 w1] r1]. cbn in Ho. subst r1.
  specialize (IH w1). now destruct (for_of data _ w1) as [[t2 w2] r2].
Qed.

(** An authenticated delivery of a batch that is not empty runs the loop
    and answers 200. *)
Lemma webhook_batch env req (data : list Transaction) w :
  authorization req = AUTH_TOKEN env -> body req = Some (Batch data) -> data <> [] ->
  webhook env req w
  = (events (for_of data (process_transaction env) w),
     world (for_of data (process_transaction env) w),
     Ok {| text := "Webhook processed"; code := 200 |}).
Proof.
  intros Ha Hb Hd. unfold webhook.
  rewrite (bool_decide_eq_false_2 (authorization req ≠ AUTH_TOKEN env)) by tauto.
  rewrite Hb. destruct data as [|transaction data]; [contradiction|].
  unfold bind at 1. pose proof (batch_ok env (transaction :: data) w) as Ho.
  destruct (for_of (transaction :: data) _ w) as [[t w'] r]. cbn in Ho. subst r.
  cbn. now rewrite app_nil_r.
Qed.

(** ** Authentication *)

(** C9. A delivery whose [Authorization] header is not the secret is
    answered with 401 before anything else happens: no event at all (no
    read or write of the store, no send), and the world is as it was. *)
Theorem webhook_unauthorized env req w :
  authorization req <> AUTH_TOKEN env ->
  webhook env req w = ([], w, Ok {| text := "Unauthorized"; code := 401 |}).
Proof.
  intros Hne. unfold webhook. now rewrite (bool_decide_eq_true_2 _ Hne).
Qed.

(** ** The event filter *)

(** [x > 0] for a number that may be [undefined]. *)
Definition positive (x : option float) : bool :=
  match x with
  | Some v => PrimFloat.ltb 0 v
  | None => false
  end.

(** C10, as the code has it. A transaction whose type is not SWAP, whose
    platform is not Raydium, which has no swap event, or whose swap event
    has an [inAmount] that is a number and not above zero, is skipped:
    no event, the world as it was; a batch with it runs as the batch
    without it, and so does its authenticated delivery. *)
Theorem unqualified_transaction_skipped env pre transaction post w :
  type transaction <> Some "SWAP" \/
  platform transaction <> Some "Raydium" \/
  events_swap transaction = None \/
  (exists swapEvent x,
      events_swap transaction = Some swapEvent /\ inAmount swapEvent = Some x /\
      PrimFloat.is_nan x = false /\ positive (Some x) = false) ->
  (forall w', process_transaction env transaction w' = ([], w', Ok tt)) /\
  for_of (pre ++ transaction :: post) (process_transaction env) w
  = for_of (pre ++ post) (process_transaction env) w /\
  (forall req,
      authorization req = AUTH_TOKEN env ->
      body req = Some (Batch (pre ++ transaction :: post)) ->
      webhook env req w
      = (events (for_of (pre ++ post) (process_transaction env) w),
         world (for_of (pre ++ post) (process_transaction env) w),
         Ok {| text := "Webhook processed"; code := 200 |})).
Proof.
  intros Hc.
  assert (Hskip : forall w', process_transaction env transaction w' = ([], w', Ok tt)).
  { intros w'. apply process_filtered. unfold passes_filter.
    destruct Hc as [Ht|[Hq|[Hs|(swapEvent & x & Hs & Hx & Hnan & Hpos)]]].
    - now rewrite (bool_decide_eq_false_2 _ Ht).
    - now rewrite (bool_decide_eq_false_2 _ Hq), andb_false_r.
    - rewrite Hs. apply andb_false_r.
    - rewrite Hs, Hx. cbn. rewrite (not_positive_le_zero x Hnan Hpos). apply andb_false_r. }
  assert (Hrun : for_of (pre ++ transaction :: post) (process_transaction env) w
                 = for_of (pre ++ post) (process_transaction env) w).
  { rewrite !for_of_app. unfold bind.
    destruct (for_of pre _ w) as [[t1 w1] [[]|e]]; [|reflexivity].
    cbn [for_of]. unfold bind. rewrite Hskip.
    now destruct (for_of post _ w1) as [[t2 w2] r2]. }
  split; [exact Hskip|]. split; [exact Hrun|].
  intros req Ha Hb. rewrite <- Hrun. apply webhook_batch; [exact Ha|exact Hb|].
  now destruct pre.
Qed.

End Handler.

Section Dedup.

Context {J : Type}.
Implicit Type w : World unit J.

(** One step of the worker: the loop body on some transaction. *)
Definition step (env : Env) w w' : Prop :=
  exists transaction, w' = world (process_transaction env transaction w).

Lemma process_now_mono env transaction w :
  now w <= now (world (process_transaction env transaction w)).
Proof.
  destruct (passes_filter transaction) eqn:Hp.
  - destruct (seen w transaction) eqn:Hs.
    + rewrite process_seen by assumption. cbn. lia.
    + rewrite process_new by assumption. cbn. unfold REQUEST_DELAY. lia.
  - rewrite process_filtered by assumption. cbn. lia.
Qed.

(** Processing a transaction leaves every live marker as it is. *)
Lemma process_keeps_live env transaction w k e :
  kv w !! k = Some e -> KV.live (now w) e = true -> KV.value e <> "" ->
  kv (world (process_transaction env transaction w)) !! k = Some e.
Proof.
  intros Hk Hl Hv.
  destruct (passes_filter transaction) eqn:Hp.
  - destruct (seen w transaction) eqn:Hs.
    + now rewrite process_seen.
    + rewrite process_new by assumption. cbn.
      rewrite lookup_put_ne; [exact Hk|].
      intros <-. unfold seen in Hs. now rewrite (get_live _ _ _ _ Hk Hl Hv) in Hs.
  - now rewrite process_filtered.
Qed.

(** The marker written for a new transaction stays in the store, in every
    later world, for the 3600 s of its life. *)
Lemma marker_kept env transaction w w1 w2 :
  passes_filter transaction = true -> seen w transaction = false ->
  w1 = world (process_transaction env transaction w) ->
  later (step env) w1 w2 ->
  now w2 < now w1 + 3600 * 1000 ->
  kv w2 !! processed_key transaction
  = Some {| KV.value := "processed"; KV.expiration := Some (now w1 + 3600 * 1000) |}.
Proof.
  intros Hp Hs Hw1 Hl.
  induction Hl as [w1|w1 wa wb Hl IH [tx' ->]|w1 wa wb Hl IH Hkv Hnow]; intros Hlt.
  - subst w1. rewrite process_new by assumption. cbn. now rewrite lookup_put.
  - pose proof (process_now_mono env tx' wa) as Hm.
    specialize (IH Hw1).
    apply process_keeps_live; [apply IH; lia| |discriminate].
    cbn. apply Z.ltb_lt. lia.
  - rewrite Hkv. apply IH; [exact Hw1|lia].
Qed.








End Dedup.

(** *** Concrete worlds *)

Definition silent : nat -> option exn := fun _ => None.
Definition instant : nat -> N := fun _ => 0%N.

Definition world_of (net : nat -> reply nat) : World unit nat :=
  {| heap := tt; kv := ∅; now := 0; calls := 0; net := net;
     notify := silent; latency := instant |}.

(** The upstream cannot be reached. *)
Definition unreachable : World unit nat := world_of (fun _ => Rejected "connection refused").

(** The upstream answers 200 with a body that is no JSON. *)
Definition garbled : World unit nat :=
  world_of (fun _ => Responded {| ok := true; status := 200; body_text := "<html>"; json := None |}).

(** The first answer is no JSON, the second is the payload [7]. *)
Definition garbled_once : World unit nat :=
  world_of (fun n =>
    match n with
    | O => Responded {| ok := true; status := 200; body_text := "<html>"; json := None |}
    | _ => Responded {| ok := true; status := 200; body_text := "7"; json := Some 7%nat |}
    end).

Lemma fetchWithRetry_exhaustion_witness :
  let o := fetchWithRetry "https://api.raydium.io/v2/main/pairs" [] 3 unreachable in
  outcome o
  = Err (JsError "Failed to fetch https://api.raydium.io/v2/main/pairs after 3 retries") /\
  (forall j, outcome o <> Ok j) /\
  fetches (events o) = 3%nat /\
  exists e1 e2 e3,
    events o
    = attempt_events "https://api.raydium.io/v2/main/pairs" [] 0 e1
      ++ attempt_events "https://api.raydium.io/v2/main/pairs" [] 1 e2
      ++ attempt_events "https://api.raydium.io/v2/main/pairs" [] 2 e3.
Proof.
  apply (fetchWithRetry_exhaustion "https://api.raydium.io/v2/main/pairs" [] unreachable).
  intros n Hn. cbn. discriminate.
Defined.

(** C4, as the claim has it, fails: the body of the first answer is no
    JSON, and [fetchWithRetry] does not surface that; it makes a second
    attempt and returns its payload. *)
Lemma malformed_response_not_surfaced :
  malformed (net garbled_once (calls garbled_once)) = true /\
  let o := fetchWithRetry "https://api.raydium.io/v2/main/pairs" [] 3 garbled_once in
  outcome o = Ok 7%nat /\ fetches (events o) = 2%nat.
Proof. vm_compute. repeat split. Qed.

Lemma malformed_response_retried_witness :
  fetchWithRetry_loop "u" [] 0 3 garbled_once =
  let o := fetchWithRetry_loop "u" [] 1 2 (elapse RETRY_DELAY (called garbled_once)) in
  (attempt_events "u" [] 0 (SyntaxError "Unexpected token in JSON") ++ events o,
   world o, outcome o).
Proof. apply (malformed_response_retried "u" [] 0 2 garbled_once). reflexivity. Defined.

(** C5, as the claim has it, fails: an upstream that cannot be reached and
    one that answers with a body that is no JSON end in the same error,
    while the causes of their last attempts differ. *)
Lemma exhaustion_hides_cause :
  outcome (fetchWithRetry "https://api.raydium.io/v2/main/pairs" [] 3 unreachable)
  = outcome (fetchWithRetry "https://api.raydium.io/v2/main/pairs" [] 3 garbled) /\
  failure (net unreachable 2) = Some (NetworkError "connection refused") /\
  failure (net garbled 2) = Some (SyntaxError "Unexpected token in JSON").
Proof. vm_compute. repeat split. Qed.

Lemma exhaustion_carries_url_only_witness :
  let o := fetchWithRetry "u" [] 3 garbled in
  outcome o = Err (JsError "Failed to fetch u after 3 retries") /\
  exists t e,
    failure (net garbled (calls garbled + 2)) = Some e /\
    events o = t ++ attempt_events "u" [] 2 e.
Proof.
  apply (exhaustion_carries_url_only "u" [] 2 garbled).
  intros n Hn. cbn. discriminate.
Defined.

(** *** Concrete deliveries *)

Definition env0 : Env :=
  {| AUTH_TOKEN := Some "s3cret"; TELEGRAM_BOT_TOKEN := "123:abc"; TELEGRAM_CHAT_ID := "-1001" |}.

(** A Raydium swap of 2.5 units. *)
Definition swap_of (sig token : string) : Transaction :=
  {| type := Some "SWAP"; platform := Some "Raydium";
     events_swap := Some {| inAmount := Some 2.5%float; tokenAddress := Some token |};
     signature := Some sig |}.

(** A Raydium swap whose event has no [inAmount]. *)
Definition swap_without_amount : Transaction :=
  {| type := Some "SWAP"; platform := Some "Raydium";
     events_swap := Some {| inAmount := None; tokenAddress := Some "So11" |};
     signature := Some "5xK" |}.

(** A transfer. *)
Definition transfer : Transaction :=
  {| type := Some "TRANSFER"; platform := Some "Raydium";
     events_swap := None; signature := Some "9aB" |}.

(** Every send is answered. *)
Definition answering : World unit nat :=
  world_of (fun _ => Responded {| ok := true; status := 200; body_text := "0"; json := Some 0%nat |}).

Lemma webhook_unauthorized_witness :
  webhook env0 {| authorization := Some "wrong"; body := Some (Batch [swap_of "5xK" "So11"]) |}
    answering
  = ([], answering, Ok {| text := "Unauthorized"; code := 401 |}).
Proof.
  apply (webhook_unauthorized env0
           {| authorization := Some "wrong"; body := Some (Batch [swap_of "5xK" "So11"]) |}
           answering).
  cbn. discriminate.
Defined.

(** C10, as the claim has it, fails: the [inAmount] of this swap event is
    not above zero (it is missing), and the transaction is not skipped; the
    alert is sent and the marker written. *)
Lemma missing_amount_not_skipped :
  positive (events_swap swap_without_amount ≫= inAmount) = false /\
  events (webhook env0 {| authorization := Some "s3cret";
                          body := Some (Batch [swap_without_amount]) |} answering)
  = [EvKvGet "processed_txns_5xK"; EvDelay 500; alert_of env0 swap_without_amount;
     EvKvPut "processed_txns_5xK" "processed" (Some 3600)].
Proof. vm_compute. split; reflexivity. Qed.

Lemma unqualified_transaction_skipped_witness :
  (forall w' : World unit nat, process_transaction env0 transfer w' = ([], w', Ok tt)) /\
  for_of ([swap_of "5xK" "So11"] ++ transfer :: [swap_of "7yL" "So12"])
    (process_transaction env0) answering
  = for_of ([swap_of "5xK" "So11"] ++ [swap_of "7yL" "So12"])
      (process_transaction env0) answering /\
  (forall req,
      authorization req = AUTH_TOKEN env0 ->
      body req = Some (Batch ([swap_of "5xK" "So11"] ++ transfer :: [swap_of "7yL" "So12"])) ->
      webhook env0 req answering
      = (events (for_of ([swap_of "5xK" "So11"] ++ [swap_of "7yL" "So12"])
                   (process_transaction env0) answering),
         world (for_of ([swap_of "5xK" "So11"] ++ [swap_of "7yL" "So12"])
                  (process_transaction env0) answering),
         Ok {| text := "Webhook processed"; code := 200 |})).
Proof.
  apply (unqualified_transaction_skipped env0 [swap_of "5xK" "So11"] transfer
           [swap_of "7yL" "So12"] answering).
  left. cbn. discriminate.
Defined.

End WebhookFacts.


(** * Facts about the Telegram signal bot *)

Module BotFacts.

Import Bot.

Section Poll.

Context {J Quote Ticker Global : Type}.
Variable js : JS J Quote Ticker.
#[local] Abbreviation World := (World (Cache Quote Ticker Global) J).
Implicit Type w : World.

(** The threshold test of [checkNewTokens]. *)
Definition gate (token : HeliusToken) : bool :=
  PrimFloat.leb 100000 (marketCap_of token).

Definition tracked w (token : HeliusToken) : bool :=
  KV.truthy (KV.get (now w) (kv w) (id token)).

(** The object handed to [sendAlert] for a token. *)
Definition alerted (token : HeliusToken) : SolanaToken :=
  {| address := id token;
     token_name := name token;
     token_symbol := symbol token;
     priceUsd := or_zero (price_per_token <$> price_info token);
     marketCap := marketCap_of token;
     volume24h := or_zero (volume_24h token);
     token_liquidity := or_zero (liquidity token);
     timestamp := Date_getTime js (created_at token) |}.

Lemma check_token_below env token w :
  gate token = false -> check_token js env token w = ([], w, Ok tt).
Proof. unfold gate, check_token. now intros ->. Qed.

Lemma check_token_tracked env token w :
  gate token = true -> tracked w token = true ->
  check_token js env token w = ([EvKvGet (id token)], w, Ok tt).
Proof.
  unfold gate, tracked, check_token. intros -> Ht.
  unfold bind. rewrite kv_get_run. now rewrite Ht.
Qed.

(** A new token: the lookup, then the alert, then, when the alert has
    returned, the marker; when the alert throws, the loop body throws and
    no marker is written. *)
Lemma check_token_new env token w :
  gate token = true -> tracked w token = false ->
  check_token js env token w =
  match notify w (calls w) with
  | None =>
      ([EvKvGet (id token); EvNotify (alert_text js (alerted token));
        EvKvPut (id token) "tracked" None],
       set_kv (KV.put (now (called w)) (kv w) (id token) "tracked" None) (called w), Ok tt)
  | Some e =>
      ([EvKvGet (id token); EvNotify (alert_text js (alerted token))], called w, Err e)
  end.
Proof.
  unfold gate, tracked, check_token. intros -> Ht.
  unfold bind at 1. rewrite kv_get_run, Ht. cbn [negb].
  unfold bind at 1, sendAlert, sendTelegramMessage, bind, emit, gets, modify. cbn.
  destruct (notify w (calls w)); reflexivity.
Qed.

(** One step of the poll: the loop body on some token. *)
Definition step (env : Env) w w' : Prop :=
  exists token, w' = world (check_token js env token w).



(** ** The threshold gate *)

(** C7. A token whose market cap is below 100000 leaves no event: the store
    is neither read nor written and no alert is sent, and the poll runs as
    if the token were not in the list. A token whose market cap is 100000
    is looked up in the store and, when it is not tracked, the alert is
    dispatched next. *)
Theorem threshold_gate env pre token post w :
  (PrimFloat.ltb (marketCap_of token) 100000 = true ->
   check_token js env token w = ([], w, Ok tt) /\
   for_of (pre ++ token :: post) (check_token js env) w
   = for_of (pre ++ post) (check_token js env) w) /\
  (marketCap_of token = 100000%float ->
   exists rest,
     events (check_token js env token w) = EvKvGet (id token) :: rest /\
     (tracked w token = false ->
      exists rest', rest = EvNotify (alert_text js (alerted token)) :: rest')).
Proof.
  split.
  - intros Hlt. apply ltb_not_geb in Hlt.
    assert (Hskip : forall w', check_token js env token w' = ([], w', Ok tt)).
    { intros w'. now apply check_token_below. }
    split; [apply Hskip|].
    rewrite !for_of_app. unfold bind.
    destruct (for_of pre _ w) as [[t1 w1] [[]|e]]; [|reflexivity].
    cbn [for_of]. unfold bind. rewrite Hskip.
    now destruct (for_of post _ w1) as [[t2 w2] r2].
  - intros Heq.
    assert (Hg : gate token = true) by (unfold gate; now rewrite Heq).
    destruct (tracked w token) eqn:Ht.
    + rewrite check_token_tracked by assumption. exists []. split; [reflexivity|discriminate].
    + rewrite check_token_new by assumption.
      destruct (notify w (calls w)); cbn; eexists; (split; [reflexivity|]); intros _; eauto.
Qed.

End Poll.

Section Cache.

Context {J Quote Ticker Global : Type}.
Variable js : JS J Quote Ticker.
#[local] Abbreviation World := (World (Cache Quote Ticker Global) J).
Implicit Type w : World.

(** A request to an upstream source: any [fetch] that is not a send. *)
Definition is_upstream (e : event) : bool :=
  match e with
  | EvFetch url _ => negb (String.prefix "https://api.telegram.org/" url)
  | _ => false
  end.

Definition upstream_fetches (t : list event) : nat := length (List.filter is_upstream t).

Lemma upstream_fetches_app t1 t2 :
  upstream_fetches (t1 ++ t2) = (upstream_fetches t1 + upstream_fetches t2)%nat.
Proof. unfold upstream_fetches. now rewrite List.filter_app, length_app. Qed.

(** [sendMessage] never throws; it makes one call, to Telegram. *)
Lemma sendMessage_run chatId text env w :
  exists t,
    sendMessage chatId text env w = (t, called w, Ok tt) /\ upstream_fetches t = 0%nat.
Proof.
  unfold sendMessage, try_catch, bind at 1.
  destruct (net w (calls w)) as [reason|resp] eqn:Hn.
  - rewrite (fetch_rejected _ _ _ _ Hn). cbn. eauto.
  - rewrite (fetch_responded _ _ _ _ Hn). destruct (ok resp); cbn; eauto.
Qed.

Definition quote_url (symbol : string) : string :=
  "https://pro-api.coinmarketcap.com/v2/cryptocurrency/quotes/latest?symbol=" +:+ symbol.

(** Closes a goal about what arrived from the fact [Hr] about the result. *)
Ltac by_arrival Hr :=
  let H1 := fresh in let H2 := fresh in let H3 := fresh in let H4 := fresh in
  intros ? ? ? H1 H2 H3 H4; specialize (Hr _ _ _ H1 H2 H3 H4);
  first [discriminate | now injection Hr as <-].

(** [fetchCMCQuote] makes one request; it returns the quote when the
    response is a success, parses, and has the shape read. *)
Lemma fetchCMCQuote_run symbol apiKey w :
  exists r,
    fetchCMCQuote js symbol apiKey w = ([EvFetch (quote_url symbol) []], called w, r) /\
    forall resp j d,
      net w (calls w) = Responded resp -> ok resp = true -> json resp = Some j ->
      data_symbol_0 js symbol j = Ok d -> r = Ok d.
Proof.
  unfold fetchCMCQuote, bind at 1. fold (quote_url symbol).
  destruct (net w (calls w)) as [reason|resp] eqn:Hn.
  - rewrite (fetch_rejected _ _ _ _ Hn). eexists. split; [reflexivity|]. discriminate.
  - rewrite (fetch_responded _ _ _ _ Hn). unfold bind, response_json, lift.
    destruct (ok resp) eqn:Hok; cbn.
    + destruct (json resp) as [j|] eqn:Hj; cbn.
      * destruct (data_symbol_0 js symbol j) as [d|e] eqn:Hd; cbn;
          (eexists; split; [reflexivity|]);
          intros resp' j' d' [= <-] _ Hj' Hd'; congruence.
      * eexists. split; [reflexivity|]. intros resp' j' d' [= <-] _ Hj'. congruence.
    + eexists. split; [reflexivity|]. intros resp' j' d' [= <-] Hok'. congruence.
Qed.

Lemma quote_url_upstream symbol body : is_upstream (EvFetch (quote_url symbol) body) = true.
Proof. reflexivity. Qed.

Definition tickers_url : string := "https://api.coinpaprika.com/v1/tickers".

(** [fetchCoinPaprikaPrices] makes one request; it returns the listing
    when the response is a success, parses, and is an array. *)
Lemma fetchCoinPaprikaPrices_run w :
  exists t r,
    fetchCoinPaprikaPrices js w = (t, called w, r) /\ upstream_fetches t = 1%nat /\
    forall resp j tickers,
      net w (calls w) = Responded resp -> ok resp = true -> json resp = Some j ->
      as_array js j = Some tickers -> r = Ok tickers.
Proof.
  unfold fetchCoinPaprikaPrices, try_catch, bind at 1.
  destruct (net w (calls w)) as [reason|resp] eqn:Hn.
  - rewrite (fetch_rejected _ _ _ _ Hn). cbn. do 2 eexists.
    split; [reflexivity|]. split; [reflexivity|]. discriminate.
  - rewrite (fetch_responded _ _ _ _ Hn). unfold bind, response_json.
    destruct (ok resp) eqn:Hok; cbn.
    + destruct (json resp) as [j|] eqn:Hj; cbn.
      * destruct (as_array js j) as [tickers|] eqn:Ha; cbn;
          (do 2 eexists; split; [reflexivity|]; split; [reflexivity|]);
          intros resp' j' d' [= <-] _ Hj' Hd'; congruence.
      * do 2 eexists. split; [reflexivity|]. split; [reflexivity|].
        intros resp' j' d' [= <-] _ Hj'. congruence.
    + do 2 eexists. split; [reflexivity|]. split; [reflexivity|].
      intros resp' j' d' [= <-] Hok'. congruence.
Qed.

Lemma ticker_fresh_hit symbol entry w :
  ticker (heap w) !! symbol = Some entry -> now w - lastUpdated entry < 300000 ->
  ticker_fresh symbol w = ([], w, Ok (Some entry)).
Proof.
  intros Ht Hlt. unfold ticker_fresh, bind, gets, Date_now, ret. rewrite Ht. cbn.
  now rewrite (proj2 (Z.ltb_lt _ _) Hlt).
Qed.

Lemma ticker_fresh_miss symbol w :
  (forall entry, ticker (heap w) !! symbol = Some entry -> 300000 <= now w - lastUpdated entry) ->
  ticker_fresh symbol w = ([], w, Ok None).
Proof.
  intros Hst. unfold ticker_fresh, bind, gets, Date_now, ret.
  destruct (ticker (heap w) !! symbol) as [entry|] eqn:Ht; [|reflexivity]. cbn.
  specialize (Hst entry eq_refl).
  now rewrite (proj2 (Z.ltb_ge _ _) Hst).
Qed.

(** A fresh entry is answered from the cache. *)
Lemma info_hit text chatId env w input entry :
  second_word text = Some input -> isNaN_Number js input = true ->
  ticker (heap w) !! toUpperCase js input = Some entry ->
  now w - lastUpdated entry < 300000 ->
  exists t w' r,
    handleInfoCommand js text chatId env w = (t, w', r) /\
    upstream_fetches t = 0%nat /\ heap w' = heap w.
Proof.
  intros Hs Hn Ht Hlt. unfold handleInfoCommand. rewrite Hs, Hn.
  unfold bind at 1. rewrite (ticker_fresh_hit _ _ _ Ht Hlt).
  unfold bind, lift. destruct (formatCMCInfo js (data entry)) as [message|e]; cbn.
  - destruct (sendMessage_run chatId message env w) as (t & -> & Hu). cbn. eauto 6.
  - eauto 6.
Qed.

(** Without a fresh entry the quote is fetched, once, and when it has
    arrived it is stored under the clock of then. *)
Lemma info_miss text chatId env w input :
  second_word text = Some input -> isNaN_Number js input = true ->
  (forall entry, ticker (heap w) !! toUpperCase js input = Some entry ->
                 300000 <= now w - lastUpdated entry) ->
  exists t w' r,
    handleInfoCommand js text chatId env w = (t, w', r) /\
    upstream_fetches t = 1%nat /\
    forall resp j d,
      net w (calls w) = Responded resp -> ok resp = true -> json resp = Some j ->
      data_symbol_0 js (toUpperCase js input) j = Ok d ->
      heap w'
      = set_ticker (toUpperCase js input) {| data := d; lastUpdated := now (called w) |} (heap w).
Proof.
  intros Hs Hn Hst. unfold handleInfoCommand. rewrite Hs, Hn.
  unfold bind at 1. rewrite (ticker_fresh_miss _ _ Hst).
  unfold bind at 1.
  destruct (fetchCMCQuote_run (toUpperCase js input) (CMC_API_KEY env) w) as (r & -> & Hr).
  destruct r as [d|e].
  - unfold bind, Date_now, gets, modify, lift. cbn.
    destruct (formatCMCInfo js d) as [message|e]; cbn.
    + match goal with |- context [sendMessage chatId message env ?w'] =>
        destruct (sendMessage_run chatId message env w') as (t & -> & Hu) end.
      do 3 eexists. split; [reflexivity|]. split.
      * change (?a :: ?l) with ([a] ++ l). rewrite !upstream_fetches_app, Hu. reflexivity.
      * by_arrival Hr.
    + do 3 eexists. split; [reflexivity|]. split; [reflexivity|].
      by_arrival Hr.
  - cbn. do 3 eexists. split; [reflexivity|]. split; [reflexivity|].
    by_arrival Hr.
Qed.

Lemma coinPaprika_fresh_hit tickers w :
  data (coinPaprika (heap w)) = Some tickers ->
  now w - lastUpdated (coinPaprika (heap w)) < 300000 ->
  coinPaprika_fresh w = ([], w, Ok (Some tickers)).
Proof.
  intros Hd Hlt. unfold coinPaprika_fresh, bind, gets, Date_now, ret. cbn. rewrite Hd. cbn.
  now rewrite (proj2 (Z.ltb_lt _ _) Hlt).
Qed.

Lemma coinPaprika_fresh_miss w :
  (is_Some (data (coinPaprika (heap w))) ->
   300000 <= now w - lastUpdated (coinPaprika (heap w))) ->
  coinPaprika_fresh w = ([], w, Ok None).
Proof.
  intros Hst. unfold coinPaprika_fresh, bind, gets, Date_now, ret. cbn.
  destruct (data (coinPaprika (heap w))) as [tickers|]; [|reflexivity]. cbn.
  now rewrite (proj2 (Z.ltb_ge _ _) (Hst (mk_is_Some _ _ eq_refl))).
Qed.

(** A fresh listing is answered from the cache. *)
Lemma ticker_hit text chatId env w input tickers :
  second_word text = Some input ->
  data (coinPaprika (heap w)) = Some tickers ->
  now w - lastUpdated (coinPaprika (heap w)) < 300000 ->
  exists t w' r,
    handleTickerCommand js text chatId env w = (t, w', r) /\
    upstream_fetches t = 0%nat /\ heap w' = heap w.
Proof.
  intros Hs Hd Hlt. unfold handleTickerCommand, try_catch. rewrite Hs.
  unfold bind at 1. rewrite (coinPaprika_fresh_hit _ _ Hd Hlt).
  match goal with |- context [sendMessage chatId ?m env w] =>
    destruct (sendMessage_run chatId m env w) as (t & -> & Hu) end.
  cbn. eauto 6.
Qed.

(** Without a fresh listing it is fetched, once, after the notice; when it
    has arrived it is stored under the clock of then. *)
Lemma ticker_miss text chatId env w input :
  second_word text = Some input ->
  (is_Some (data (coinPaprika (heap w))) ->
   300000 <= now w - lastUpdated (coinPaprika (heap w))) ->
  exists t w' r,
    handleTickerCommand js text chatId env w = (t, w', r) /\
    upstream_fetches t = 1%nat /\
    forall resp j tickers,
      net w (S (calls w)) = Responded resp -> ok resp = true -> json resp = Some j ->
      as_array js j = Some tickers ->
      heap w'
      = set_coinPaprika {| data := Some tickers; lastUpdated := now (called (called w)) |}
          (heap w).
Proof.
  intros Hs Hst. unfold handleTickerCommand, try_catch. rewrite Hs.
  unfold bind at 1. rewrite (coinPaprika_fresh_miss _ Hst).
  unfold bind at 1.
  destruct (sendMessage_run chatId "🔄 Fetching tickers data..." env w) as (t0 & -> & Hu0).
  unfold bind at 1.
  destruct (fetchCoinPaprikaPrices_run (called w)) as (t1 & r & -> & Hu1 & Hr).
  destruct r as [tickers|e].
  - unfold bind, Date_now, gets, modify. cbn.
    match goal with |- context [sendMessage chatId ?m env ?w'] =>
      destruct (sendMessage_run chatId m env w') as (t2 & -> & Hu2) end.
    do 3 eexists. split; [reflexivity|]. split.
    + rewrite !upstream_fetches_app, Hu0, Hu1, Hu2. reflexivity.
    + by_arrival Hr.
  - unfold bind, console_error, emit. cbn.
    match goal with |- context [sendMessage chatId ?m env ?w'] =>
      destruct (sendMessage_run chatId m env w') as (t2 & -> & Hu2) end.
    do 3 eexists. split; [reflexivity|]. split.
    + rewrite !upstream_fetches_app, Hu0, Hu1.
      unfold upstream_fetches in *. cbn [List.filter is_upstream]. now rewrite Hu2.
    + by_arrival Hr.
Qed.

(** The quote of [symbol] arrives: the next request is answered with a
    success whose body parses and has the shape read. *)
Definition quote_arrives w (symbol : string) (d : Quote) : Prop :=
  exists resp j,
    net w (calls w) = Responded resp /\ ok resp = true /\ json resp = Some j /\
    data_symbol_0 js symbol j = Ok d.

(** The listing arrives: the request after the notice is answered with a
    success whose body parses to an array. *)
Definition listing_arrives w (tickers : list Ticker) : Prop :=
  exists resp j,
    net w (S (calls w)) = Responded resp /\ ok resp = true /\ json resp = Some j /\
    as_array js j = Some tickers.

(** ** Cache freshness *)

(** C6. A read that finds no fresh entry fetches once and stores what
    arrived with [lastUpdated] the clock of the store. A second read of the
    same key less than 300000 ms after that [lastUpdated] fetches nothing
    and leaves the cache as it is, so the two reads make one fetch; a second
    read 300001 ms or more after it fetches again and overwrites the entry
    with the clock of its own store. This holds for the quotes of
    [handleInfoCommand], per symbol, and for the listing of
    [handleTickerCommand]. *)
Theorem cache_freshness_round_trip text chatId env input :
  second_word text = Some input ->
  (forall w w2 d,
      isNaN_Number js input = true ->
      (forall entry, ticker (heap w) !! toUpperCase js input = Some entry ->
                     300000 <= now w - lastUpdated entry) ->
      quote_arrives w (toUpperCase js input) d ->
      let o1 := handleInfoCommand js text chatId env w in
      let o2 := handleInfoCommand js text chatId env w2 in
      heap w2 = heap (world o1) ->
      upstream_fetches (events o1) = 1%nat /\
      ticker (heap (world o1)) !! toUpperCase js input
      = Some {| data := d; lastUpdated := now (called w) |} /\
      (now w2 - now (called w) < 300000 ->
       upstream_fetches (events o2) = 0%nat /\ heap (world o2) = heap w2) /\
      (300001 <= now w2 - now (called w) ->
       upstream_fetches (events o2) = 1%nat /\
       forall d2, quote_arrives w2 (toUpperCase js input) d2 ->
                  ticker (heap (world o2)) !! toUpperCase js input
                  = Some {| data := d2; lastUpdated := now (called w2) |})) /\
  (forall w w2 tickers,
      (is_Some (data (coinPaprika (heap w))) ->
       300000 <= now w - lastUpdated (coinPaprika (heap w))) ->
      listing_arrives w tickers ->
      let o1 := handleTickerCommand js text chatId env w in
      let o2 := handleTickerCommand js text chatId env w2 in
      heap w2 = heap (world o1) ->
      upstream_fetches (events o1) = 1%nat /\
      coinPaprika (heap (world o1))
      = {| data := Some tickers; lastUpdated := now (called (called w)) |} /\
      (now w2 - now (called (called w)) < 300000 ->
       upstream_fetches (events o2) = 0%nat /\ heap (world o2) = heap w2) /\
      (300001 <= now w2 - now (called (called w)) ->
       upstream_fetches (events o2) = 1%nat /\
       forall tickers2, listing_arrives w2 tickers2 ->
                        coinPaprika (heap (world o2))
                        = {| data := Some tickers2;
                             lastUpdated := now (called (called w2)) |})).
Proof.
  intros Hs. split.
  - intros w w2 d Hn Hst (resp & j & Hnet & Hok & Hj & Hd) o1 o2 Hheap.
    destruct (info_miss text chatId env w input Hs Hn Hst) as (t1 & w1 & r1 & Ho1 & Hu1 & Hh1).
    specialize (Hh1 _ _ _ Hnet Hok Hj Hd).
    assert (Hentry : ticker (heap w2) !! toUpperCase js input
                     = Some {| data := d; lastUpdated := now (called w) |}).
    { rewrite Hheap. subst o1. rewrite Ho1. cbn [world fst snd]. rewrite Hh1. cbn.
      apply lookup_insert_eq. }
    subst o1 o2. rewrite Ho1. cbn [events world fst snd].
    split; [exact Hu1|]. split.
    { rewrite Hh1. cbn. apply lookup_insert_eq. }
    split.
    + intros Hlt.
      destruct (info_hit text chatId env w2 input _ Hs Hn Hentry Hlt)
        as (t2 & w2' & r2 & -> & Hu2 & Hh2).
      now split.
    + intros Hge.
      destruct (info_miss text chatId env w2 input Hs Hn) as (t2 & w2' & r2 & -> & Hu2 & Hh2).
      { intros entry. rewrite Hentry. intros [= <-]. cbn [lastUpdated now called] in Hge |- *. lia. }
      split; [exact Hu2|].
      intros d2 (resp2 & j2 & Hnet2 & Hok2 & Hj2 & Hd2). cbn [world fst snd].
      rewrite (Hh2 _ _ _ Hnet2 Hok2 Hj2 Hd2). cbn. apply lookup_insert_eq.
  - intros w w2 tickers Hst (resp & j & Hnet & Hok & Hj & Hd) o1 o2 Hheap.
    destruct (ticker_miss text chatId env w input Hs Hst) as (t1 & w1 & r1 & Ho1 & Hu1 & Hh1).
    specialize (Hh1 _ _ _ Hnet Hok Hj Hd).
    assert (Hentry : coinPaprika (heap w2)
                     = {| data := Some tickers; lastUpdated := now (called (called w)) |}).
    { rewrite Hheap. subst o1. rewrite Ho1. cbn [world fst snd]. now rewrite Hh1. }
    subst o1 o2. rewrite Ho1. cbn [events world fst snd].
    split; [exact Hu1|]. split; [now rewrite Hh1|].
    split.
    + intros Hlt.
      destruct (ticker_hit text chatId env w2 input tickers Hs) as (t2 & w2' & r2 & -> & Hu2 & Hh2).
      { now rewrite Hentry. }
      { now rewrite Hentry. }
      now split.
    + intros Hge.
      destruct (ticker_miss text chatId env w2 input Hs) as (t2 & w2' & r2 & -> & Hu2 & Hh2).
      { rewrite Hentry. cbn [lastUpdated]. lia. }
      split; [exact Hu2|].
      intros d2 (resp2 & j2 & Hnet2 & Hok2 & Hj2 & Hd2). cbn [world fst snd].
      now rewrite (Hh2 _ _ _ Hnet2 Hok2 Hj2 Hd2).
Qed.

End Cache.

(** *** Concrete tokens *)

Definition env0 : Env := {| TELEGRAM_BOT_TOKEN := "123:abc"; CMC_API_KEY := "b4" |}.

(** The number that [99999.99] is read as. *)
Definition just_below : float := 0x1.869ffd70a3d71p+16%float.

(** A token of the given supply at the price of one dollar. *)
Definition token_of (mint : string) (n : float) : HeliusToken :=
  {| id := mint; name := "Token"; symbol := "TKN";
     price_info := Some {| price_per_token := 1; total_price := 1 |};
     token_info := Some {| supply := n |};
     volume_24h := None; liquidity := None; created_at := "2025-01-01" |}.

(** A runtime with fixed answers; every listing of assets holds the tokens
    So12, of market cap 100000, and So13, of market cap 250000. *)
Definition js0 : JS nat string string :=
  {| toFixed := fun _ _ => "0.000000";
     toLocaleString := fun _ => "0";
     toLocaleDateString := fun _ => "1/1/1970";
     Date_getTime := fun _ => 0%float;
     Number_toString := fun _ => "1";
     toUpperCase := fun s => s;
     isNaN_Number := fun _ => true;
     parseInt := fun _ => nan;
     result_items := fun _ => Ok [token_of "So12" 100000; token_of "So13" 250000];
     data_symbol_0 := fun symbol _ => Ok symbol;
     data_0 := fun _ => Ok "BTC";
     as_array := fun _ => Some ["BTC"];
     formatCMCInfo := fun quote => Ok quote;
     formatCoinPaprikaData := fun term _ => term |}.

(** A world with an empty store and cache where every notification returns
    and every request is answered with the payload [0]. *)
Definition quiet : World (Cache string string unit) nat :=
  {| heap := cache_init; kv := ∅; now := 1000000; calls := 0;
     net := fun _ => Responded {| ok := true; status := 200; body_text := "0"; json := Some 0%nat |};
     notify := fun _ => None; latency := fun _ => 7%N |}.

(** The same world, where every notification throws: the identifier
    [sendTelegramMessage] is unbound. *)
Definition unbound : World (Cache string string unit) nat :=
  {| heap := cache_init; kv := ∅; now := 1000000; calls := 0;
     net := net quiet;
     notify := fun _ => Some (ReferenceError "sendTelegramMessage");
     latency := fun _ => 7%N |}.

(** A poll where the alerts return: each of the two tokens is looked up,
    alerted, and marked. *)
Example poll_marks_after_alert :
  let o := checkNewTokens js0 env0 quiet in
  outcome o = Ok tt /\
  events o
  = [EvFetch "https://mainnet.helius-rpc.com" searchAssets;
     EvKvGet "So12"; EvNotify (alert_text js0 (alerted js0 (token_of "So12" 100000)));
     EvKvPut "So12" "tracked" None;
     EvKvGet "So13"; EvNotify (alert_text js0 (alerted js0 (token_of "So13" 250000)));
     EvKvPut "So13" "tracked" None].
Proof. vm_compute. split; reflexivity. Qed.

(** A poll where the alert throws: the exception leaves the loop at the
    first new token, is logged by [checkNewTokens], and no marker is
    written. *)
Example poll_stops_at_failed_alert :
  let o := checkNewTokens js0 env0 unbound in
  outcome o = Ok tt /\
  kv (world o) = ∅ /\
  events o
  = [EvFetch "https://mainnet.helius-rpc.com" searchAssets;
     EvKvGet "So12"; EvNotify (alert_text js0 (alerted js0 (token_of "So12" 100000)));
     EvLog "Token check error:" (Some (ReferenceError "sendTelegramMessage"))].
Proof. vm_compute. repeat split; reflexivity. Qed.

Lemma threshold_gate_witness :
  (check_token js0 env0 (token_of "So11" just_below) quiet = ([], quiet, Ok tt) /\
   for_of ([] ++ token_of "So11" just_below :: [token_of "So12" 100000])
     (check_token js0 env0) quiet
   = for_of ([] ++ [token_of "So12" 100000]) (check_token js0 env0) quiet) /\
  exists rest,
    events (check_token js0 env0 (token_of "So12" 100000) quiet) = EvKvGet "So12" :: rest /\
    (tracked quiet (token_of "So12" 100000) = false ->
     exists rest', rest = EvNotify (alert_text js0 (alerted js0 (token_of "So12" 100000))) :: rest').
Proof.
  split.
  - apply (threshold_gate js0 env0 [] (token_of "So11" just_below) [token_of "So12" 100000] quiet).
    reflexivity.
  - apply (threshold_gate js0 env0 [] (token_of "So12" 100000) [] quiet). reflexivity.
Defined.

(** The first read of the quote of BTC at the start, and a second one a
    second after it. *)
Lemma cache_freshness_round_trip_witness :
  (let o1 := handleInfoCommand js0 "/info btc" 42 env0 quiet in
   let w2 := elapse 1000 (world o1) in
   let o2 := handleInfoCommand js0 "/info btc" 42 env0 w2 in
   upstream_fetches (events o1) = 1%nat /\
   ticker (heap (world o1)) !! "btc" = Some {| data := "btc"; lastUpdated := now (called quiet) |} /\
   (now w2 - now (called quiet) < 300000 ->
    upstream_fetches (events o2) = 0%nat /\ heap (world o2) = heap w2) /\
   (300001 <= now w2 - now (called quiet) ->
    upstream_fetches (events o2) = 1%nat /\
    forall d2, quote_arrives js0 w2 "btc" d2 ->
               ticker (heap (world o2)) !! "btc"
               = Some {| data := d2; lastUpdated := now (called w2) |})) /\
  (let o1 := handleTickerCommand js0 "/ticker btc" 42 env0 quiet in
   let w2 := elapse 1000 (world o1) in
   let o2 := handleTickerCommand js0 "/ticker btc" 42 env0 w2 in
   upstream_fetches (events o1) = 1%nat /\
   coinPaprika (heap (world o1))
   = {| data := Some ["BTC"]; lastUpdated := now (called (called quiet)) |} /\
   (now w2 - now (called (called quiet)) < 300000 ->
    upstream_fetches (events o2) = 0%nat /\ heap (world o2) = heap w2) /\
   (300001 <= now w2 - now (called (called quiet)) ->
    upstream_fetches (events o2) = 1%nat /\
    forall tickers2, listing_arrives js0 w2 tickers2 ->
                     coinPaprika (heap (world o2))
                     = {| data := Some tickers2; lastUpdated := now (called (called w2)) |})).
Proof.
  split.
  - apply (proj1 (cache_freshness_round_trip js0 "/info btc" 42 env0 "btc" eq_refl)).
    + reflexivity.
    + intros entry Hentry. cbn in Hentry. discriminate.
    + eexists _, _. repeat split; reflexivity.
    + reflexivity.
  - apply (proj2 (cache_freshness_round_trip js0 "/ticker btc" 42 env0 "btc" eq_refl)).
    + intros [tickers Hsome]. cbn in Hsome. discriminate.
    + eexists _, _. repeat split; reflexivity.
    + reflexivity.
Defined.

End BotFacts.

(** * The two workers together *)

Section Dispatch.

Import Webhook Bot.

(** ** The order of the alert and the marker *)


(** ** At-most-once marking *)


(** ** Isolation of a failed send *)


End Dispatch.

(** *** Concrete runs *)

Section Runs.

Import Webhook Bot.

Definition tx_A : Transaction := WebhookFacts.swap_of "5xK" "So11".
Definition tx_B : Transaction := WebhookFacts.swap_of "7yL" "So12".
Definition tx_C : Transaction := WebhookFacts.swap_of "9zM" "So13".

(** The second send of history is rejected; every other one is answered. *)
Definition second_send_fails : World unit nat :=
  WebhookFacts.world_of (fun n =>
    match n with
    | 1%nat => Rejected "timeout"
    | _ => Responded {| ok := true; status := 200; body_text := "0"; json := Some 0%nat |}
    end).

Definition delivery (data : list Transaction) : Request :=
  {| authorization := Some "s3cret"; body := Some (Batch data) |}.





(** The scenario in full: the alerts of [tx_A], [tx_B] and [tx_C] are all
    sent, the failure of the second is logged, and the handler answers 200. *)
Example batch_with_failed_send :
  let o := webhook WebhookFacts.env0 (delivery [tx_A; tx_B; tx_C]) second_send_fails in
  outcome o = Ok {| text := "Webhook processed"; code := 200 |} /\
  events o
  = [EvKvGet "processed_txns_5xK"; EvDelay 500; WebhookFacts.alert_of WebhookFacts.env0 tx_A;
     EvKvPut "processed_txns_5xK" "processed" (Some 3600);
     EvKvGet "processed_txns_7yL"; EvDelay 500; WebhookFacts.alert_of WebhookFacts.env0 tx_B;
     EvLog "Error sending Telegram message:" (Some (NetworkError "timeout"));
     EvKvPut "processed_txns_7yL" "processed" (Some 3600);
     EvKvGet "processed_txns_9zM"; EvDelay 500; WebhookFacts.alert_of WebhookFacts.env0 tx_C;
     EvKvPut "processed_txns_9zM" "processed" (Some 3600)].
Proof. vm_compute. split; reflexivity. Qed.

End Runs.


(** * More about the Solana action bot *)

Module WebhookExtra.

Import Webhook WebhookFacts.

Section Retry.

Context {J : Type}.
Implicit Type w : World unit J.

(** The retry delays of a trace. *)
Definition is_retry_delay (e : event) : bool :=
  match e with
  | EvDelay ms => Z.eqb ms RETRY_DELAY
  | _ => false
  end.

Definition retry_delays (t : list event) : nat := length (List.filter is_retry_delay t).

Lemma retry_delays_app t1 t2 :
  retry_delays (t1 ++ t2) = (retry_delays t1 + retry_delays t2)%nat.
Proof. unfold retry_delays. now rewrite List.filter_app, length_app. Qed.

(** An attempt that does not fail is a success response whose body parses. *)
Lemma failure_none (r : reply J) :
  failure r = None -> exists resp j, r = Responded resp /\ ok resp = true /\ json resp = Some j.
Proof.
  destruct r as [reason|resp]; cbn; [discriminate|].
  destruct (ok resp) eqn:Hok; cbn; [|discriminate].
  destruct (json resp) as [j|] eqn:Hj; [|discriminate]. eauto.
Qed.

Lemma loop_first_success url options k : forall i left w resp j,
  (k < left)%nat ->
  (forall n, (n < k)%nat -> failure (net w (calls w + n)) <> None) ->
  net w (calls w + k) = Responded resp -> ok resp = true -> json resp = Some j ->
  let o := fetchWithRetry_loop url options i left w in
  outcome o = Ok j /\ fetches (events o) = S k /\ retry_delays (events o) = k /\
  now (world o) >= now w + RETRY_DELAY * Z.of_nat k.
Proof.
  induction k as [|k IH]; intros i left w resp j Hlt Hall Hn Hok Hj.
  - destruct left as [|left]; [lia|]. rewrite Nat.add_0_r in Hn.
    rewrite (attempt_succeeds _ _ _ _ _ _ _ Hn Hok Hj). cbn [outcome events world fst snd].
    repeat split; try reflexivity. cbn [called now]. lia.
  - destruct left as [|left]; [lia|].
    destruct (failure (net w (calls w))) as [e|] eqn:Hf.
    2:{ exfalso. apply (Hall 0%nat); [lia|now rewrite Nat.add_0_r]. }
    rewrite (attempt_fails _ _ _ _ _ _ Hf). cbn zeta.
    destruct (IH (S i) left (elapse RETRY_DELAY (called w)) resp j) as (Ho & Hc & Hd & Ht);
      try assumption; try lia.
    { intros n Hlt'. cbn [elapse called calls net].
      replace (S (calls w) + n)%nat with (calls w + S n)%nat by lia. apply Hall. lia. }
    { cbn [elapse called calls net].
      now replace (S (calls w) + k)%nat with (calls w + S k)%nat by lia. }
    cbn [outcome events world fst snd] in *. split; [exact Ho|].
    rewrite fetches_app, retry_delays_app, Hc, Hd. repeat split; try reflexivity.
    cbn [elapse called now] in Ht. unfold RETRY_DELAY in *. lia.
Qed.

(** X1. [fetchWithRetry] returns the first success: when the first [k]
    attempts fail and the next one, still within the budget, is a success
    whose body parses to [j], the call returns [j] after exactly [k + 1]
    requests and [k] retry delays, and no earlier than [k] seconds after
    it began. *)
Theorem fetchWithRetry_first_success url options retries k w resp j :
  (k < retries)%nat ->
  (forall n, (n < k)%nat -> failure (net w (calls w + n)) <> None) ->
  net w (calls w + k) = Responded resp -> ok resp = true -> json resp = Some j ->
  let o := fetchWithRetry url options retries w in
  outcome o = Ok j /\ fetches (events o) = S k /\ retry_delays (events o) = k /\
  now (world o) >= now w + 1000 * Z.of_nat k.
Proof. intros. now apply loop_first_success with (resp := resp). Qed.

Lemma loop_outcomes url options left : forall i w,
  let o := fetchWithRetry_loop url options i left w in
  (fetches (events o) <= left)%nat /\
  (forall e, outcome o = Err e ->
     e = JsError ("Failed to fetch " +:+ url +:+ " after 3 retries") /\
     fetches (events o) = left /\
     forall n, (n < left)%nat -> failure (net w (calls w + n)) <> None) /\
  (forall j, outcome o = Ok j ->
     exists k resp,
       (k < left)%nat /\ net w (calls w + k) = Responded resp /\ ok resp = true /\
       json resp = Some j /\ fetches (events o) = S k /\
       forall n, (n < k)%nat -> failure (net w (calls w + n)) <> None).
Proof.
  induction left as [|left IH]; intros i w.
  - cbn. split; [lia|]. split.
    + intros e [= <-]. repeat split. intros n Hn. lia.
    + discriminate.
  - destruct (failure (net w (calls w))) as [e0|] eqn:Hf.
    + rewrite (attempt_fails _ _ _ _ _ _ Hf). cbn zeta.
      destruct (IH (S i) (elapse RETRY_DELAY (called w))) as (Hle & Herr & Hok).
      cbn [outcome events world fst snd] in *.
      rewrite fetches_app. change (fetches (attempt_events url options i e0)) with 1%nat.
      split; [lia|]. split.
      * intros e He. destruct (Herr e He) as (-> & Hc & Hall). split; [reflexivity|].
        split; [lia|]. intros [|n] Hn.
        -- rewrite Nat.add_0_r, Hf. discriminate.
        -- specialize (Hall n ltac:(lia)). cbn [elapse called calls net] in Hall.
           now replace (calls w + S n)%nat with (S (calls w) + n)%nat by lia.
      * intros j Hj. destruct (Hok j Hj) as (k & resp & Hk & Hn & Hko & Hkj & Hc & Hall).
        exists (S k), resp. cbn [elapse called calls net] in Hn.
        replace (S (calls w) + k)%nat with (calls w + S k)%nat in Hn by lia.
        repeat split; try assumption; try lia.
        intros [|n] Hlt.
        -- rewrite Nat.add_0_r, Hf. discriminate.
        -- specialize (Hall n ltac:(lia)). cbn [elapse called calls net] in Hall.
           now replace (calls w + S n)%nat with (S (calls w) + n)%nat by lia.
    + destruct (failure_none _ Hf) as (resp & j & Hn & Hok & Hj).
      rewrite (attempt_succeeds _ _ _ _ _ _ _ Hn Hok Hj). cbn [outcome events world fst snd].
      change (fetches [EvFetch url options]) with 1%nat.
      split; [lia|]. split; [discriminate|].
      intros j' [= <-]. exists 0%nat, resp. rewrite Nat.add_0_r.
      repeat split; try assumption; try lia.
Qed.

(** X2. What [fetchWithRetry] can do, in every world: it never makes more
    requests than its budget; the only error it throws is the exhaustion
    error, and then every attempt of the budget was made and failed; and a
    value it returns is the parsed body of the first attempt that did not
    fail. *)
Theorem fetchWithRetry_outcomes url options retries w :
  let o := fetchWithRetry url options retries w in
  (fetches (events o) <= retries)%nat /\
  (forall e, outcome o = Err e ->
     e = JsError ("Failed to fetch " +:+ url +:+ " after 3 retries") /\
     fetches (events o) = retries /\
     forall n, (n < retries)%nat -> failure (net w (calls w + n)) <> None) /\
  (forall j, outcome o = Ok j ->
     exists k resp,
       (k < retries)%nat /\ net w (calls w + k) = Responded resp /\ ok resp = true /\
       json resp = Some j /\ fetches (events o) = S k /\
       forall n, (n < k)%nat -> failure (net w (calls w + n)) <> None).
Proof. apply loop_outcomes. Qed.

End Retry.

Section Handler.

Context {J : Type}.
Implicit Type w : World unit J.

(** What a send returns: the parsed body of the response, if one arrived
    and parsed. *)
Definition delivered (r : reply J) : option J :=
  match r with
  | Responded resp => json resp
  | Rejected _ => None
  end.

Lemma sendTelegramMessage_eq message env w :
  sendTelegramMessage message env w =
  ([EvDelay REQUEST_DELAY; EvFetch (telegram_url env) (telegram_body env message)]
     ++ send_log (elapse REQUEST_DELAY w),
   called (elapse REQUEST_DELAY w), Ok (delivered (net w (calls w)))).
Proof.
  unfold sendTelegramMessage, send_log, send_failure, delivered.
  unfold bind at 1. rewrite delay_run. unfold try_catch, bind at 1.
  set (w1 := elapse REQUEST_DELAY w).
  change (net w (calls w)) with (net w1 (calls w1)).
  destruct (net w1 (calls w1)) as [reason|resp] eqn:Hn.
  - now rewrite (fetch_rejected _ _ _ _ Hn).
  - rewrite (fetch_responded _ _ _ _ Hn). unfold response_json.
    now destruct (json resp) as [j|].
Qed.

(** X3. A send never throws, and it does not look at the status: a response
    whose body parses is returned as it is, without a log line, even when
    its status is a refusal. Only a rejected transport or a body that is no
    JSON is logged, and then the function returns [undefined]. Either way
    it lasts the request delay and makes one request. *)
Theorem sendTelegramMessage_outcome message env w :
  let o := sendTelegramMessage message env w in
  let sent := [EvDelay REQUEST_DELAY; EvFetch (telegram_url env) (telegram_body env message)] in
  world o = called (elapse REQUEST_DELAY w) /\
  (forall resp j,
      net w (calls w) = Responded resp -> json resp = Some j ->
      outcome o = Ok (Some j) /\ events o = sent) /\
  (forall e,
      send_failure (net w (calls w)) = Some e ->
      outcome o = Ok None /\
      events o = sent ++ [EvLog "Error sending Telegram message:" (Some e)]).
Proof.
  cbn zeta. rewrite sendTelegramMessage_eq. cbn [world outcome events fst snd].
  unfold send_log. change (net (elapse REQUEST_DELAY w) (calls (elapse REQUEST_DELAY w)))
    with (net w (calls w)).
  split; [reflexivity|]. split.
  - intros resp j Hn Hj. rewrite Hn. cbn. now rewrite Hj.
  - intros e He. rewrite He. split; [|reflexivity].
    destruct (net w (calls w)) as [reason|resp]; [reflexivity|]. cbn in He |- *.
    now destruct (json resp).
Qed.


(** What an event of the handler may be: a read or a write of a key of
    processed transactions, the write being the marker with its hour of
    life; a request to Telegram; the request delay; a log line. *)
Definition confined (env : Env) (e : event) : Prop :=
  match e with
  | EvKvGet key => String.prefix "processed_txns_" key = true
  | EvKvPut key value ttl =>
      String.prefix "processed_txns_" key = true /\ value = "processed" /\ ttl = Some 3600
  | EvFetch url _ => url = telegram_url env
  | EvDelay ms => ms = REQUEST_DELAY
  | EvLog _ _ => True
  | EvNotify _ => False
  end.

Lemma processed_key_prefix transaction :
  String.prefix "processed_txns_" (processed_key transaction) = true.
Proof.
  unfold processed_key, PROCESSED_TRANSACTIONS.
  now destruct (signature transaction) as [[|c sig]|].
Qed.

Lemma send_log_confined env w : Forall (confined env) (send_log w).
Proof. unfold send_log. destruct (send_failure _); repeat constructor. Qed.

Lemma process_confined env transaction w :
  Forall (confined env) (events (process_transaction env transaction w)).
Proof.
  destruct (passes_filter transaction) eqn:Hp.
  - destruct (seen w transaction) eqn:Hs.
    + rewrite process_seen by assumption.
      repeat constructor. apply processed_key_prefix.
    + rewrite process_new by assumption. cbn [events fst].
      apply Forall_app. split.
      { repeat constructor. apply processed_key_prefix. }
      apply Forall_app. split; [apply send_log_confined|].
      repeat constructor. apply processed_key_prefix.
  - rewrite process_filtered by assumption. constructor.
Qed.

Lemma batch_confined env (data : list Transaction) : forall w,
  Forall (confined env) (events (for_of data (process_transaction env) w)).
Proof.
  induction data as [|transaction data IH]; intros w; [constructor|].
  cbn [for_of]. unfold bind.
  pose proof (process_confined env transaction w) as H1.
  pose proof (process_transaction_ok env transaction w) as Ho.
  destruct (process_transaction env transaction w) as [[t1 w1] r1].
  cbn [events outcome fst snd] in H1, Ho. subst r1.
  specialize (IH w1). destruct (for_of data _ w1) as [[t2 w2] r2].
  cbn [events fst] in IH |- *. apply Forall_app. now split.
Qed.

(** X5. What the handler never does: whatever is delivered, it reads and
    writes only keys that begin with "processed_txns_", writes only the
    value "processed" with a life of 3600 s, and sends requests to no host
    but the [sendMessage] endpoint of Telegram. *)
Theorem webhook_confined env req w :
  Forall (confined env) (events (webhook env req w)).
Proof.
  unfold webhook.
  destruct (bool_decide (authorization req ≠ AUTH_TOKEN env)); [constructor|].
  destruct (body req) as [[|data]|]; try constructor.
  destruct data as [|transaction data]; [constructor|].
  unfold bind at 1.
  pose proof (batch_confined env (transaction :: data) w) as Hc.
  pose proof (batch_ok env (transaction :: data) w) as Ho.
  destruct (for_of (transaction :: data) _ w) as [[t w'] r].
  cbn [events outcome fst snd] in Hc, Ho. subst r. cbn. now rewrite app_nil_r.
Qed.

(** X6. A failed alert is not sent again. When the send for a new
    transaction fails, the failure is logged and the marker is written all
    the same; so in every later world within the hour of the marker the
    same transaction is only looked up: the alert is lost. *)
Theorem failed_send_not_retried env transaction w e w2 :
  passes_filter transaction = true -> seen w transaction = false ->
  send_failure (net w (calls w)) = Some e ->
  let o := process_transaction env transaction w in
  later (step env) (world o) w2 -> now w2 < now (world o) + 3600 * 1000 ->
  events o
  = [EvKvGet (processed_key transaction); EvDelay REQUEST_DELAY; alert_of env transaction;
     EvLog "Error sending Telegram message:" (Some e);
     EvKvPut (processed_key transaction) "processed" (Some 3600)] /\
  process_transaction env transaction w2 = ([EvKvGet (processed_key transaction)], w2, Ok tt).
Proof.
  intros Hp Hs He o Hl Hlt. split.
  - subst o. rewrite process_new by assumption. cbn [events fst]. unfold send_log.
    change (net (elapse REQUEST_DELAY w) (calls (elapse REQUEST_DELAY w)))
      with (net w (calls w)).
    now rewrite He.
  - pose proof (marker_kept env transaction w _ w2 Hp Hs eq_refl Hl Hlt) as Hk.
    apply process_seen; [exact Hp|]. unfold seen.
    apply (get_live _ _ _ _ Hk); [|discriminate].
    cbn. apply Z.ltb_lt. exact Hlt.
Qed.

(** X7. The marker lives 3600 s and not longer. In worlds with the store
    as the alert left it, the transaction is still seen one millisecond
    before the hour is over, and from the full hour on it is new again: it
    is alerted and marked once more. *)
Theorem marker_expires env transaction w w2 w3 :
  passes_filter transaction = true -> seen w transaction = false ->
  let w1 := world (process_transaction env transaction w) in
  kv w2 = kv w1 -> now w2 = now w1 + 3600 * 1000 - 1 ->
  kv w3 = kv w1 -> now w1 + 3600 * 1000 <= now w3 ->
  seen w2 transaction = true /\
  seen w3 transaction = false /\
  exists log,
    events (process_transaction env transaction w3)
    = [EvKvGet (processed_key transaction); EvDelay REQUEST_DELAY; alert_of env transaction]
      ++ log ++ [EvKvPut (processed_key transaction) "processed" (Some 3600)].
Proof.
  intros Hp Hs w1 Hkv2 Hnow2 Hkv3 Hnow3.
  assert (Hk : kv w1 !! processed_key transaction
               = Some {| KV.value := "processed";
                         KV.expiration := Some (now w1 + 3600 * 1000) |}).
  { subst w1. rewrite process_new by assumption. cbn. now rewrite lookup_put. }
  split.
  - unfold seen. rewrite <- Hkv2 in Hk. apply (get_live _ _ _ _ Hk); [|discriminate].
    cbn. apply Z.ltb_lt. lia.
  - assert (Hs3 : seen w3 transaction = false).
    { unfold seen, KV.get. rewrite Hkv3, Hk. cbn.
      now rewrite (proj2 (Z.ltb_ge _ _) Hnow3). }
    split; [exact Hs3|]. exists (send_log (elapse REQUEST_DELAY w3)).
    now rewrite process_new by assumption.
Qed.

Definition is_put (e : event) : bool :=
  match e with
  | EvKvPut _ _ _ => true
  | _ => false
  end.

Definition puts (t : list event) : nat := length (List.filter is_put t).

Lemma puts_app t1 t2 : puts (t1 ++ t2) = (puts t1 + puts t2)%nat.
Proof. unfold puts. now rewrite List.filter_app, length_app. Qed.

Lemma send_log_counts w : fetches (send_log w) = 0%nat /\ puts (send_log w) = 0%nat.
Proof. unfold send_log. now destruct (send_failure _). Qed.

Lemma process_paired env transaction w :
  let o := process_transaction env transaction w in
  puts (events o) = fetches (events o) /\
  now (world o) >= now w + REQUEST_DELAY * Z.of_nat (fetches (events o)).
Proof.
  cbn zeta. destruct (passes_filter transaction) eqn:Hp.
  - destruct (seen w transaction) eqn:Hs.
    + rewrite process_seen by assumption. cbn [events world fst snd].
      change (fetches [EvKvGet (processed_key transaction)]) with 0%nat. split; [reflexivity|lia].
    + rewrite process_new by assumption. cbn [events world fst snd].
      destruct (send_log_counts (elapse REQUEST_DELAY w)) as [Hf Hq].
      rewrite !fetches_app, !puts_app, Hf, Hq. split; [reflexivity|].
      change (fetches [EvKvGet (processed_key transaction); EvDelay REQUEST_DELAY;
                       alert_of env transaction]) with 1%nat.
      change (fetches [EvKvPut (processed_key transaction) "processed" (Some 3600)])
        with 0%nat.
      unfold marked. cbn [set_kv called elapse now]. lia.
  - rewrite process_filtered by assumption. cbn [events world fst snd].
    change (fetches []) with 0%nat. split; [reflexivity|lia].
Qed.

(** X8. Alerts and markers go in pairs, and the sends are paced: in every
    run of the loop the number of markers written is the number of sends,
    failed or not, and the run lasts at least 500 ms for each of them. *)
Theorem alerts_paired_and_paced env (data : list Transaction) : forall w,
  let o := for_of data (process_transaction env) w in
  puts (events o) = fetches (events o) /\
  now (world o) >= now w + 500 * Z.of_nat (fetches (events o)).
Proof.
  induction data as [|transaction data IH]; intros w; cbn zeta.
  - cbn [for_of]. unfold ret. cbn [events world fst snd].
    change (fetches []) with 0%nat. split; [reflexivity|lia].
  - cbn [for_of]. unfold bind.
    destruct (process_paired env transaction w) as [Hp1 Ht1].
    pose proof (process_transaction_ok env transaction w) as Ho.
    destruct (process_transaction env transaction w) as [[t1 w1] r1].
    cbn [events world outcome fst snd] in Hp1, Ht1, Ho. subst r1.
    destruct (IH w1) as [Hp2 Ht2].
    destruct (for_of data _ w1) as [[t2 w2] r2].
    cbn [events world fst snd] in Hp2, Ht2 |- *.
    rewrite fetches_app, puts_app, Hp1, Hp2. split; [reflexivity|].
    unfold REQUEST_DELAY in Ht1. lia.
Qed.

End Handler.

Section Registration.

Context {J : Type}.
Variable ops : JSON J.
Implicit Type w : World unit J.

(** No live marker with a value is stored under [a]. *)
Definition untracked w (a : string) : Prop :=
  KV.truthy (KV.get (now w) (kv w) a) = false.

(** The marker of a pair tracked at the time [t] ms. *)
Definition mark (t : Z) : KV.entry :=
  {| KV.value := "tracked"; KV.expiration := Some (t + 86400 * 1000) |}.

(** An event of the marking loop: a lookup, or the put of a marker. *)
Definition marking (e : event) : Prop :=
  match e with
  | EvKvGet _ => True
  | EvKvPut _ value ttl => value = "tracked" /\ ttl = Some 86400
  | _ => False
  end.

(** What a run of the marking loop from [w] over [tokens] amounts to, when
    it has added [fresh] to the addresses. *)
Record marked_as (tokens : list Pair) w (fresh : list string)
    (t : list event) (w' : World unit J) : Prop :=
  { only_store : w' = set_kv (kv w') w;
    no_duplicate : List.NoDup fresh;
    was_new : forall a, In a fresh ->
      a <> "" /\ untracked w a /\
      (exists token, In token tokens /\ tokenAddress_of token = Some a) /\
      kv w' !! a = Some (mark (now w));
    others_kept : forall k, ~ In k fresh -> kv w' !! k = kv w !! k;
    only_marking : Forall marking t }.

Lemma truthy_address (x : option string) :
  KV.truthy x = true -> exists a, x = Some a /\ a <> "".
Proof.
  destruct x as [a|]; [|discriminate]. cbn. intros Hn. exists a. split; [reflexivity|].
  apply negb_true_iff in Hn. now apply String.eqb_neq.
Qed.

Lemma track_spec (tokens : list Pair) : forall acc w,
  exists fresh t w',
    track tokens acc w = (t, w', Ok (acc ++ fresh)) /\ marked_as tokens w fresh t w'.
Proof.
  induction tokens as [|token rest IH]; intros acc w.
  - exists [], [], w. rewrite app_nil_r. split; [reflexivity|].
    split; try (now constructor); try (intros a []).
    + now destruct w.
  - cbn [track]. cbv zeta. destruct (KV.truthy (tokenAddress_of token)) eqn:Ha; cbn [negb].
    2:{ destruct (IH acc w) as (fresh & t & w' & -> & [H1 H2 H3 H4 H5]).
        exists fresh, t, w'. split; [reflexivity|]. split; try assumption.
        intros a Hin. destruct (H3 a Hin) as (? & ? & (token' & ? & ?) & ?).
        repeat split; try assumption. exists token'. split; [now right|assumption]. }
    destruct (truthy_address _ Ha) as (a & Hsome & Hne). rewrite Hsome.
    change (default "" (Some a)) with a.
    unfold bind at 1. rewrite kv_get_run.
    destruct (KV.truthy (KV.get (now w) (kv w) a)) eqn:Ht; cbv beta iota.
    { destruct (IH acc w) as (fresh & t & w' & -> & [H1 H2 H3 H4 H5]).
      exists fresh, (EvKvGet a :: t), w'. split; [reflexivity|]. split; try assumption.
      - intros a' Hin. destruct (H3 a' Hin) as (? & ? & (token' & ? & ?) & ?).
        repeat split; try assumption. exists token'. split; [now right|assumption].
      - now constructor. }
    unfold bind at 1. rewrite kv_put_run.
    set (w1 := set_kv (KV.put (now w) (kv w) a "tracked" (Some 86400)) w).
    destruct (IH (acc ++ [a]) w1) as (fresh & t & w' & -> & [H1 H2 H3 H4 H5]).
    assert (Hnot : ~ In a fresh).
    { intros Hin. destruct (H3 a Hin) as (_ & Hu & _). unfold untracked in Hu.
      rewrite (get_live (now w1) (kv w1) a (mark (now w))) in Hu; [discriminate| | |].
      - subst w1. cbn. now rewrite lookup_put.
      - subst w1. cbn. apply Z.ltb_lt. lia.
      - discriminate. }
    exists (a :: fresh), (EvKvGet a :: EvKvPut a "tracked" (Some 86400) :: t), w'.
    split; [now rewrite <- app_assoc|]. split.
    + rewrite H1 at 1. now subst w1.
    + now constructor.
    + intros a' [<-|Hin].
      * repeat split; try assumption.
        -- exists token. split; [now left|assumption].
        -- rewrite (H4 a Hnot). subst w1. cbn. now rewrite lookup_put.
      * destruct (H3 a' Hin) as (Hne' & Hu & (token' & Hin' & Haddr) & Hk).
        assert (Hdiff : a <> a') by (intros ->; contradiction).
        repeat split; try assumption.
        -- unfold untracked in *. subst w1. cbn in Hu. unfold KV.get in *.
           now rewrite lookup_put_ne in Hu.
        -- exists token'. split; [now right|assumption].
    + intros k Hk. rewrite H4 by (intros Hin; apply Hk; now right).
      subst w1. cbn. apply lookup_put_ne. intros ->. apply Hk. now left.
    + repeat constructor. exact H5.
Qed.

(** X9. The marking loop adds each address at most once, though the listing
    may name it often; it adds no empty address and none that has a live
    marker; every address it adds is that of a pair of the listing and is
    marked "tracked" for 86400 s from then; no other key of the store
    changes, and nothing but the store. *)
Theorem track_marks_new_addresses (tokens : list Pair) w :
  exists fresh t w',
    track tokens [] w = (t, w', Ok fresh) /\
    w' = set_kv (kv w') w /\
    List.NoDup fresh /\
    (forall a, In a fresh ->
       a <> "" /\ untracked w a /\
       (exists token, In token tokens /\ tokenAddress_of token = Some a) /\
       kv w' !! a = Some (mark (now w))) /\
    (forall k, ~ In k fresh -> kv w' !! k = kv w !! k).
Proof.
  destruct (track_spec tokens [] w) as (fresh & t & w' & Hrun & [H1 H2 H3 H4 H5]).
  exists fresh, t, w'.
  split; [exact Hrun|]. split; [exact H1|]. split; [exact H2|]. split; [exact H3|exact H4].
Qed.


(** What an event of a [fetchWithRetry] for [url] may be: the request asked
    for, a log line, a delay; nothing on the store. *)
Definition asks (url : string) (options : list (string * jv)) (e : event) : Prop :=
  match e with
  | EvFetch u b => u = url /\ b = options
  | EvKvGet _ | EvKvPut _ _ _ | EvNotify _ => False
  | _ => True
  end.

Lemma loop_effects url options left : forall i w,
  let o := fetchWithRetry_loop url options i left w in
  kv (world o) = kv w /\ now w <= now (world o) /\ Forall (asks url options) (events o).
Proof.
  induction left as [|left IH]; intros i w.
  - cbn. split; [reflexivity|]. split; [lia|constructor].
  - destruct (failure (net w (calls w))) as [e0|] eqn:Hf.
    + rewrite (attempt_fails _ _ _ _ _ _ Hf). cbn zeta.
      destruct (IH (S i) (elapse RETRY_DELAY (called w))) as (Hk & Hn & Hev).
      cbn [outcome events world fst snd] in *. split; [exact Hk|]. split.
      * cbn [elapse called now] in Hn. unfold RETRY_DELAY in *. lia.
      * apply Forall_app. split; [|exact Hev]. repeat constructor.
    + destruct (failure_none _ Hf) as (resp & j & Hn & Hok & Hj).
      rewrite (attempt_succeeds _ _ _ _ _ _ _ Hn Hok Hj). cbn [outcome events world fst snd].
      split; [reflexivity|]. split; [cbn; lia|]. repeat constructor.
Qed.

Lemma helius_not_raydium env : helius_url env <> raydium_url.
Proof. unfold helius_url, raydium_url. intros H. cbn in H. discriminate H. Qed.

(** A request of the handler: the listing, or the registration of the
    addresses [fresh]. *)
Definition requests (env : Bindings) (webhookURL : string) (fresh : list string)
    (e : event) : Prop :=
  match e with
  | EvFetch u b =>
      (u = raydium_url /\ b = []) \/
      (u = helius_url env /\ b = helius_body env webhookURL fresh)
  | _ => True
  end.

(** What a run of the handler past the cache amounts to, when the marking
    loop has added [fresh] and left the store [s]. *)
Record settled (env : Bindings) (webhookURL : string) w (fresh : list string)
    (s : gmap string KV.entry) (t : list event) (w' : World unit J)
    (r : result (answer J)) : Prop :=
  { clock : now w <= now w';
    unmarked : forall k, ~ In k fresh -> s !! k = kv w !! k;
    marks : forall k, In k fresh ->
      exists t0, now w <= t0 <= now w' /\
        KV.truthy (KV.get t0 (kv w) k) = false /\ s !! k = Some (mark t0);
    asked : Forall (requests env webhookURL fresh) t;
    answered :
      match r with
      | Ok (Created h toks) =>
          fresh <> [] /\
          kv w' = KV.put (now w') s CACHE_KEY (JSON_stringify ops toks) (Some CACHE_TTL)
      | Ok (Failed m) =>
          kv w' = s /\
          ((m = "Failed to fetch Raydium API" /\ fresh = []) \/
           (m = "No new tokens found" /\ fresh = []) \/
           (m = "Failed to create webhook" /\ fresh <> []))
      | Ok (Cached _) => False
      | Err e => kv w' = s /\ fresh = []
      end }.

Ltac run :=
  cbv beta iota zeta
    delta [bind try_catch ret of_result Date_now gets delay emit modify kv_put kv_get throw].

Lemma asks_requests_raydium env webhookURL fresh t :
  Forall (asks raydium_url []) t -> Forall (requests env webhookURL fresh) t.
Proof.
  intros Ht. eapply Forall_impl; [exact Ht|]. intros [] Ha; cbn in *; try exact I. now left.
Qed.

Lemma asks_requests_helius env webhookURL fresh t :
  Forall (asks (helius_url env) (helius_body env webhookURL fresh)) t ->
  Forall (requests env webhookURL fresh) t.
Proof.
  intros Ht. eapply Forall_impl; [exact Ht|]. intros [] Ha; cbn in *; try exact I. now right.
Qed.

Lemma marking_requests env webhookURL fresh t :
  Forall marking t -> Forall (requests env webhookURL fresh) t.
Proof.
  intros Ht. eapply Forall_impl; [exact Ht|]. intros [] Ha; cbn in *; try exact I. contradiction.
Qed.

(** The requests of a trace put together from those of its parts. *)
Ltac traced :=
  repeat first [apply Forall_app; split | constructor];
  first [now apply asks_requests_raydium | now apply marking_requests
        | now apply asks_requests_helius].

Lemma register_spec env webhookURL w :
  exists fresh s t w' r,
    register ops env webhookURL w = (t, w', r) /\ settled env webhookURL w fresh s t w' r.
Proof.
  unfold register. run. unfold fetchWithRetry.
  destruct (loop_effects raydium_url [] MAX_RETRIES 0 w) as (Hk1 & Hn1 & Hev1).
  destruct (fetchWithRetry_loop raydium_url [] 0 MAX_RETRIES w) as [[t1 w1] [d|e]]; run;
    cbn [world events fst snd] in Hk1, Hn1, Hev1.
  2:{ exists [], (kv w1). do 3 eexists. split; [reflexivity|].
      split; try (now intros k []); try assumption.
      - intros k _. now rewrite Hk1.
      - traced.
      - split; [reflexivity|]. left. now split. }
  destruct (Object_values ops d) as [pairs|e]; run.
  2:{ exists [], (kv w1). do 3 eexists. split; [reflexivity|].
      split; try (now intros k []); try assumption.
      - intros k _. now rewrite Hk1.
      - traced.
      - now split. }
  match goal with |- context [track ?a [] ?ww] =>
    destruct (track_spec a [] ww) as (fresh & t2 & w2 & Hrun & [H1 H2 H3 H4 H5]) end.
  cbn [app] in Hrun. rewrite Hrun. run.
  assert (Hnow2 : now w2 = now w1) by (rewrite H1; reflexivity).
  assert (Hmarks : forall w', now w2 <= now w' -> forall k, In k fresh ->
            exists t0, now w <= t0 <= now w' /\
              KV.truthy (KV.get t0 (kv w) k) = false /\ kv w2 !! k = Some (mark t0)).
  { intros w' Hle k Hin. destruct (H3 k Hin) as (_ & Hu & _ & Hm).
    exists (now w1). split; [lia|]. unfold untracked in Hu. rewrite Hk1 in Hu. now split. }
  assert (Hun : forall k, ~ In k fresh -> kv w2 !! k = kv w !! k).
  { intros k Hk. rewrite <- Hk1. now apply H4. }
  destruct fresh as [|a fresh]; cbn [length Nat.eqb]; run.
  { exists [], (kv w2). do 3 eexists. split; [reflexivity|].
    split; try (now intros k []); try assumption.
    - lia.
    - traced.
    - split; [reflexivity|]. right. left. now split. }
  match goal with |- context [fetchWithRetry_loop ?u ?b 0 ?n ?ww] =>
    destruct (loop_effects u b n 0 ww) as (Hk3 & Hn3 & Hev3);
    destruct (fetchWithRetry_loop u b 0 n ww) as [[t3 w3] [h|e]] end; run;
    cbn [world events fst snd elapse kv now] in Hk3, Hn3, Hev3.
  - exists (a :: fresh), (kv w2). do 3 eexists. split; [reflexivity|].
    unfold REQUEST_DELAY in *. split.
    + cbn [set_kv now]. lia.
    + exact Hun.
    + apply Hmarks. cbn [set_kv now]. lia.
    + traced.
    + split; [discriminate|]. cbn [set_kv kv now]. now rewrite Hk3.
  - exists (a :: fresh), (kv w2). do 3 eexists. split; [reflexivity|].
    unfold REQUEST_DELAY in *. split.
    + lia.
    + exact Hun.
    + apply Hmarks. lia.
    + traced.
    + split; [exact Hk3|]. right. right. now split.
Qed.

(** The handler is the lookup of the cache and, past it, [register]. *)
Lemma create_webhook_run env origin w :
  (exists j, create_webhook ops env origin w = ([EvKvGet CACHE_KEY], w, Ok (Cached j))) \/
  (exists e, create_webhook ops env origin w = ([EvKvGet CACHE_KEY], w, Err e)) \/
  (let o := register ops env (origin +:+ "/webhook") w in
   create_webhook ops env origin w = (EvKvGet CACHE_KEY :: events o, world o, outcome o)).
Proof.
  unfold create_webhook, kv_get_json. run.
  destruct (KV.get (now w) (kv w) CACHE_KEY) as [text|]; run.
  - destruct (JSON_parse ops text) as [j|e]; run.
    + destruct (is_truthy ops j).
      * left. now exists j.
      * right. right. now destruct (register _ _ _ w) as [[t w'] r].
    + right. left. now exists e.
  - right. right. now destruct (register _ _ _ w) as [[t w'] r].
Qed.

Lemma cache_hit env origin w text j :
  KV.get (now w) (kv w) CACHE_KEY = Some text ->
  JSON_parse ops text = Ok j -> is_truthy ops j = true ->
  create_webhook ops env origin w = ([EvKvGet CACHE_KEY], w, Ok (Cached j)).
Proof.
  intros Hg Hp Ht. unfold create_webhook, kv_get_json. run. now rewrite Hg, Hp, Ht.
Qed.

Lemma cache_miss env origin w :
  KV.get (now w) (kv w) CACHE_KEY = None ->
  let o := register ops env (origin +:+ "/webhook") w in
  create_webhook ops env origin w = (EvKvGet CACHE_KEY :: events o, world o, outcome o).
Proof.
  intros Hg. unfold create_webhook, kv_get_json. run. rewrite Hg.
  now destruct (register _ _ _ w) as [[t w'] r].
Qed.

Lemma bind_begins {W A B} (m : M W A) (k : A -> M W B) st e :
  (exists t, events (m st) = e :: t) -> exists t, events (bind m k st) = e :: t.
Proof.
  intros (t & Ht). unfold bind. destruct (m st) as [[t1 st1] [a|e1]]; cbn [events fst] in *.
  - destruct (k a st1) as [[t2 st2] r2]. subst t1. cbn. eauto.
  - eauto.
Qed.

Lemma try_begins {W A} (m : M W A) (handler : exn -> M W A) st e :
  (exists t, events (m st) = e :: t) -> exists t, events (try_catch m handler st) = e :: t.
Proof.
  intros (t & Ht). unfold try_catch. destruct (m st) as [[t1 st1] [a|e1]]; cbn [events fst] in *.
  - eauto.
  - destruct (handler e1 st1) as [[t2 st2] r2]. subst t1. cbn. eauto.
Qed.

(** Past the cache the handler begins with the request for the listing. *)
Lemma register_begins env webhookURL w :
  exists t, events (register ops env webhookURL w) = EvFetch raydium_url [] :: t.
Proof.
  unfold register. apply bind_begins, try_begins, bind_begins.
  unfold fetchWithRetry, MAX_RETRIES.
  destruct (failure (net w (calls w))) as [e0|] eqn:Hf.
  - rewrite (attempt_fails _ _ _ _ _ _ Hf). cbn. eauto.
  - destruct (failure_none _ Hf) as (resp & j & Hn & Hok & Hj).
    rewrite (attempt_succeeds _ _ _ _ _ _ _ Hn Hok Hj). cbn. eauto.
Qed.

(** X10. A registration is cached for 300 s and not longer. After the
    answer with the new webhook, in a world with the store as the call left
    it, the handler answers from the cache alone, with one lookup and no
    request, as long as 300 s have not passed; from then on the entry is
    gone and the handler begins again with the request for the listing. *)
Theorem registration_cached_for_ttl env origin w h toks j w2 w3 :
  let o := create_webhook ops env origin w in
  outcome o = Ok (Created h toks) ->
  JSON_parse ops (JSON_stringify ops toks) = Ok j -> is_truthy ops j = true ->
  kv w2 = kv (world o) -> now w2 < now (world o) + 300 * 1000 ->
  kv w3 = kv (world o) -> now (world o) + 300 * 1000 <= now w3 ->
  create_webhook ops env origin w2 = ([EvKvGet CACHE_KEY], w2, Ok (Cached j)) /\
  exists t,
    events (create_webhook ops env origin w3)
    = EvKvGet CACHE_KEY :: EvFetch raydium_url [] :: t.
Proof.
  intros o Hout Hp Ht Hkv2 Hnow2 Hkv3 Hnow3.
  assert (Hc : kv (world o) !! CACHE_KEY
               = Some {| KV.value := JSON_stringify ops toks;
                         KV.expiration := Some (now (world o) + 300 * 1000) |}).
  { subst o. destruct (create_webhook_run env origin w) as [(j' & Hr)|[(e & Hr)|Hr]];
      rewrite Hr in Hout |- *; cbn [outcome world fst snd] in Hout |- *; try discriminate.
    destruct (register_spec env (origin +:+ "/webhook") w)
      as (fresh & s & t & w' & r & Hreg & [_ _ _ _ Ha]).
    rewrite Hreg in Hout |- *. cbn [outcome world fst snd] in Hout |- *. subst r.
    destruct Ha as [_ ->]. now rewrite lookup_put. }
  split.
  - apply cache_hit with (text := JSON_stringify ops toks); try assumption.
    unfold KV.get. rewrite Hkv2, Hc. cbn.
    now rewrite (proj2 (Z.ltb_lt _ _) Hnow2).
  - rewrite cache_miss.
    + destruct (register_begins env (origin +:+ "/webhook") w3) as (t & Hb).
      exists t. cbn [events fst]. now rewrite Hb.
    + unfold KV.get. rewrite Hkv3, Hc. cbn.
      now rewrite (proj2 (Z.ltb_ge _ _) Hnow3).
Qed.

(** X11. What the handler writes, in every world. A key of the store that
    it has changed holds a marker "tracked" that lives 86400 s from a time
    within the call, or it is the key of the cache and the answer is the
    new webhook, the entry being the monitored pairs with a life of 300 s.
    The answers from the cache, that the listing could not be fetched and
    that there are no new tokens leave the store as it was, and so does an
    exception. *)
Theorem create_webhook_writes env origin w :
  let o := create_webhook ops env origin w in
  (forall k, kv (world o) !! k <> kv w !! k ->
     (exists t0, now w <= t0 <= now (world o) /\ kv (world o) !! k = Some (mark t0)) \/
     (k = CACHE_KEY /\ exists h toks,
        outcome o = Ok (Created h toks) /\
        kv (world o) !! k
        = Some {| KV.value := JSON_stringify ops toks;
                  KV.expiration := Some (now (world o) + 300 * 1000) |})) /\
  (forall a, outcome o = Ok a ->
     match a with
     | Cached _ => events o = [EvKvGet CACHE_KEY] /\ world o = w
     | Failed m =>
         (m = "Failed to fetch Raydium API" \/ m = "No new tokens found" \/
          m = "Failed to create webhook") /\
         (m <> "Failed to create webhook" -> kv (world o) = kv w)
     | Created _ _ => True
     end) /\
  (forall e, outcome o = Err e -> kv (world o) = kv w).
Proof.
  cbn zeta.
  destruct (create_webhook_run env origin w) as [(j' & Hr)|[(e & Hr)|Hr]]; rewrite Hr;
    cbn [outcome world events fst snd].
  - split; [intros k Hk; now contradiction Hk|]. split; [|discriminate].
    intros a [= <-]. now split.
  - split; [intros k Hk; now contradiction Hk|]. split; [discriminate|]. reflexivity.
  - clear Hr.
    destruct (register_spec env (origin +:+ "/webhook") w)
      as (fresh & s & t & w' & r & Hreg & [Hclock Hun Hmarks _ Ha]).
    rewrite Hreg. cbn [outcome world events fst snd].
    assert (Hsame : fresh = [] -> s = kv w).
    { intros ->. apply map_eq. intros k. apply Hun. intros []. }
    assert (Hs : forall k, s !! k <> kv w !! k ->
              exists t0, now w <= t0 <= now w' /\ s !! k = Some (mark t0)).
    { intros k Hk. destruct (in_dec string_dec k fresh) as [Hin|Hnin].
      - destruct (Hmarks k Hin) as (t0 & Ht0 & _ & Hm). now exists t0.
      - now contradiction Hk; apply Hun. }
    split; [|split].
    + intros k Hk. destruct r as [[j'|m|h toks]|e].
      * contradiction.
      * destruct Ha as [Hkv _]. rewrite Hkv in Hk |- *. left. now apply Hs.
      * destruct Ha as [_ Hkv]. rewrite Hkv in Hk |- *.
        destruct (string_dec CACHE_KEY k) as [<-|Hne].
        -- right. split; [reflexivity|]. exists h, toks. split; [reflexivity|].
           now rewrite lookup_put.
        -- rewrite lookup_put_ne in Hk |- * by assumption. left. now apply Hs.
      * destruct Ha as [Hkv _]. rewrite Hkv in Hk |- *. left. now apply Hs.
    + intros a [= ->]. destruct a as [j'|m|h toks]; [contradiction| |exact I].
      destruct Ha as [Hkv [[-> Hf]|[[-> Hf]|[-> Hf]]]].
      * split; [now left|]. intros _. rewrite Hkv. now apply Hsame.
      * split; [now right; left|]. intros _. rewrite Hkv. now apply Hsame.
      * split; [now right; right|]. intros Hne. now contradiction Hne.
    + intros e [= ->]. destruct Ha as [Hkv Hf]. rewrite Hkv. now apply Hsame.
Qed.

(** X12. Addresses marked by a failed registration are not offered again.
    When the handler answers that the webhook could not be created, it has
    marked at least one address all the same; and in a call on the store as
    it left it that ends within 24 h of its beginning, a request to Helius
    registers none of the addresses it has marked. *)
Theorem failed_registration_not_offered_again env origin w w2 :
  let o := create_webhook ops env origin w in
  let o2 := create_webhook ops env origin w2 in
  outcome o = Ok (Failed "Failed to create webhook") ->
  kv w2 = kv (world o) -> now (world o2) < now w + 86400 * 1000 ->
  (exists a, kv (world o) !! a <> kv w !! a) /\
  (forall u b, In (EvFetch u b) (events o2) -> u = helius_url env ->
     exists fresh,
       b = helius_body env (origin +:+ "/webhook") fresh /\
       forall a, kv (world o) !! a <> kv w !! a -> ~ In a fresh).
Proof.
  intros o o2 Hout Hkv Hend.
  assert (Hlive : forall t0 t1 s a,
            s !! a = Some (mark t0) -> t1 < t0 + 86400 * 1000 ->
            KV.truthy (KV.get t1 s a) = true).
  { intros t0 t1 s a Hs Hlt. apply (get_live _ _ _ _ Hs); [|discriminate].
    cbn. now apply Z.ltb_lt. }
  assert (H1 : exists fresh s,
            fresh <> [] /\ kv (world o) = s /\
            (forall k, ~ In k fresh -> s !! k = kv w !! k) /\
            (forall k, In k fresh ->
               exists t0, now w <= t0 /\ KV.truthy (KV.get t0 (kv w) k) = false /\
                 s !! k = Some (mark t0))).
  { subst o. destruct (create_webhook_run env origin w) as [(j' & Hr)|[(e & Hr)|Hr]];
      rewrite Hr in Hout |- *; cbn [outcome world fst snd] in Hout |- *; try discriminate.
    destruct (register_spec env (origin +:+ "/webhook") w)
      as (fresh & s & t & w' & r & Hreg & [_ Hun Hmarks _ Ha]).
    rewrite Hreg in Hout |- *. cbn [outcome world fst snd] in Hout |- *. subst r.
    destruct Ha as [Hs [[[=] _]|[[[=] _]|[_ Hne]]]].
    exists fresh, s. repeat split; try assumption.
    intros k Hin. destruct (Hmarks k Hin) as (t0 & Ht0 & Hu & Hm). exists t0.
    repeat split; try assumption. lia. }
  destruct H1 as (fresh & s & Hne & Hs & Hun & Hmarks). split.
  - destruct fresh as [|a fresh]; [contradiction|]. exists a.
    destruct (Hmarks a (or_introl eq_refl)) as (t0 & _ & Hu & Hm).
    rewrite Hs, Hm. intros Heq. symmetry in Heq.
    rewrite (Hlive t0 t0 _ _ Heq) in Hu; [discriminate|lia].
  - intros u b Hin Hu. subst o2.
    destruct (create_webhook_run env origin w2) as [(j' & Hr)|[(e & Hr)|Hr]];
      rewrite Hr in Hin, Hend; cbn [events world fst snd] in Hin, Hend.
    { destruct Hin as [[=]|[]]. }
    { destruct Hin as [[=]|[]]. }
    destruct Hin as [[=]|Hin].
    destruct (register_spec env (origin +:+ "/webhook") w2)
      as (fresh2 & s2 & t2 & w2' & r2 & Hreg & [_ _ Hmarks2 Hreq _]).
    rewrite Hreg in Hin, Hend. cbn [events world fst snd] in Hin, Hend.
    rewrite List.Forall_forall in Hreq. specialize (Hreq _ Hin). cbn in Hreq.
    destruct Hreq as [[Hray _]|[_ ->]].
    { exfalso. apply (helius_not_raydium env). congruence. }
    exists fresh2. split; [reflexivity|]. intros a Hch Hin2.
    destruct (in_dec string_dec a fresh) as [Hinf|Hnin].
    2:{ apply Hch. rewrite Hs. now apply Hun. }
    destruct (Hmarks a Hinf) as (t0 & Ht0 & _ & Hm).
    destruct (Hmarks2 a Hin2) as (t0' & Ht0' & Hu' & _).
    rewrite Hkv, Hs in Hu'. rewrite (Hlive t0 t0' _ _ Hm) in Hu'; [discriminate|lia].
Qed.

End Registration.

(** *** Concrete runs *)

Lemma fetchWithRetry_first_success_witness :
  let o := fetchWithRetry "https://api.raydium.io/v2/main/pairs" [] 3 garbled_once in
  outcome o = Ok 7%nat /\ fetches (events o) = 2%nat /\ retry_delays (events o) = 1%nat /\
  now (world o) >= now garbled_once + 1000 * Z.of_nat 1.
Proof.
  apply (fetchWithRetry_first_success "https://api.raydium.io/v2/main/pairs" [] 3 1
           garbled_once
           {| ok := true; status := 200; body_text := "7"; json := Some 7%nat |} 7%nat).
  - lia.
  - intros [|n] Hn; [cbn; discriminate|lia].
  - reflexivity.
  - reflexivity.
  - reflexivity.
Defined.

Lemma failed_send_not_retried_witness :
  let w := world_of (fun _ => Rejected "timeout") in
  let o := process_transaction env0 (swap_of "5xK" "So11") w in
  events o
  = [EvKvGet "processed_txns_5xK"; EvDelay REQUEST_DELAY; alert_of env0 (swap_of "5xK" "So11");
     EvLog "Error sending Telegram message:" (Some (NetworkError "timeout"));
     EvKvPut "processed_txns_5xK" "processed" (Some 3600)] /\
  process_transaction env0 (swap_of "5xK" "So11") (elapse 60000 (world o))
  = ([EvKvGet "processed_txns_5xK"], elapse 60000 (world o), Ok tt).
Proof.
  apply (failed_send_not_retried env0 (swap_of "5xK" "So11")
           (world_of (fun _ => Rejected "timeout")) (NetworkError "timeout")).
  - reflexivity.
  - reflexivity.
  - reflexivity.
  - eapply later_drift; [apply later_now|reflexivity|]. cbn. lia.
  - cbn. lia.
Defined.

Lemma marker_expires_witness :
  let w1 := world (process_transaction env0 (swap_of "5xK" "So11") answering) in
  seen (elapse 3599999 w1) (swap_of "5xK" "So11") = true /\
  seen (elapse 3600000 w1) (swap_of "5xK" "So11") = false /\
  exists log,
    events (process_transaction env0 (swap_of "5xK" "So11") (elapse 3600000 w1))
    = [EvKvGet (processed_key (swap_of "5xK" "So11")); EvDelay REQUEST_DELAY;
       alert_of env0 (swap_of "5xK" "So11")]
      ++ log ++ [EvKvPut (processed_key (swap_of "5xK" "So11")) "processed" (Some 3600)].
Proof.
  apply (marker_expires env0 (swap_of "5xK" "So11") answering
           (elapse 3599999
              (world (process_transaction env0 (swap_of "5xK" "So11") answering)))
           (elapse 3600000
              (world (process_transaction env0 (swap_of "5xK" "So11") answering))));
    reflexivity.
Defined.

(** A listing of three pairs launched at second 1, two of them on one
    address. The JSON of these runs is a number: every listing has these
    pairs, the text of an array is its length, and a text parses to its
    own length. *)
Definition pair_of (address : string) : Pair :=
  {| launchTime := Some 1; lpMint := None; market := Some address; baseMint := Some "So00" |}.

Definition ops0 : JSON nat :=
  {| Object_values := fun _ => Ok [pair_of "So11"; pair_of "So11"; pair_of "So12"];
     JSON_stringify := fun toks => pretty (length toks);
     JSON_parse := fun text => Ok (String.length text);
     is_truthy := fun j => negb (j =? 0)%nat |}.

Definition bindings0 : Bindings := {| bound := env0; HELIUS_API_KEY := "k3y" |}.

(** The listing is answered at the calls 0 and 4, nothing else is. *)
Definition helius_down : World unit nat :=
  world_of (fun n =>
    match n with
    | 0%nat | 4%nat =>
        Responded {| ok := true; status := 200; body_text := "{}"; json := Some 0%nat |}
    | _ => Rejected "connection refused"
    end).

Lemma registration_cached_for_ttl_witness :
  let o := create_webhook ops0 bindings0 "https://bot.example" answering in
  create_webhook ops0 bindings0 "https://bot.example" (elapse 299999 (world o))
  = ([EvKvGet CACHE_KEY], elapse 299999 (world o), Ok (Cached 1%nat)) /\
  exists t,
    events (create_webhook ops0 bindings0 "https://bot.example" (elapse 300000 (world o)))
    = EvKvGet CACHE_KEY :: EvFetch raydium_url [] :: t.
Proof.
  apply (registration_cached_for_ttl ops0 bindings0 "https://bot.example" answering 0%nat
           [pair_of "So11"; pair_of "So11"; pair_of "So12"] 1%nat
           (elapse 299999 (world (create_webhook ops0 bindings0 "https://bot.example" answering)))
           (elapse 300000 (world (create_webhook ops0 bindings0 "https://bot.example" answering))));
    reflexivity.
Defined.

Lemma failed_registration_not_offered_again_witness :
  let o := create_webhook ops0 bindings0 "https://bot.example" helius_down in
  let o2 := create_webhook ops0 bindings0 "https://bot.example" (elapse 60000 (world o)) in
  (exists a, kv (world o) !! a <> kv helius_down !! a) /\
  (forall u b, In (EvFetch u b) (events o2) -> u = helius_url bindings0 ->
     exists fresh,
       b = helius_body bindings0 ("https://bot.example" +:+ "/webhook") fresh /\
       forall a, kv (world o) !! a <> kv helius_down !! a -> ~ In a fresh).
Proof.
  apply (failed_registration_not_offered_again ops0 bindings0 "https://bot.example"
           helius_down
           (elapse 60000
              (world (create_webhook ops0 bindings0 "https://bot.example" helius_down))));
    reflexivity.
Defined.


End WebhookExtra.

(** * More about the Telegram signal bot *)

Module BotExtra.

Import Bot BotFacts.

Section Poll.

Context {J Quote Ticker Global : Type}.
Variable js : JS J Quote Ticker.
#[local] Abbreviation World := (World (Cache Quote Ticker Global) J).
Implicit Type w : World.

Definition is_notify (e : event) : bool :=
  match e with
  | EvNotify _ => true
  | _ => false
  end.

Definition notifies (t : list event) : nat := length (List.filter is_notify t).

Definition is_marker (e : event) : bool :=
  match e with
  | EvKvPut _ _ _ => true
  | _ => false
  end.

Definition markers (t : list event) : nat := length (List.filter is_marker t).

Lemma notifies_app t1 t2 : notifies (t1 ++ t2) = (notifies t1 + notifies t2)%nat.
Proof. unfold notifies. now rewrite List.filter_app, length_app. Qed.

Lemma markers_app t1 t2 : markers (t1 ++ t2) = (markers t1 + markers t2)%nat.
Proof. unfold markers. now rewrite List.filter_app, length_app. Qed.

Lemma fetches_cons e t :
  fetches (e :: t) = ((if is_fetch e then 1 else 0) + fetches t)%nat.
Proof. change (e :: t) with ([e] ++ t). rewrite fetches_app. now destruct e. Qed.

Lemma notifies_cons e t :
  notifies (e :: t) = ((if is_notify e then 1 else 0) + notifies t)%nat.
Proof. unfold notifies. cbn [List.filter]. now destruct (is_notify e). Qed.

Lemma markers_cons e t :
  markers (e :: t) = ((if is_marker e then 1 else 0) + markers t)%nat.
Proof. unfold markers. cbn [List.filter]. now destruct (is_marker e). Qed.

Definition helius_rpc : string := "https://mainnet.helius-rpc.com".

(** What the request of the poll comes to: the tokens listed, or the
    exception of the transport, the status, the body or its shape. *)
Definition listing w : result (list HeliusToken) :=
  match net w (calls w) with
  | Rejected reason => Err (NetworkError reason)
  | Responded resp =>
      if ok resp then
        match json resp with
        | Some j => result_items js j
        | None => Err (SyntaxError "Unexpected token in JSON")
        end
      else Err (JsError ("Helius API Error: " +:+ pretty (status resp)
                         +:+ " - " +:+ body_text resp))
  end.

Lemma checkNewTokens_eq env w :
  checkNewTokens js env w =
  match listing w with
  | Ok tokens =>
      let o := for_of tokens (check_token js env) (called w) in
      match outcome o with
      | Ok _ => (EvFetch helius_rpc searchAssets :: events o, world o, Ok tt)
      | Err e =>
          (EvFetch helius_rpc searchAssets :: events o ++ [EvLog "Token check error:" (Some e)],
           world o, Ok tt)
      end
  | Err e =>
      ([EvFetch helius_rpc searchAssets; EvLog "Token check error:" (Some e)], called w, Ok tt)
  end.
Proof.
  unfold checkNewTokens, listing, try_catch, bind at 1.
  destruct (net w (calls w)) as [reason|resp] eqn:Hn.
  - now rewrite (fetch_rejected _ _ _ _ Hn).
  - rewrite (fetch_responded _ _ _ _ Hn). unfold bind at 1.
    destruct (ok resp); cbn [negb]; [|reflexivity].
    unfold ret at 1. unfold bind at 1, response_json.
    destruct (json resp) as [j|]; [|reflexivity].
    unfold ret at 1. unfold bind at 1, lift.
    destruct (result_items js j) as [tokens|e]; [|reflexivity].
    unfold ret at 1. cbn zeta.
    destruct (for_of tokens (check_token js env) (called w)) as [[t w'] [[]|e]]; reflexivity.
Qed.

(** A token leaves its alert and its marker, or neither; or, when the
    alert throws, the alert alone as the last event. *)
Lemma check_token_balance env token w :
  let o := check_token js env token w in
  match outcome o with
  | Ok _ => notifies (events o) = markers (events o)
  | Err _ =>
      notifies (events o) = S (markers (events o)) /\
      exists t message, events o = t ++ [EvNotify message]
  end.
Proof.
  cbn zeta. destruct (gate token) eqn:Hg.
  - destruct (tracked w token) eqn:Ht.
    + now rewrite check_token_tracked.
    + rewrite (check_token_new js) by assumption.
      destruct (notify w (calls w)); cbn [outcome events fst snd]; [|reflexivity].
      split; [reflexivity|]. now exists [EvKvGet (id token)], (alert_text js (alerted js token)).
  - now rewrite check_token_below.
Qed.

Lemma loop_balance env (tokens : list HeliusToken) : forall w,
  let o := for_of tokens (check_token js env) w in
  match outcome o with
  | Ok _ => notifies (events o) = markers (events o)
  | Err _ =>
      notifies (events o) = S (markers (events o)) /\
      exists t message, events o = t ++ [EvNotify message]
  end.
Proof.
  induction tokens as [|token tokens IH]; intros w; cbn zeta; [reflexivity|].
  cbn [for_of]. unfold bind.
  pose proof (check_token_balance env token w) as H1. cbn zeta in H1.
  destruct (check_token js env token w) as [[t1 w1] [[]|e1]]; cbn [outcome events fst snd] in H1.
  - specialize (IH w1). cbn zeta in IH.
    destruct (for_of tokens _ w1) as [[t2 w2] [[]|e2]]; cbn [outcome events fst snd] in IH |- *.
    + rewrite notifies_app, markers_app. lia.
    + destruct IH as (Hc & t & message & ->). split.
      * rewrite notifies_app, markers_app. lia.
      * exists (t1 ++ t), message. now rewrite app_assoc.
  - exact H1.
Qed.

(** X13. The poll never throws and makes one request. Every alert of a
    poll is followed by its marker, but for an alert that throws: that one
    is the last thing the poll does before it logs the exception, no token
    after it is looked at, and it is left without a marker. *)
Theorem poll_contained env w :
  let o := checkNewTokens js env w in
  outcome o = Ok tt /\
  fetches (events o) = 1%nat /\
  (notifies (events o) = markers (events o) \/
   notifies (events o) = S (markers (events o)) /\
   exists t message e,
     events o = t ++ [EvNotify message; EvLog "Token check error:" (Some e)]).
Proof.
  cbn zeta. rewrite checkNewTokens_eq.
  destruct (listing w) as [tokens|e].
  - cbn zeta.
    assert (Hf : forall tokens w', fetches (events (for_of tokens (check_token js env) w')) = 0%nat).
    { clear. intros tokens. induction tokens as [|token tokens IH]; intros w'; [reflexivity|].
      cbn [for_of]. unfold bind.
      assert (H1 : fetches (events (check_token js env token w')) = 0%nat).
      { destruct (gate token) eqn:Hg.
        - destruct (tracked w' token) eqn:Ht.
          + now rewrite check_token_tracked.
          + rewrite (check_token_new js) by assumption. now destruct (notify w' (calls w')).
        - now rewrite check_token_below. }
      destruct (check_token js env token w') as [[t1 w1] [[]|e1]]; cbn [events fst] in *;
        [|exact H1].
      specialize (IH w1). destruct (for_of tokens _ w1) as [[t2 w2] r2].
      cbn [events fst] in *. rewrite fetches_app. lia. }
    pose proof (loop_balance env tokens (called w)) as Hb. cbn zeta in Hb.
    specialize (Hf tokens (called w)).
    destruct (for_of tokens _ (called w)) as [[t w'] [[]|e]];
      cbn [outcome events world fst snd] in *.
    + split; [reflexivity|]. split.
      * now rewrite fetches_cons, Hf.
      * left. rewrite notifies_cons, markers_cons. cbn [is_notify is_marker]. lia.
    + destruct Hb as (Hc & t0 & message & ->). split; [reflexivity|]. split.
      * rewrite fetches_cons, fetches_app, Hf. reflexivity.
      * right. split.
        -- rewrite notifies_cons, markers_cons, notifies_app, markers_app.
           cbn [is_notify is_marker]. change (notifies [EvLog _ _]) with 0%nat.
           change (markers [EvLog _ _]) with 0%nat. lia.
        -- exists (EvFetch helius_rpc searchAssets :: t0), message, e.
           cbn. now rewrite <- app_assoc.
  - cbn. split; [reflexivity|]. split; [reflexivity|]. now left.
Qed.

(** X14. When the listing does not arrive (the transport rejects, the
    status is a refusal, the body is no JSON or has no items), the poll
    logs the exception and that is all: no key of the store is read or
    written and no alert is sent. *)
Theorem poll_without_listing env w e :
  listing w = Err e ->
  checkNewTokens js env w
  = ([EvFetch helius_rpc searchAssets; EvLog "Token check error:" (Some e)], called w, Ok tt).
Proof. intros Hl. now rewrite checkNewTokens_eq, Hl. Qed.

End Poll.

Section Commands.

Context {J Quote Ticker Global : Type}.
Variable js : JS J Quote Ticker.
#[local] Abbreviation World := (World (Cache Quote Ticker Global) J).
Implicit Type w : World.

(** The messages sent in a trace: the requests that are not upstream. *)
Definition sends (t : list event) : nat := (fetches t - upstream_fetches t)%nat.

(** A send is one request, to Telegram, and at most a log line. *)
Lemma sendMessage_trace chatId text env w :
  exists t,
    sendMessage chatId text env w = (t, called w, Ok tt) /\
    fetches t = 1%nat /\ upstream_fetches t = 0%nat.
Proof.
  unfold sendMessage, try_catch, bind at 1.
  destruct (net w (calls w)) as [reason|resp] eqn:Hn.
  - rewrite (fetch_rejected _ _ _ _ Hn). cbn. eauto.
  - rewrite (fetch_responded _ _ _ _ Hn). destruct (ok resp); cbn; eauto.
Qed.

Lemma coinPaprika_fresh_run w : exists hit, coinPaprika_fresh w = ([], w, Ok hit).
Proof.
  unfold coinPaprika_fresh, bind, gets, Date_now, ret. cbn.
  destruct (data (coinPaprika (heap w))); cbn; eauto.
Qed.

Lemma ticker_fresh_run symbol w :
  exists hit,
    ticker_fresh symbol w = ([], w, Ok hit) /\
    forall entry, hit = Some entry ->
      ticker (heap w) !! symbol = Some entry /\ now w - lastUpdated entry < 300000.
Proof.
  unfold ticker_fresh, bind, gets, Date_now, ret. cbn.
  destruct (ticker (heap w) !! symbol) as [entry|]; cbn.
  - destruct (now w - lastUpdated entry <? 300000) eqn:Hlt; eexists; (split; [reflexivity|]).
    + intros entry' [= <-]. split; [reflexivity|]. now apply Z.ltb_lt.
    + discriminate.
  - eexists. split; [reflexivity|]. discriminate.
Qed.

Lemma prices_trace w :
  exists t r,
    fetchCoinPaprikaPrices js w = (t, called w, r) /\
    fetches t = 1%nat /\ upstream_fetches t = 1%nat.
Proof.
  unfold fetchCoinPaprikaPrices, try_catch, bind at 1.
  destruct (net w (calls w)) as [reason|resp] eqn:Hn.
  - rewrite (fetch_rejected _ _ _ _ Hn). cbn. eauto.
  - rewrite (fetch_responded _ _ _ _ Hn). unfold bind, response_json.
    destruct (ok resp); cbn; [|eauto].
    destruct (json resp) as [j|]; cbn; [|eauto].
    destruct (as_array js j); cbn; eauto.
Qed.

Definition rank_url (rank : float) : string :=
  "https://pro-api.coinmarketcap.com/v1/cryptocurrency/listings/latest?start="
  +:+ Number_toString js rank +:+ "&limit=1".

Lemma fetchCMCRanking_run rank apiKey w :
  exists r, fetchCMCRanking js rank apiKey w = ([EvFetch (rank_url rank) []], called w, r).
Proof.
  unfold fetchCMCRanking, bind at 1. fold (rank_url rank).
  destruct (net w (calls w)) as [reason|resp] eqn:Hn.
  - rewrite (fetch_rejected _ _ _ _ Hn). eauto.
  - rewrite (fetch_responded _ _ _ _ Hn). unfold bind, response_json, lift.
    destruct (ok resp); cbn; [|eauto].
    destruct (json resp) as [j|]; cbn; [|eauto].
    destruct (data_0 js j); cbn; eauto.
Qed.

Lemma upstream_quote symbol t :
  upstream_fetches (EvFetch (quote_url symbol) [] :: t) = S (upstream_fetches t).
Proof. reflexivity. Qed.

Lemma upstream_rank rank t :
  upstream_fetches (EvFetch (rank_url rank) [] :: t) = S (upstream_fetches t).
Proof. reflexivity. Qed.

(** Counts the requests of a trace that is given event by event. *)
Ltac count :=
  cbn [app]; rewrite ?fetches_cons, ?upstream_quote, ?upstream_rank; cbn [is_fetch];
  try change (fetches []) with 0%nat; try change (upstream_fetches []) with 0%nat.

Lemma now_called w : now w <= now (called w).
Proof. cbn. lia. Qed.

Lemma ticker_command_run text chatId env w :
  exists t w',
    handleTickerCommand js text chatId env w = (t, w', Ok tt) /\
    kv w' = kv w /\
    (upstream_fetches t <= 1)%nat /\
    (1 <= sends t <= 2)%nat /\
    (heap w' = heap w \/
     exists tickers t0,
       now w <= t0 <= now w' /\
       heap w' = set_coinPaprika {| data := Some tickers; lastUpdated := t0 |} (heap w)).
Proof.
  unfold sends, handleTickerCommand, try_catch.
  destruct (second_word text) as [input|].
  2:{ destruct (sendMessage_trace chatId "Please provide a search term (e.g., /ticker BTC)"
                  env w) as (t & -> & Hf & Hu).
      do 2 eexists. split; [reflexivity|]. rewrite Hf, Hu. cbn.
      repeat split; try lia. now left. }
  unfold bind at 1. destruct (coinPaprika_fresh_run w) as (hit & ->).
  destruct hit as [tickers|].
  { match goal with |- context [sendMessage chatId ?m env w] =>
      destruct (sendMessage_trace chatId m env w) as (t & -> & Hf & Hu) end.
    do 2 eexists. split; [reflexivity|]. cbn [app]. rewrite Hf, Hu. cbn.
    repeat split; try lia. now left. }
  unfold bind at 1.
  destruct (sendMessage_trace chatId "🔄 Fetching tickers data..." env w) as (t0 & -> & Hf0 & Hu0).
  unfold bind at 1.
  destruct (prices_trace (called w)) as (t1 & r & -> & Hf1 & Hu1).
  destruct r as [tickers|e].
  - unfold bind, Date_now, gets, modify. cbn [app].
    match goal with |- context [sendMessage chatId ?m env ?w'] =>
      destruct (sendMessage_trace chatId m env w') as (t2 & -> & Hf2 & Hu2) end.
    do 2 eexists. split; [reflexivity|]. cbn [app].
    rewrite ?app_nil_r, !fetches_app, !upstream_fetches_app, Hf0, Hf1, Hf2, Hu0, Hu1, Hu2.
    cbn. repeat split; try lia. right.
    exists tickers, (now (called (called w))). split; [cbn; lia|reflexivity].
  - unfold bind, console_error, emit. cbn [app].
    match goal with |- context [sendMessage chatId ?m env ?w'] =>
      destruct (sendMessage_trace chatId m env w') as (t2 & -> & Hf2 & Hu2) end.
    do 2 eexists. split; [reflexivity|]. cbn [app].
    rewrite !fetches_app, !upstream_fetches_app, fetches_cons.
    change (upstream_fetches (?a :: t2)) with (upstream_fetches t2).
    rewrite Hf0, Hf1, Hf2, Hu0, Hu1, Hu2.
    cbn. repeat split; try lia. now left.
Qed.

(** X15. [handleTickerCommand] never throws and always answers: it sends
    one message or two, asks upstream at most once, and leaves the store
    alone. The cache is as it was, or its listing slot holds a listing
    under a time within the call; the other slots are kept. *)
Theorem ticker_command_contained text chatId env w :
  let o := handleTickerCommand js text chatId env w in
  outcome o = Ok tt /\ kv (world o) = kv w /\
  (upstream_fetches (events o) <= 1)%nat /\
  (1 <= sends (events o) <= 2)%nat /\
  (heap (world o) = heap w \/
   exists tickers t0,
     now w <= t0 <= now (world o) /\
     heap (world o)
     = set_coinPaprika {| data := Some tickers; lastUpdated := t0 |} (heap w)).
Proof.
  cbn zeta. destruct (ticker_command_run text chatId env w) as (t & w' & -> & H).
  split; [reflexivity|exact H].
Qed.

Lemma rank_lookup_run text chatId env w input :
  second_word text = Some input -> isNaN_Number js input = false ->
  exists t w' r,
    handleInfoCommand js text chatId env w = (t, w', r) /\
    heap w' = heap w /\ kv w' = kv w /\
    (PrimFloat.ltb (parseInt js input) 1 = true ->
     r = Ok tt /\ upstream_fetches t = 0%nat /\ sends t = 1%nat) /\
    (PrimFloat.ltb (parseInt js input) 1 = false ->
     exists t', t = EvFetch (rank_url (parseInt js input)) [] :: t' /\
                upstream_fetches t = 1%nat).
Proof.
  intros Hs Hn. unfold sends, handleInfoCommand. rewrite Hs, Hn.
  destruct (PrimFloat.ltb (parseInt js input) 1).
  - destruct (sendMessage_trace chatId "Rank must be greater than 0" env w)
      as (t & -> & Hf & Hu).
    do 3 eexists. split; [reflexivity|]. rewrite Hf, Hu.
    repeat split; try reflexivity; discriminate.
  - unfold bind at 1.
    destruct (fetchCMCRanking_run (parseInt js input) (CMC_API_KEY env) w) as (r & ->).
    destruct r as [d|e].
    + unfold bind, lift. destruct (formatCMCInfo js d) as [message|e]; cbn [ret throw].
      * match goal with |- context [sendMessage chatId ?m env ?w'] =>
          destruct (sendMessage_trace chatId m env w') as (t2 & -> & Hf2 & Hu2) end.
        do 3 eexists. split; [reflexivity|]. cbn [app].
        repeat split; try reflexivity; try discriminate.
        intros _. eexists. split; [reflexivity|].
        change (upstream_fetches (?a :: t2)) with (S (upstream_fetches t2)). now rewrite Hu2.
      * do 3 eexists. split; [reflexivity|]. cbn [app].
        repeat split; try reflexivity; try discriminate.
        intros _. eexists. split; reflexivity.
    + do 3 eexists. split; [reflexivity|].
      repeat split; try reflexivity; try discriminate.
      intros _. eexists. split; reflexivity.
Qed.

(** X16. A lookup by rank does not go through the cache: it neither reads
    nor writes it. A rank below 1 is answered with the notice and asks
    nothing upstream; any other rank, the rank that is no number too, is
    asked upstream, once. *)
Theorem rank_lookup_uncached text chatId env w input :
  second_word text = Some input -> isNaN_Number js input = false ->
  let o := handleInfoCommand js text chatId env w in
  heap (world o) = heap w /\ kv (world o) = kv w /\
  (PrimFloat.ltb (parseInt js input) 1 = true ->
   outcome o = Ok tt /\ upstream_fetches (events o) = 0%nat /\ sends (events o) = 1%nat) /\
  (PrimFloat.ltb (parseInt js input) 1 = false ->
   exists t, events o = EvFetch (rank_url (parseInt js input)) [] :: t /\
             upstream_fetches (events o) = 1%nat).
Proof.
  intros Hs Hn. cbn zeta.
  destruct (rank_lookup_run text chatId env w input Hs Hn) as (t & w' & r & -> & H).
  exact H.
Qed.

Lemma info_command_run text chatId env w :
  exists t w' r,
    handleInfoCommand js text chatId env w = (t, w', r) /\
    match r with
    | Ok _ => sends t = 1%nat
    | Err _ => sends t = 0%nat
    end /\
    (upstream_fetches t <= 1)%nat /\ kv w' = kv w.
Proof.
  unfold sends, handleInfoCommand.
  destruct (second_word text) as [input|].
  2:{ destruct (sendMessage_trace chatId "Please provide a symbol or rank" env w)
        as (t & -> & Hf & Hu).
      do 3 eexists. split; [reflexivity|]. rewrite Hf, Hu. repeat split. lia. }
  destruct (isNaN_Number js input).
  - unfold bind at 1.
    destruct (ticker_fresh_run (toUpperCase js input) w) as (hit & -> & _).
    destruct hit as [entry|].
    + unfold bind, lift. destruct (formatCMCInfo js (data entry)) as [message|e]; cbn [ret throw].
      * destruct (sendMessage_trace chatId message env w) as (t & -> & Hf & Hu).
        do 3 eexists. split; [reflexivity|]. cbn [app]. rewrite Hf, Hu. repeat split. lia.
      * do 3 eexists. split; [reflexivity|]. count. repeat split; lia.
    + unfold bind at 1.
      destruct (fetchCMCQuote_run js (toUpperCase js input) (CMC_API_KEY env) w) as (r & -> & _).
      destruct r as [d|e].
      * unfold bind, Date_now, gets, modify, lift. cbn [app].
        destruct (formatCMCInfo js d) as [message|e]; cbn [ret throw].
        -- match goal with |- context [sendMessage chatId message env ?w'] =>
             destruct (sendMessage_trace chatId message env w') as (t & -> & Hf & Hu) end.
           do 3 eexists. split; [reflexivity|]. count.
           rewrite Hf, Hu. repeat split; lia.
        -- do 3 eexists. split; [reflexivity|]. count. repeat split; lia.
      * do 3 eexists. split; [reflexivity|]. count. repeat split; lia.
  - destruct (PrimFloat.ltb (parseInt js input) 1).
    + destruct (sendMessage_trace chatId "Rank must be greater than 0" env w)
        as (t & -> & Hf & Hu).
      do 3 eexists. split; [reflexivity|]. rewrite Hf, Hu. repeat split. lia.
    + unfold bind at 1.
      destruct (fetchCMCRanking_run (parseInt js input) (CMC_API_KEY env) w) as (r & ->).
      destruct r as [d|e].
      * unfold bind, lift. destruct (formatCMCInfo js d) as [message|e]; cbn [ret throw].
        -- match goal with |- context [sendMessage chatId message env ?w'] =>
             destruct (sendMessage_trace chatId message env w') as (t & -> & Hf & Hu) end.
           do 3 eexists. split; [reflexivity|]. count.
           rewrite Hf, Hu. repeat split; lia.
        -- do 3 eexists. split; [reflexivity|]. count. repeat split; lia.
      * do 3 eexists. split; [reflexivity|]. count. repeat split; lia.
Qed.

(** X17. [handleInfoCommand] answers or throws, never both: when it returns
    it has sent one message, and when it throws it has sent none. Either
    way it asks upstream at most once and leaves the store alone. *)
Theorem info_command_replies_or_throws text chatId env w :
  let o := handleInfoCommand js text chatId env w in
  match outcome o with
  | Ok _ => sends (events o) = 1%nat
  | Err _ => sends (events o) = 0%nat
  end /\
  (upstream_fetches (events o) <= 1)%nat /\ kv (world o) = kv w.
Proof.
  cbn zeta. destruct (info_command_run text chatId env w) as (t & w' & r & -> & H).
  exact H.
Qed.

(** X18. A quote that cannot be formatted is cached all the same. When
    the quote of a symbol arrives and [formatCMCInfo] throws on it, the
    entry has been stored before the exception; so a read of the symbol in
    the next 300000 ms throws again at once, without a request and without
    a message. *)
Theorem unformattable_quote_cached text chatId env input w w2 d e :
  second_word text = Some input -> isNaN_Number js input = true ->
  (forall entry, ticker (heap w) !! toUpperCase js input = Some entry ->
                 300000 <= now w - lastUpdated entry) ->
  quote_arrives js w (toUpperCase js input) d ->
  formatCMCInfo js d = Err e ->
  let o := handleInfoCommand js text chatId env w in
  heap w2 = heap (world o) -> now w2 - now (called w) < 300000 ->
  o = ([EvFetch (quote_url (toUpperCase js input)) []],
       set_heap (set_ticker (toUpperCase js input)
                   {| data := d; lastUpdated := now (called w) |} (heap w)) (called w),
       Err e) /\
  handleInfoCommand js text chatId env w2 = ([], w2, Err e).
Proof.
  intros Hs Hn Hst (resp & j & Hnet & Hok & Hj & Hd) He o Hheap Hlt.
  assert (Ho : o = ([EvFetch (quote_url (toUpperCase js input)) []],
                    set_heap (set_ticker (toUpperCase js input)
                                {| data := d; lastUpdated := now (called w) |} (heap w))
                      (called w),
                    Err e)).
  { subst o. unfold handleInfoCommand. rewrite Hs, Hn.
    unfold bind at 1. rewrite (ticker_fresh_miss _ _ Hst).
    unfold bind at 1.
    destruct (fetchCMCQuote_run js (toUpperCase js input) (CMC_API_KEY env) w) as (r & -> & Hr).
    rewrite (Hr _ _ _ Hnet Hok Hj Hd).
    unfold bind, Date_now, gets, modify, lift. cbn [app]. now rewrite He. }
  split; [exact Ho|].
  unfold handleInfoCommand. rewrite Hs, Hn. unfold bind at 1.
  rewrite (ticker_fresh_hit (toUpperCase js input)
             {| data := d; lastUpdated := now (called w) |}).
  - unfold bind, lift. cbn [data]. now rewrite He.
  - rewrite Hheap, Ho. cbn. apply lookup_insert_eq.
  - exact Hlt.
Qed.

End Commands.

Section Escaping.

(** The entity of a character, or the character itself. *)
Definition entity (c : ascii) : string :=
  if Ascii.eqb c "&" then "&amp;"
  else if Ascii.eqb c "<" then "&lt;"
  else if Ascii.eqb c ">" then "&gt;"
  else if Ascii.eqb c "034" then "&quot;"
  else if Ascii.eqb c "'" then "&#039;"
  else String c EmptyString.

Fixpoint entities (s : string) : string :=
  match s with
  | EmptyString => EmptyString
  | String a s' => entity a +:+ entities s'
  end.

(** A character that closes or opens a tag or an attribute value. *)
Definition markup (c : ascii) : bool :=
  Ascii.eqb c "<" || Ascii.eqb c ">" || Ascii.eqb c "034" || Ascii.eqb c "'".

Lemma app_assoc_string (a b c : string) : (a +:+ b) +:+ c = a +:+ (b +:+ c).
Proof.
  induction a as [|x a IH]; [reflexivity|].
  change (String x ((a +:+ b) +:+ c) = String x (a +:+ (b +:+ c))). now rewrite IH.
Qed.

Lemma replace_all_app c r a b :
  replace_all c r (a +:+ b) = replace_all c r a +:+ replace_all c r b.
Proof.
  induction a as [|x a IH]; [reflexivity|].
  change (String x a +:+ b) with (String x (a +:+ b)). cbn [replace_all].
  now rewrite IH, app_assoc_string.
Qed.

Lemma escapeHtml_app a b : escapeHtml (a +:+ b) = escapeHtml a +:+ escapeHtml b.
Proof. unfold escapeHtml. now rewrite !replace_all_app. Qed.

Lemma escapeHtml_one c : escapeHtml (String c EmptyString) = entity c.
Proof.
  unfold escapeHtml, entity.
  destruct (Ascii.eqb_spec c "&") as [->|H1]; [reflexivity|].
  destruct (Ascii.eqb_spec c "<") as [->|H2]; [reflexivity|].
  destruct (Ascii.eqb_spec c ">") as [->|H3]; [reflexivity|].
  destruct (Ascii.eqb_spec c "034") as [->|H4]; [reflexivity|].
  destruct (Ascii.eqb_spec c "'") as [->|H5]; [reflexivity|].
  cbn [replace_all].
  rewrite (proj2 (Ascii.eqb_neq _ _) H1). change (String c "" +:+ "") with (String c "").
  cbn [replace_all].
  rewrite (proj2 (Ascii.eqb_neq _ _) H2). change (String c "" +:+ "") with (String c "").
  cbn [replace_all].
  rewrite (proj2 (Ascii.eqb_neq _ _) H3). change (String c "" +:+ "") with (String c "").
  cbn [replace_all].
  rewrite (proj2 (Ascii.eqb_neq _ _) H4). change (String c "" +:+ "") with (String c "").
  cbn [replace_all].
  now rewrite (proj2 (Ascii.eqb_neq _ _) H5).
Qed.

Lemma escapeHtml_entities s : escapeHtml s = entities s.
Proof.
  induction s as [|c s IH]; [reflexivity|].
  change (String c s) with (String c EmptyString +:+ s).
  now rewrite escapeHtml_app, escapeHtml_one, IH.
Qed.

Lemma entity_markup c x : In x (list_ascii_of_string (entity c)) -> markup x = false.
Proof.
  unfold entity.
  destruct (Ascii.eqb_spec c "&") as [->|H1].
  { cbn. intros H; repeat destruct H as [<-|H]; try reflexivity; contradiction. }
  destruct (Ascii.eqb_spec c "<") as [->|H2].
  { cbn. intros H; repeat destruct H as [<-|H]; try reflexivity; contradiction. }
  destruct (Ascii.eqb_spec c ">") as [->|H3].
  { cbn. intros H; repeat destruct H as [<-|H]; try reflexivity; contradiction. }
  destruct (Ascii.eqb_spec c "034") as [->|H4].
  { cbn. intros H; repeat destruct H as [<-|H]; try reflexivity; contradiction. }
  destruct (Ascii.eqb_spec c "'") as [->|H5].
  { cbn. intros H; repeat destruct H as [<-|H]; try reflexivity; contradiction. }
  cbn. intros [<-|[]]. unfold markup.
  rewrite (proj2 (Ascii.eqb_neq _ _) H2), (proj2 (Ascii.eqb_neq _ _) H3),
    (proj2 (Ascii.eqb_neq _ _) H4), (proj2 (Ascii.eqb_neq _ _) H5). reflexivity.
Qed.

Lemma list_ascii_app a b :
  list_ascii_of_string (a +:+ b) = list_ascii_of_string a ++ list_ascii_of_string b.
Proof.
  induction a as [|x a IH]; [reflexivity|].
  change (String x a +:+ b) with (String x (a +:+ b)). cbn [list_ascii_of_string app].
  now rewrite IH.
Qed.

(** X19. [escapeHtml] is the replacement of each character by its entity:
    the five passes come to one, since the ampersand is replaced first and
    no later pass looks for a character of an entity. So the result holds
    no character of markup (angle bracket or quote) whatever the input, and
    the escape of a concatenation is the concatenation of the escapes. *)
Theorem escapeHtml_safe (unsafe rest : string) :
  escapeHtml unsafe = entities unsafe /\
  (forall c, In c (list_ascii_of_string (escapeHtml unsafe)) -> markup c = false) /\
  escapeHtml (unsafe +:+ rest) = escapeHtml unsafe +:+ escapeHtml rest.
Proof.
  split; [apply escapeHtml_entities|]. split; [|apply escapeHtml_app].
  rewrite escapeHtml_entities. induction unsafe as [|a s IH]; [intros c []|].
  cbn [entities]. intros c. rewrite list_ascii_app, in_app_iff. intros [H|H].
  - now apply entity_markup with (c := a).
  - now apply IH.
Qed.

(** The entity of a character begins with the ampersand exactly when the
    character is one that is replaced; then its second character tells
    which. *)
Lemma entities_cons_inj a b ra rb :
  entity a +:+ ra = entity b +:+ rb -> a = b /\ ra = rb.
Proof.
  unfold entity.
  destruct (Ascii.eqb_spec a "&") as [->|A1]; [|
  destruct (Ascii.eqb_spec a "<") as [->|A2]; [|
  destruct (Ascii.eqb_spec a ">") as [->|A3]; [|
  destruct (Ascii.eqb_spec a "034") as [->|A4]; [|
  destruct (Ascii.eqb_spec a "'") as [->|A5]]]]];
  (destruct (Ascii.eqb_spec b "&") as [->|B1]; [|
   destruct (Ascii.eqb_spec b "<") as [->|B2]; [|
   destruct (Ascii.eqb_spec b ">") as [->|B3]; [|
   destruct (Ascii.eqb_spec b "034") as [->|B4]; [|
   destruct (Ascii.eqb_spec b "'") as [->|B5]]]]]);
  intros H; cbv [append] in H; split; congruence.
Qed.

(** X20. [escapeHtml] loses nothing: two texts with the same escape are the
    same text. *)
Theorem escapeHtml_injective (a b : string) : escapeHtml a = escapeHtml b -> a = b.
Proof.
  rewrite !escapeHtml_entities. revert b.
  induction a as [|x a IH]; intros [|y b] H; cbn [entities] in H.
  - reflexivity.
  - exfalso. unfold entity in H.
    repeat match type of H with context [if ?c then _ else _] => destruct c end;
      discriminate H.
  - exfalso. unfold entity in H.
    repeat match type of H with context [if ?c then _ else _] => destruct c end;
      discriminate H.
  - destruct (entities_cons_inj _ _ _ _ H) as [-> H']. f_equal. now apply IH.
Qed.

End Escaping.

Lemma escapeHtml_injective_witness : "<b>" = "<b>".
Proof. apply (escapeHtml_injective "<b>" "<b>"). reflexivity. Defined.

(** The ampersand of the text is escaped, the ampersands of the entities
    are not escaped again. *)
Example escapeHtml_markup :
  escapeHtml "<a href='x'>Tom & Jerry</a>"
  = "&lt;a href=&#039;x&#039;&gt;Tom &amp; Jerry&lt;/a&gt;".
Proof. reflexivity. Qed.

Section Router.

Context {J Quote Ticker Global Found ExchangeData : Type}.
Variable js : JS J Quote Ticker.
Variable paths : Paths J Global Found ExchangeData.
#[local] Abbreviation World := (World (Cache Quote Ticker Global) J).
Implicit Type w : World.

Definition global_url : string :=
  "https://pro-api.coinmarketcap.com/v1/global-metrics/quotes/latest".

(** What the request for the global metrics comes to. *)
Definition global_arrival w : result Global :=
  match net w (calls w) with
  | Rejected reason => Err (NetworkError reason)
  | Responded resp =>
      if ok resp then
        match json resp with
        | Some j =>
            match global_data paths j with
            | Some d => Ok d
            | None => Err (JsError "Invalid CMC Global API response structure")
            end
        | None => Err (SyntaxError "Unexpected token in JSON")
        end
      else Err (JsError ("CMC Global API failed: " +:+ pretty (status resp)))
  end.

Lemma fetchCMCGlobal_eq apiKey w :
  fetchCMCGlobal paths apiKey w =
  match global_arrival w with
  | Ok d => ([EvFetch global_url []], called w, Ok d)
  | Err e =>
      ([EvFetch global_url []; EvLog "fetchCMCGlobal error:" (Some e)], called w,
       Err (JsError "Failed to fetch global market data"))
  end.
Proof.
  unfold fetchCMCGlobal, global_arrival, try_catch, bind at 1. fold global_url.
  destruct (net w (calls w)) as [reason|resp] eqn:Hn.
  - now rewrite (fetch_rejected _ _ _ _ Hn).
  - rewrite (fetch_responded _ _ _ _ Hn). unfold bind at 1.
    destruct (ok resp); cbn [negb]; [|reflexivity].
    unfold ret at 1. unfold bind at 1, response_json.
    destruct (json resp) as [j|]; [|reflexivity].
    unfold ret at 1. now destruct (global_data paths j).
Qed.

Lemma formatCMCGlobal_run (d : Global) w :
  exists t text,
    formatCMCGlobal paths d w = (t, w, Ok text) /\
    fetches t = 0%nat /\ upstream_fetches t = 0%nat.
Proof.
  unfold formatCMCGlobal. destruct (global_template paths d) as [text|e]; cbn; eauto.
Qed.

Lemma global_fresh_run w :
  exists hit,
    global_fresh w = ([], w, Ok hit) /\
    (forall entry, hit = Some entry ->
       global (heap w) = Some entry /\ now w - lastUpdated entry < 300000) /\
    (hit = None -> forall entry, global (heap w) = Some entry ->
       300000 <= now w - lastUpdated entry).
Proof.
  unfold global_fresh, bind, gets, Date_now, ret. cbn.
  destruct (global (heap w)) as [entry|]; cbn.
  - destruct (now w - lastUpdated entry <? 300000) eqn:Hlt; eexists; (split; [reflexivity|]).
    + split; [|discriminate]. intros entry' [= <-]. split; [reflexivity|]. now apply Z.ltb_lt.
    + split; [discriminate|]. intros _ entry' [= <-]. now apply Z.ltb_ge.
  - eexists. split; [reflexivity|]. split; discriminate.
Qed.

(** The steps of [fetchCMCExchangeData] inside its [try]. *)
Definition exchange_error (query : string) (cause : exn) : exn :=
  JsError ("Failed to fetch " +:+ query +:+ " data: " +:+ message_of cause).

Lemma upstream_search query t :
  upstream_fetches (EvFetch (search_url paths query) [] :: t) = S (upstream_fetches t).
Proof. reflexivity. Qed.

Lemma upstream_metrics exchange t :
  upstream_fetches (EvFetch (metrics_url paths exchange) [] :: t) = S (upstream_fetches t).
Proof. reflexivity. Qed.

Lemma upstream_log text cause t :
  upstream_fetches (EvLog text cause :: t) = upstream_fetches t.
Proof. reflexivity. Qed.

Lemma upstream_global t :
  upstream_fetches (EvFetch global_url [] :: t) = S (upstream_fetches t).
Proof. reflexivity. Qed.

Ltac tally :=
  cbn [app]; rewrite ?app_nil_r;
  repeat first
    [ rewrite fetches_app | rewrite upstream_fetches_app | rewrite fetches_cons
    | rewrite upstream_search | rewrite upstream_metrics | rewrite upstream_log
    | rewrite upstream_global | rewrite upstream_quote | rewrite upstream_rank ];
  cbn [is_fetch];
  try change (fetches []) with 0%nat; try change (upstream_fetches []) with 0%nat.

(** What a run of [fetchCMCExchangeData] amounts to. *)
Record looked_up (query apiKey : string) w (t : list event) (w' : World)
    (r : result ExchangeData) : Prop :=
  { exchange_heap : heap w' = heap w;
    exchange_kv : kv w' = kv w;
    exchange_requests : (fetches t <= 2)%nat;
    exchange_upstream : upstream_fetches t = fetches t;
    exchange_wrapped : forall e, r = Err e ->
      exists cause t0,
        e = exchange_error query cause /\
        t = t0 ++ [EvLog "Exchange data fetch error:" (Some cause)];
    exchange_gate : String.prefix "b4" apiKey = false ->
      t = [EvLog "Exchange data fetch error:"
             (Some (JsError "Invalid CoinMarketCap API key format"))] /\
      w' = w /\
      r = Err (exchange_error query (JsError "Invalid CoinMarketCap API key format")) }.

(** The fields of [looked_up] that are read off the trace. *)
Ltac closed :=
  split; try reflexivity; try (intros Hgate; congruence); try (tally; lia).

(** The field [exchange_wrapped], from the cause and the trace before the log. *)
Ltac thrown cause t0 :=
  let e := fresh "e" in intros e [= <-]; exists cause, t0; split; reflexivity.

Lemma fetchCMCExchangeData_run query apiKey w :
  exists t w' r,
    fetchCMCExchangeData paths query apiKey w = (t, w', r) /\
    looked_up query apiKey w t w' r.
Proof.
  unfold fetchCMCExchangeData, try_catch, exchange_error.
  destruct (String.prefix "b4" apiKey) eqn:Hkey; cbn [negb].
  2:{ cbn. do 3 eexists. split; [reflexivity|].
      split; try reflexivity; try (tally; lia).
      - intros e [= <-]. now exists (JsError "Invalid CoinMarketCap API key format"), [].
      - now intros _. }
  unfold bind at 1, ret at 1. unfold bind at 1.
  destruct (net w (calls w)) as [reason|resp] eqn:Hn.
  { rewrite (fetch_rejected _ _ _ _ Hn). cbn. do 3 eexists. split; [reflexivity|].
    closed. thrown (NetworkError reason) [EvFetch (search_url paths query) []]. }
  rewrite (fetch_responded _ _ _ _ Hn). unfold bind at 1.
  destruct (ok resp); cbn [negb].
  2:{ unfold bind at 1, response_json.
      destruct (json resp) as [j|]; cbn.
      - destruct (error_message paths j) as [reason|e0]; cbn;
          (do 3 eexists; split; [reflexivity|]); closed.
        + thrown (JsError ("CMC API Error: " +:+ reason)) [EvFetch (search_url paths query) []].
        + thrown e0 [EvFetch (search_url paths query) []].
      - do 3 eexists. split; [reflexivity|]. closed.
        thrown (SyntaxError "Unexpected token in JSON") [EvFetch (search_url paths query) []]. }
  unfold ret at 1. unfold bind at 1, response_json.
  destruct (json resp) as [j|]; cbn [throw ret].
  2:{ cbn. do 3 eexists. split; [reflexivity|]. closed.
      thrown (SyntaxError "Unexpected token in JSON") [EvFetch (search_url paths query) []]. }
  unfold bind at 1, lift.
  destruct (found paths j) as [[exchange|]|e0]; cbn [throw ret].
  2:{ cbn. do 3 eexists. split; [reflexivity|]. closed.
      thrown (JsError "Exchange not found in response data")
        [EvFetch (search_url paths query) []]. }
  2:{ cbn. do 3 eexists. split; [reflexivity|]. closed.
      thrown e0 [EvFetch (search_url paths query) []]. }
  unfold bind at 1.
  destruct (net (called w) (calls (called w))) as [reason2|resp2] eqn:Hn2.
  { rewrite (fetch_rejected _ _ _ _ Hn2). cbn. do 3 eexists. split; [reflexivity|]. closed.
    thrown (NetworkError reason2)
      [EvFetch (search_url paths query) []; EvFetch (metrics_url paths exchange) []]. }
  rewrite (fetch_responded _ _ _ _ Hn2). unfold bind at 1.
  destruct (ok resp2); cbn [negb].
  2:{ unfold bind at 1, response_json.
      destruct (json resp2) as [j2|]; cbn.
      - destruct (error_message paths j2) as [reason|e0]; cbn;
          (do 3 eexists; split; [reflexivity|]); closed.
        + thrown (JsError ("Metrics API Error: " +:+ reason))
            [EvFetch (search_url paths query) []; EvFetch (metrics_url paths exchange) []].
        + thrown e0
            [EvFetch (search_url paths query) []; EvFetch (metrics_url paths exchange) []].
      - do 3 eexists. split; [reflexivity|]. closed.
        thrown (SyntaxError "Unexpected token in JSON")
          [EvFetch (search_url paths query) []; EvFetch (metrics_url paths exchange) []]. }
  unfold ret at 1. unfold bind at 1, response_json.
  destruct (json resp2) as [j2|]; cbn [throw ret].
  2:{ cbn. do 3 eexists. split; [reflexivity|]. closed.
      thrown (SyntaxError "Unexpected token in JSON")
        [EvFetch (search_url paths query) []; EvFetch (metrics_url paths exchange) []]. }
  destruct (normalized paths exchange j2) as [d|e0]; cbn.
  - do 3 eexists. split; [reflexivity|]. closed.
  - do 3 eexists. split; [reflexivity|]. closed.
    thrown e0 [EvFetch (search_url paths query) []; EvFetch (metrics_url paths exchange) []].
Qed.

(** There is no second word. *)
Ltac no_exchange :=
  match goal with H : is_Some None |- _ => now destruct H end.

(** Takes the next send of the goal at its word. *)
Ltac send_next Hf Hu :=
  match goal with
  | |- context [sendMessage ?chatId ?m ?env ?w'] =>
      let t := fresh "t" in
      destruct (sendMessage_trace chatId m env w') as (t & -> & Hf & Hu)
  end.

Lemma global_command_run fullCommand chatId env w :
  exists t w',
    handleGlobalCommand paths fullCommand chatId env w = (t, w', Ok tt) /\
    kv w' = kv w /\
    ticker (heap w') = ticker (heap w) /\
    coinPaprika (heap w') = coinPaprika (heap w) /\
    (1 <= sends t <= 2)%nat /\ (upstream_fetches t <= 2)%nat /\
    (is_Some (second_word fullCommand) -> heap w' = heap w /\ sends t = 2%nat).
Proof.
  unfold sends, handleGlobalCommand, try_catch.
  destruct (second_word fullCommand) as [exchange|].
  - unfold bind at 1. send_next Hf0 Hu0. unfold bind at 1.
    destruct (fetchCMCExchangeData_run exchange (CMC_API_KEY env) (called w))
      as (t1 & w1 & r1 & -> & [Hh Hk Hreq Hup _ _]).
    cbn [called heap kv] in Hh, Hk.
    destruct r1 as [d|e].
    + unfold bind at 1, lift. destruct (formatExchangeData paths d) as [text|e]; cbn [ret throw].
      * send_next Hf2 Hu2. do 2 eexists. split; [reflexivity|]. cbn [app called heap kv].
        tally. rewrite Hf0, Hu0, Hf2, Hu2, Hup, Hh, Hk. repeat split; try lia.
      * unfold bind, console_error, emit. send_next Hf2 Hu2.
        do 2 eexists. split; [reflexivity|]. cbn [app called heap kv].
        tally. rewrite Hf0, Hu0, Hf2, Hu2, Hup, Hh, Hk. repeat split; try lia.
    + unfold bind, console_error, emit. send_next Hf2 Hu2.
      do 2 eexists. split; [reflexivity|]. cbn [app called heap kv].
      tally. rewrite Hf0, Hu0, Hf2, Hu2, Hup, Hh, Hk. repeat split; try lia.
  - unfold bind at 1. destruct (global_fresh_run w) as (hit & -> & _).
    destruct hit as [entry|].
    + unfold bind at 1.
      destruct (formatCMCGlobal_run (data entry) w) as (t1 & text & -> & Hf1 & Hu1).
      send_next Hf2 Hu2. do 2 eexists. split; [reflexivity|]. cbn [app called heap kv].
      tally. rewrite Hf1, Hu1, Hf2, Hu2.
      repeat split; try lia; no_exchange.
    + unfold bind at 1. rewrite fetchCMCGlobal_eq.
      destruct (global_arrival w) as [d|e].
      * unfold bind at 1, Date_now, gets. unfold bind at 1, modify. unfold bind at 1.
        match goal with |- context [formatCMCGlobal paths d ?w'] =>
          destruct (formatCMCGlobal_run d w') as (t1 & text & -> & Hf1 & Hu1) end.
        send_next Hf2 Hu2. do 2 eexists. split; [reflexivity|]. cbn [app called heap kv set_heap].
        tally. rewrite Hf1, Hu1, Hf2, Hu2.
        repeat split; try lia; no_exchange.
      * unfold bind, console_error, emit. send_next Hf2 Hu2.
        do 2 eexists. split; [reflexivity|]. cbn [app called heap kv].
        tally. rewrite Hf2, Hu2.
        repeat split; try lia; no_exchange.
Qed.

(** X21. [fetchCMCExchangeData] asks at most twice, upstream only, and
    touches neither cache nor store. Whatever fails inside it, it logs the
    cause and throws an error that names the query and carries the message
    of the cause. With a key that does not begin with "b4" it asks
    nothing: it logs and throws at once. *)
Theorem exchange_lookup_guarded query apiKey w :
  let o := fetchCMCExchangeData paths query apiKey w in
  heap (world o) = heap w /\ kv (world o) = kv w /\
  (fetches (events o) <= 2)%nat /\ sends (events o) = 0%nat /\
  (forall e, outcome o = Err e ->
     exists cause t,
       e = JsError ("Failed to fetch " +:+ query +:+ " data: " +:+ message_of cause) /\
       events o = t ++ [EvLog "Exchange data fetch error:" (Some cause)]) /\
  (String.prefix "b4" apiKey = false ->
   o = ([EvLog "Exchange data fetch error:"
           (Some (JsError "Invalid CoinMarketCap API key format"))],
        w,
        Err (JsError ("Failed to fetch " +:+ query
                      +:+ " data: Invalid CoinMarketCap API key format")))).
Proof.
  cbn zeta.
  destruct (fetchCMCExchangeData_run query apiKey w)
    as (t & w' & r & -> & [Hh Hk Hreq Hup Hwrap Hgate]).
  cbn [outcome events world fst snd]. unfold sends. rewrite Hup.
  split; [exact Hh|]. split; [exact Hk|]. split; [exact Hreq|]. split; [lia|].
  split; [exact Hwrap|].
  intros Hkey. destruct (Hgate Hkey) as (-> & -> & ->). reflexivity.
Qed.

(** X22. [handleGlobalCommand] never throws and always answers: it sends
    one message or two, asks upstream at most twice, and leaves the store
    and the other slots of the cache alone. With an exchange named it
    sends two messages, the notice and then the data or the apology, and
    leaves the whole cache alone. *)
Theorem global_command_contained fullCommand chatId env w :
  let o := handleGlobalCommand paths fullCommand chatId env w in
  outcome o = Ok tt /\ kv (world o) = kv w /\
  ticker (heap (world o)) = ticker (heap w) /\
  coinPaprika (heap (world o)) = coinPaprika (heap w) /\
  (1 <= sends (events o) <= 2)%nat /\ (upstream_fetches (events o) <= 2)%nat /\
  (is_Some (second_word fullCommand) ->
   heap (world o) = heap w /\ sends (events o) = 2%nat).
Proof.
  cbn zeta. destruct (global_command_run fullCommand chatId env w) as (t & w' & -> & H).
  split; [reflexivity|exact H].
Qed.

Lemma global_fresh_hit entry w :
  global (heap w) = Some entry -> now w - lastUpdated entry < 300000 ->
  global_fresh w = ([], w, Ok (Some entry)).
Proof.
  intros Hg Hlt. unfold global_fresh, bind, gets, Date_now, ret. rewrite Hg. cbn.
  now rewrite (proj2 (Z.ltb_lt _ _) Hlt).
Qed.

Lemma global_fresh_miss w :
  (forall entry, global (heap w) = Some entry -> 300000 <= now w - lastUpdated entry) ->
  global_fresh w = ([], w, Ok None).
Proof.
  intros Hst. unfold global_fresh, bind, gets, Date_now, ret.
  destruct (global (heap w)) as [entry|]; [|reflexivity]. cbn.
  now rewrite (proj2 (Z.ltb_ge _ _) (Hst entry eq_refl)).
Qed.

Lemma global_hit fullCommand chatId env w entry :
  second_word fullCommand = None ->
  global (heap w) = Some entry -> now w - lastUpdated entry < 300000 ->
  exists t w',
    handleGlobalCommand paths fullCommand chatId env w = (t, w', Ok tt) /\
    upstream_fetches t = 0%nat /\ heap w' = heap w.
Proof.
  intros Hs Hg Hlt. unfold handleGlobalCommand, try_catch. rewrite Hs.
  unfold bind at 1. rewrite (global_fresh_hit _ _ Hg Hlt). unfold bind at 1.
  destruct (formatCMCGlobal_run (data entry) w) as (t1 & text & -> & Hf1 & Hu1).
  send_next Hf2 Hu2. do 2 eexists. split; [reflexivity|].
  tally. rewrite Hu1, Hu2. now split.
Qed.

Lemma global_miss fullCommand chatId env w :
  second_word fullCommand = None ->
  (forall entry, global (heap w) = Some entry -> 300000 <= now w - lastUpdated entry) ->
  exists t w',
    handleGlobalCommand paths fullCommand chatId env w = (t, w', Ok tt) /\
    upstream_fetches t = 1%nat /\
    (forall d, global_arrival w = Ok d ->
       heap w' = set_global {| data := d; lastUpdated := now (called w) |} (heap w)) /\
    (forall e, global_arrival w = Err e -> heap w' = heap w).
Proof.
  intros Hs Hst. unfold handleGlobalCommand, try_catch. rewrite Hs.
  unfold bind at 1. rewrite (global_fresh_miss _ Hst).
  unfold bind at 1. rewrite fetchCMCGlobal_eq.
  destruct (global_arrival w) as [d|e].
  - unfold bind at 1, Date_now, gets. unfold bind at 1, modify. unfold bind at 1.
    match goal with |- context [formatCMCGlobal paths d ?w'] =>
      destruct (formatCMCGlobal_run d w') as (t1 & text & -> & Hf1 & Hu1) end.
    send_next Hf2 Hu2. do 2 eexists. split; [reflexivity|].
    tally. rewrite Hu1, Hu2. split; [reflexivity|]. split; [|discriminate].
    now intros d' [= <-].
  - unfold bind, console_error, emit. send_next Hf2 Hu2.
    do 2 eexists. split; [reflexivity|].
    tally. rewrite Hu2. split; [reflexivity|]. split; [discriminate|]. now intros _ _.
Qed.

(** X23. The global slot of the cache is read through like the others. A
    [/global] without an exchange that finds no fresh entry asks once and,
    when the metrics arrive, stores them under the clock of then; a second
    one less than 300000 ms after that asks nothing and leaves the cache
    as it is; one at 300000 ms or later asks again. When the metrics do not
    arrive the cache is left as it was. *)
Theorem global_cache_round_trip fullCommand chatId env w w2 :
  second_word fullCommand = None ->
  (forall entry, global (heap w) = Some entry -> 300000 <= now w - lastUpdated entry) ->
  let o1 := handleGlobalCommand paths fullCommand chatId env w in
  let o2 := handleGlobalCommand paths fullCommand chatId env w2 in
  heap w2 = heap (world o1) ->
  upstream_fetches (events o1) = 1%nat /\
  (forall e, global_arrival w = Err e -> heap (world o1) = heap w) /\
  (forall d, global_arrival w = Ok d ->
     global (heap (world o1)) = Some {| data := d; lastUpdated := now (called w) |} /\
     (now w2 - now (called w) < 300000 ->
      upstream_fetches (events o2) = 0%nat /\ heap (world o2) = heap w2) /\
     (300000 <= now w2 - now (called w) -> upstream_fetches (events o2) = 1%nat)).
Proof.
  intros Hs Hst o1 o2 Hheap.
  destruct (global_miss fullCommand chatId env w Hs Hst) as (t1 & w1 & Ho1 & Hu1 & Hok & Herr).
  subst o1 o2. rewrite Ho1 in Hheap |- *. cbn [events world fst snd] in Hheap |- *.
  split; [exact Hu1|]. split; [exact Herr|].
  intros d Hd. specialize (Hok d Hd).
  assert (Hentry : global (heap w2) = Some {| data := d; lastUpdated := now (called w) |}).
  { now rewrite Hheap, Hok. }
  split; [now rewrite Hok|]. split.
  - intros Hlt.
    destruct (global_hit fullCommand chatId env w2 _ Hs Hentry Hlt) as (t2 & w2' & -> & Hu2 & Hh2).
    now split.
  - intros Hge.
    destruct (global_miss fullCommand chatId env w2 Hs) as (t2 & w2' & -> & Hu2 & _).
    { intros entry. rewrite Hentry. intros [= <-]. exact Hge. }
    exact Hu2.
Qed.

(** *** The router *)

(** What is thrown for a message with a text and without a chat. *)
Definition unaddressed : exn :=
  JsError "Cannot read properties of undefined (reading 'id')".

(** The text of an update that has one, with the chat of its message if
    it has one. *)
Definition addressed (update : Update) : option (string * option Z) :=
  match update_message update with
  | Some msg =>
      match message_text msg with
      | None | Some EmptyString => None
      | Some text => Some (text, message_chat msg)
      end
  | None => None
  end.

Definition processing (text : string) (chatId : Z) : event :=
  EvLog ("Processing command: " +:+ text +:+ " from " +:+ pretty chatId) None.

Definition unrecognized : string := "Unrecognized command. Type /start for help.".
Definition apology : string := "⚠️ Bot encountered an error. Please try again.".

(** [handleUpdate] past the first log line. *)
Definition route (text : string) (chatId : Z) (env : Env) : M World unit :=
  if negb (String.prefix "/" text)
  then sendMessage chatId unrecognized env
  else
    try_catch
      ((if String.prefix "/start" text
        then
          emit (EvLog "Handling /start command" None) ;;;
          sendMessage chatId startMessage env ;;;
          emit (EvLog "Start message sent" None)
        else ret tt) ;;;
       if String.prefix "/info" text then handleInfoCommand js text chatId env
       else if String.prefix "/global" text then handleGlobalCommand paths text chatId env
       else if String.prefix "/ticker" text then handleTickerCommand js text chatId env
       else if String.prefix "/alert" text then checkNewTokens js env
       else ret tt)
      (fun error =>
         console_error "Update handling error:" error ;;;
         if negb (chatId =? 0)
         then sendMessage chatId apology env
         else ret tt).

Lemma handleUpdate_eq update env w :
  handleUpdate js paths update env w =
  match addressed update with
  | None => ([], w, Ok tt)
  | Some (text, None) => ([], w, Err unaddressed)
  | Some (text, Some chatId) =>
      let o := route text chatId env w in
      (processing text chatId :: events o, world o, outcome o)
  end.
Proof.
  unfold handleUpdate, addressed.
  destruct (update_message update) as [msg|]; [|reflexivity].
  destruct (message_text msg) as [[|a text]|]; try reflexivity.
  destruct (message_chat msg) as [chatId|]; [|reflexivity].
  unfold bind at 1, ret at 1. unfold bind at 1, emit at 1.
  unfold route, unrecognized, apology, processing. cbn zeta.
  match goal with
  | |- context [(if negb (String.prefix "/" (String a text)) then ?x else ?y) w] =>
      set (run := (if negb (String.prefix "/" (String a text)) then x else y) w)
  end.
  now destruct run as [[t w'] r].
Qed.

Lemma checkNewTokens_ok env w : outcome (checkNewTokens js env w) = Ok tt.
Proof.
  rewrite checkNewTokens_eq. destruct (listing js w) as [tokens|e]; [|reflexivity].
  cbn zeta. now destruct (for_of tokens _ (called w)) as [[t w'] [[]|e]].
Qed.

Lemma prefix_cons a s b t :
  String.prefix (String a s) (String b t)
  = if ascii_dec a b then String.prefix s t else false.
Proof. reflexivity. Qed.

(** A text with the prefix [p] is [p] and a rest. *)
Lemma prefix_rest p : forall text,
  String.prefix p text = true -> exists rest, text = p +:+ rest.
Proof.
  induction p as [|a p IH]; intros text H; [now exists text|].
  destruct text as [|b text]; [discriminate|].
  rewrite prefix_cons in H. destruct (ascii_dec a b) as [<-|]; [|discriminate].
  destruct (IH text H) as (rest & ->). now exists rest.
Qed.

Lemma info_not_start text :
  String.prefix "/info" text = true ->
  String.prefix "/start" text = false /\ String.prefix "/" text = true.
Proof. intros H. destruct (prefix_rest _ _ H) as (rest & ->). now split. Qed.

(** What a run of the router past the first log line amounts to. *)
Lemma route_run text chatId env w :
  exists t w',
    route text chatId env w = (t, w', Ok tt) /\
    (String.prefix "/alert" text = false -> kv w' = kv w).
Proof.
  unfold route. destruct (String.prefix "/" text); cbn [negb].
  2:{ send_next Hf Hu. do 2 eexists. split; [reflexivity|]. reflexivity. }
  unfold try_catch, bind at 1.
  assert (Hstart : exists t0 w0,
            (if String.prefix "/start" text
             then emit (EvLog "Handling /start command" None) ;;;
                  sendMessage chatId startMessage env ;;;
                  emit (EvLog "Start message sent" None)
             else ret tt) w = (t0, w0, Ok tt) /\ kv w0 = kv w).
  { destruct (String.prefix "/start" text); [|now exists [], w].
    unfold bind, emit. send_next Hf Hu. eauto. }
  destruct Hstart as (t0 & w0 & -> & Hk0).
  assert (Hsorry : forall e w1, kv w1 = kv w ->
            exists t2 w2,
              (console_error "Update handling error:" e ;;;
               if negb (chatId =? 0) then sendMessage chatId apology env else ret tt) w1
              = (t2, w2, Ok tt) /\ kv w2 = kv w).
  { intros e w1 Hk1. unfold bind, console_error, emit.
    destruct (chatId =? 0); cbn [negb]; [now exists [EvLog "Update handling error:" (Some e)], w1|].
    send_next Hf Hu. do 2 eexists. split; [reflexivity|]. exact Hk1. }
  destruct (String.prefix "/info" text).
  { destruct (info_command_run js text chatId env w0) as (t1 & w1 & r1 & -> & _ & _ & Hk1).
    destruct r1 as [[]|e].
    - do 2 eexists. split; [reflexivity|]. intros _. congruence.
    - destruct (Hsorry e w1) as (t2 & w2 & -> & Hk2); [congruence|].
      do 2 eexists. split; [reflexivity|]. now intros _. }
  destruct (String.prefix "/global" text).
  { destruct (global_command_run text chatId env w0) as (t1 & w1 & -> & Hk1 & _).
    do 2 eexists. split; [reflexivity|]. intros _. congruence. }
  destruct (String.prefix "/ticker" text).
  { destruct (ticker_command_run js text chatId env w0) as (t1 & w1 & -> & Hk1 & _).
    do 2 eexists. split; [reflexivity|]. intros _. congruence. }
  destruct (String.prefix "/alert" text).
  { pose proof (checkNewTokens_ok env w0) as Hok.
    destruct (checkNewTokens js env w0) as [[t1 w1] r1]. cbn [outcome snd] in Hok. subst r1.
    do 2 eexists. split; [reflexivity|]. discriminate. }
  do 2 eexists. split; [reflexivity|]. now intros _.
Qed.


(** X25. The store changes only under [/alert]: after any update whose
    text does not begin with [/alert] the store is as it was. *)
Theorem update_keeps_store update env w :
  let o := handleUpdate js paths update env w in
  kv (world o) = kv w \/
  exists text chat, addressed update = Some (text, chat) /\ String.prefix "/alert" text = true.
Proof.
  cbn zeta. rewrite handleUpdate_eq.
  destruct (addressed update) as [[text [chatId|]]|]; try (now left).
  destruct (route_run text chatId env w) as (t & w' & -> & Hk).
  cbn [world fst snd]. destruct (String.prefix "/alert" text) eqn:Ha.
  - right. eauto.
  - left. now apply Hk.
Qed.

(** X26. Texts that are no command. A text that does not begin with a
    slash is answered with the notice, and that is all. A text that begins
    with a slash and with none of the five commands is logged and not
    answered at all. *)
Theorem no_command update env w text chatId :
  addressed update = Some (text, Some chatId) ->
  (String.prefix "/" text = false ->
   let s := sendMessage chatId unrecognized env w in
   handleUpdate js paths update env w
   = (processing text chatId :: events s, called w, Ok tt)) /\
  (String.prefix "/" text = true ->
   String.prefix "/start" text = false -> String.prefix "/info" text = false ->
   String.prefix "/global" text = false -> String.prefix "/ticker" text = false ->
   String.prefix "/alert" text = false ->
   handleUpdate js paths update env w = ([processing text chatId], w, Ok tt)).
Proof.
  intros Ha. rewrite handleUpdate_eq, Ha. unfold route. split.
  - intros ->. cbn [negb]. cbn zeta.
    destruct (sendMessage_trace chatId unrecognized env w) as (t & -> & _). reflexivity.
  - intros -> -> -> -> -> ->. reflexivity.
Qed.

(** X27. A failed [/info] is answered by the router. When
    [handleInfoCommand] throws, the router logs the exception after what
    the handler did and sends the apology; but to the chat with id 0 it
    sends nothing. *)
Theorem info_failure_answered update env w text chatId e :
  addressed update = Some (text, Some chatId) ->
  String.prefix "/info" text = true ->
  let i := handleInfoCommand js text chatId env w in
  outcome i = Err e ->
  let s := sendMessage chatId apology env (world i) in
  handleUpdate js paths update env w
  = (processing text chatId :: events i ++ EvLog "Update handling error:" (Some e)
       :: (if chatId =? 0 then [] else events s),
     if chatId =? 0 then world i else called (world i),
     Ok tt).
Proof.
  intros Ha Hi i Hout s. rewrite handleUpdate_eq, Ha.
  destruct (info_not_start _ Hi) as [Hstart Hslash].
  assert (Hr : route text chatId env w
               = (events i ++ EvLog "Update handling error:" (Some e)
                    :: (if chatId =? 0 then [] else events s),
                  if chatId =? 0 then world i else called (world i),
                  Ok tt)).
  { unfold route. rewrite Hslash, Hstart, Hi. cbn [negb].
    unfold try_catch, bind at 1, ret at 1. subst s i.
    destruct (handleInfoCommand js text chatId env w) as [[t1 w1] r1].
    cbn [outcome events world fst snd] in Hout |- *. subst r1.
    unfold bind, console_error, emit. destruct (chatId =? 0); cbn [negb].
    - reflexivity.
    - destruct (sendMessage_trace chatId apology env w1) as (t & -> & _). reflexivity. }
  cbn zeta. now rewrite Hr.
Qed.

End Router.

(** *** Concrete runs *)

(** The runtime [js0], but with the given answers of [isNaN(Number(s))],
    [parseInt] and [formatCMCInfo]. *)
Definition js_with (not_a_number : bool) (rank : float)
    (format : string -> result string) : JS nat string string :=
  {| toFixed := toFixed js0;
     toLocaleString := toLocaleString js0;
     toLocaleDateString := toLocaleDateString js0;
     Date_getTime := Date_getTime js0;
     Number_toString := Number_toString js0;
     toUpperCase := toUpperCase js0;
     isNaN_Number := fun _ => not_a_number;
     parseInt := fun _ => rank;
     result_items := result_items js0;
     data_symbol_0 := data_symbol_0 js0;
     data_0 := data_0 js0;
     as_array := as_array js0;
     formatCMCInfo := format;
     formatCoinPaprikaData := formatCoinPaprikaData js0 |}.

(** The world [quiet], but no request gets through. *)
Definition offline : World (Cache string string unit) nat :=
  {| heap := cache_init; kv := ∅; now := 1000000; calls := 0;
     net := fun _ => Rejected "connection refused";
     notify := fun _ => None; latency := fun _ => 7%N |}.

Lemma poll_without_listing_witness :
  checkNewTokens js0 env0 offline
  = ([EvFetch helius_rpc searchAssets;
      EvLog "Token check error:" (Some (NetworkError "connection refused"))],
     called offline, Ok tt).
Proof.
  apply (poll_without_listing js0 env0 offline (NetworkError "connection refused")).
  reflexivity.
Defined.

Lemma rank_lookup_uncached_witness :
  let o := handleInfoCommand (js_with false 0 Ok) "/info 0" 42 env0 quiet in
  heap (world o) = heap quiet /\ kv (world o) = kv quiet /\
  (PrimFloat.ltb 0 1 = true ->
   outcome o = Ok tt /\ upstream_fetches (events o) = 0%nat /\ sends (events o) = 1%nat) /\
  (PrimFloat.ltb 0 1 = false ->
   exists t, events o = EvFetch (rank_url (js_with false 0 Ok) 0) [] :: t /\
             upstream_fetches (events o) = 1%nat).
Proof.
  apply (rank_lookup_uncached (js_with false 0 Ok) "/info 0" 42 env0 quiet "0"); reflexivity.
Defined.

Definition no_quote : exn := JsError "Cannot read properties of undefined (reading 'USD')".

Lemma unformattable_quote_cached_witness :
  let js := js_with true nan (fun _ => Err no_quote) in
  let o := handleInfoCommand js "/info btc" 42 env0 quiet in
  o = ([EvFetch (quote_url "btc") []],
       set_heap (set_ticker "btc" {| data := "btc"; lastUpdated := now (called quiet) |}
                   (heap quiet)) (called quiet),
       Err no_quote) /\
  handleInfoCommand js "/info btc" 42 env0 (elapse 1000 (world o))
  = ([], elapse 1000 (world o), Err no_quote).
Proof.
  apply (unformattable_quote_cached (js_with true nan (fun _ => Err no_quote))
           "/info btc" 42 env0 "btc" quiet
           (elapse 1000
              (world (handleInfoCommand (js_with true nan (fun _ => Err no_quote))
                        "/info btc" 42 env0 quiet)))
           "btc" no_quote).
  - reflexivity.
  - reflexivity.
  - intros entry Hentry. cbn in Hentry. discriminate.
  - eexists _, _. repeat split; reflexivity.
  - reflexivity.
  - reflexivity.
  - reflexivity.
Defined.

(** The paths of the runs: every search finds the exchange of its payload,
    every payload of the global endpoint has the shape read. *)
Definition paths0 : Paths nat unit nat string :=
  {| toLowerCase := fun s => s;
     urlencode := fun s => s;
     error_message := fun _ => Ok "invalid";
     found := fun j => Ok (Some j);
     found_id := pretty;
     normalized := fun _ _ => Ok "Binance";
     formatExchangeData := fun d => Ok d;
     global_data := fun _ => Some tt;
     global_template := fun _ => Ok "<b>Global Crypto Market</b>" |}.

Definition update_of (text : string) (chatId : Z) : Update :=
  {| update_message := Some {| message_text := Some text; message_chat := Some chatId |} |}.

Lemma global_cache_round_trip_witness :
  let o1 := handleGlobalCommand paths0 "/global" 42 env0 quiet in
  let w2 := elapse 1000 (world o1) in
  let o2 := handleGlobalCommand paths0 "/global" 42 env0 w2 in
  upstream_fetches (events o1) = 1%nat /\
  (forall e, global_arrival paths0 quiet = Err e -> heap (world o1) = heap quiet) /\
  (forall d, global_arrival paths0 quiet = Ok d ->
     global (heap (world o1)) = Some {| data := d; lastUpdated := now (called quiet) |} /\
     (now w2 - now (called quiet) < 300000 ->
      upstream_fetches (events o2) = 0%nat /\ heap (world o2) = heap w2) /\
     (300000 <= now w2 - now (called quiet) -> upstream_fetches (events o2) = 1%nat)).
Proof.
  apply (global_cache_round_trip paths0 "/global" 42 env0 quiet
           (elapse 1000 (world (handleGlobalCommand paths0 "/global" 42 env0 quiet)))).
  - reflexivity.
  - intros entry Hentry. cbn in Hentry. discriminate.
  - reflexivity.
Defined.

Lemma no_command_witness :
  handleUpdate js0 paths0 (update_of "hello" 42) env0 quiet
  = (processing "hello" 42 :: events (sendMessage 42 unrecognized env0 quiet),
     called quiet, Ok tt) /\
  handleUpdate js0 paths0 (update_of "/help" 42) env0 quiet
  = ([processing "/help" 42], quiet, Ok tt).
Proof.
  split.
  - apply (proj1 (no_command js0 paths0 (update_of "hello" 42) env0 quiet "hello" 42 eq_refl)).
    reflexivity.
  - apply (proj2 (no_command js0 paths0 (update_of "/help" 42) env0 quiet "/help" 42 eq_refl));
      reflexivity.
Defined.

Lemma info_failure_answered_witness :
  let js := js_with true nan (fun _ => Err no_quote) in
  let i := handleInfoCommand js "/info btc" 42 env0 quiet in
  handleUpdate js paths0 (update_of "/info btc" 42) env0 quiet
  = (processing "/info btc" 42 :: events i ++ EvLog "Update handling error:" (Some no_quote)
       :: events (sendMessage 42 apology env0 (world i)),
     called (world i), Ok tt).
Proof.
  apply (info_failure_answered (js_with true nan (fun _ => Err no_quote)) paths0
           (update_of "/info btc" 42) env0 quiet "/info btc" 42 no_quote);
    reflexivity.
Defined.

End BotExtra.
